(** * Capture core of the KYC SDK: detection services, polling loop and views

    A shallow embedding of
    - [src/lib/services/face-detection/index.ts],
    - [src/lib/services/document-detection/index.ts],
    - the script and markup logic of [src/lib/pages/Selfie.svelte],
      [src/lib/pages/DocumentPhoto.svelte] and [src/lib/pages/CheckDocument.svelte].

    Conventions.
    - A JavaScript [number] is an IEEE 754 binary64 value, the kernel's
      [float]: [+], [-], [*] and [/] round to nearest, ties to even, and
      yield infinities and NaN as the standard has it; a comparison with NaN
      is false; a decimal literal stands for the nearest double, as it does
      in JavaScript.  The counters of the selfie page are integers; its
      countdown, whose values are all multiples of 1/4, is computed in exact
      rationals.
    - An [async] function is a function to [outcome]: [Returns] for a promise
      that resolves, [Throws] for one that rejects.
    - What the browser or a third-party library answers (the face detector,
      the document scanner, the loading of an image) is an argument of the
      function that asks. *)

From Stdlib Require Import ZArith QArith Qabs Qround Qpower Lia Bool Floats.
From stdpp Require Import gmap list strings pretty.

Set Warnings "-inexact-float".

Local Open Scope Z_scope.

(** ** Exceptions, promises and calls into libraries *)

Inductive outcome (A : Type) : Type :=
| Returns (a : A)
| Throws.
Arguments Returns {A} a.
Arguments Throws {A}.

#[global] Instance outcome_ret : MRet outcome := fun A a => Returns a.

#[global] Instance outcome_bind : MBind outcome := fun A B k m =>
  match m with
  | Returns a => k a
  | Throws => Throws
  end.

(** [a[i].f] on an array: reading a field of [undefined] is a [TypeError]. *)
Definition index {A : Type} (a : list A) (i : nat) : outcome A :=
  match a !! i with
  | Some v => Returns v
  | None => Throws
  end.

(** The calls that leave the repository. *)
Inductive LibCall : Type :=
| DetectSingleFace      (* faceapi.detectSingleFace(...).withFaceLandmarks(true) *)
| ScanDocument          (* scanic's scanDocument(...) *)
| LoadImage.            (* new Image(); img.src = ... *)

#[global] Instance LibCall_eq_dec : EqDecision LibCall.
Proof. solve_decision. Defined.

(** The detection passes among some library calls. *)
Definition detection_passes (cs : list LibCall) : nat :=
  length (filter (fun c => c = ScanDocument \/ c = DetectSingleFace) cs).

(** An [async] function: the library calls it made, in order, and how its
    promise settled. *)
Record async (A : Type) : Type := Async {
  libCalls : list LibCall;
  settled : outcome A
}.
Arguments Async {A} libCalls settled.
Arguments libCalls {A} _.
Arguments settled {A} _.

#[global] Instance async_ret : MRet async := fun A a => Async [] (Returns a).

#[global] Instance async_bind : MBind async := fun A B k m =>
  match settled m with
  | Returns a => Async (libCalls m ++ libCalls (k a)) (settled (k a))
  | Throws => Async (libCalls m) Throws
  end.

(** A synchronous computation inside an [async] function. *)
Definition lift {A : Type} (o : outcome A) : async A := Async [] o.

(** [await lib(...)], where the library settles with [answer]. *)
Definition lib_call {A : Type} (c : LibCall) (answer : outcome A) : async A :=
  Async [c] answer.

(** [try { body } catch (error) { handler }] *)
Definition try_catch {A : Type} (body : async A) (handler : async A) : async A :=
  match settled body with
  | Returns _ => body
  | Throws => Async (libCalls body ++ libCalls handler) (settled handler)
  end.

(** ** Numbers *)

(** [Math.max(a, b)]: NaN when either argument is NaN, and [+0] counts as
    larger than [-0]. *)
Definition js_max (a b : float) : float :=
  match PrimFloat.compare a b with
  | FLt => b
  | FGt => a
  | FEq => if PrimFloat.is_zero a && PrimFloat.get_sign a then b else a
  | FNotComparable => nan
  end.

(** The value of a finite double as a rational: [m * 2^e], signed; zero for
    the zeros (and, by convention, for the infinities and NaN). *)
Definition exact (f : float) : Q :=
  match Prim2SF f with
  | S754_finite s m e => inject_Z (cond_Zopp s (Z.pos m)) * 2 ^ e
  | _ => 0
  end.

(** A finite double as an integer multiple of the smallest positive double,
    [2^-1074], and the nearest double to such a multiple. *)
Module Binary64.

Definition emin : Z := -1074.

Definition is_number (x : spec_float) : bool :=
  match x with
  | S754_zero _ | S754_finite _ _ _ => true
  | _ => false
  end.

Definition sign (x : spec_float) : bool :=
  match x with
  | S754_zero s | S754_infinity s | S754_finite s _ _ => s
  | S754_nan => false
  end.

Definition scaled (x : spec_float) : Z :=
  match x with
  | S754_finite s m e => cond_Zopp s (Z.pos m) * 2 ^ (e - emin)
  | _ => 0
  end.

Definition round (n : Z) : spec_float := binary_normalize prec emax n emin false.

End Binary64.

(** Strict order and maximum of rationals (the countdown of the selfie page
    and the exact reading of areas). *)
Definition Qlt_bool (a b : Q) : bool := negb (Qle_bool b a).

Definition Qmax (a b : Q) : Q := if Qle_bool a b then b else a.

Record Point : Type := { px : float; py : float }.

(** [HTMLVideoElement], as far as the services read it. *)
Record Video : Type := {
  readyState : Z;
  videoWidth : float;
  videoHeight : float
}.

(** ** services/face-detection *)

Module FaceDetection.

Record Box : Type := { x : float; y : float; width : float; height : float }.

Record FaceDetectionResult : Type := {
  detected : bool;
  centered : bool;
  frontal : bool;
  properSize : bool;
  box : option Box
}.

(** What [faceapi.detectSingleFace(...).withFaceLandmarks(true)] hands back
    when it finds a face: [detection.detection.box] and
    [detection.landmarks.positions]. *)
Record Detection : Type := {
  detection_box : Box;
  positions : list Point
}.

Definition notDetected : FaceDetectionResult :=
  {| detected := false; centered := false; frontal := false;
     properSize := false; box := None |}.

Definition isFaceFrontal (positions : list Point) (tolerance : float)
  : outcome bool :=
  p36 ← index positions 36;
  p39 ← index positions 39;
  let leftEyeCenter :=
    {| px := (px p36 + px p39) / 2; py := (py p36 + py p39) / 2 |}%float in
  p42 ← index positions 42;
  p45 ← index positions 45;
  let rightEyeCenter :=
    {| px := (px p42 + px p45) / 2; py := (py p42 + py p45) / 2 |}%float in
  noseTip ← index positions 30;
  let eyeMidpointX := ((px leftEyeCenter + px rightEyeCenter) / 2)%float in
  let eyeDistance := abs (px rightEyeCenter - px leftEyeCenter) in
  let noseOffsetFromCenter := abs (px noseTip - eyeMidpointX) in
  let noseRatio := (noseOffsetFromCenter / eyeDistance)%float in
  leftContour ← index positions 0;
  rightContour ← index positions 16;
  let leftDistance := abs (px noseTip - px leftContour) in
  let rightDistance := abs (px rightContour - px noseTip) in
  let contourRatio :=
    (abs (leftDistance - rightDistance) / (leftDistance + rightDistance))%float in
  let isCentered := (noseRatio <? tolerance)%float in
  let isSymmetric := (contourRatio <? tolerance)%float in
  Returns (isCentered && isSymmetric).

(** [modelsLoaded] is the module-level flag at the time of the call;
    [faceapi] is how the face library settles when it is called: it throws,
    or resolves to [undefined] or to a detection. *)
Definition detectFace (modelsLoaded : bool) (video : Video)
    (faceapi : outcome (option Detection)) (centerTolerance : float)
  : async FaceDetectionResult :=
  if negb modelsLoaded then mret notDetected
  else if negb (readyState video =? 4) then mret notDetected
  else
    try_catch
      (detection ← lib_call DetectSingleFace faceapi;
       match detection with
       | None => mret notDetected
       | Some detection =>
           let b := detection_box detection in
           let overlayWidth := (videoWidth video * 0.8)%float in
           let overlayHeight := (overlayWidth * (4 / 3))%float in
           let overlayCenterX := (videoWidth video / 2)%float in
           let overlayCenterY := (videoHeight video / 2)%float in
           let faceCenterX := (x b + width b / 2)%float in
           let faceCenterY := (y b + height b / 2)%float in
           let xOffset := (abs (faceCenterX - overlayCenterX) / overlayWidth)%float in
           let yOffset := (abs (faceCenterY - overlayCenterY) / overlayHeight)%float in
           let centered :=
             (xOffset <? centerTolerance)%float && (yOffset <? centerTolerance)%float in
           frontal ← lift (isFaceFrontal (positions detection) 0.15);
           let faceToOverlayRatio := (width b / overlayWidth)%float in
           let minRatio := 0.35%float in
           let maxRatio := 0.85%float in
           let properSize :=
             (minRatio <=? faceToOverlayRatio)%float
             && (faceToOverlayRatio <=? maxRatio)%float in
           mret {| detected := true; centered := centered; frontal := frontal;
                   properSize := properSize; box := Some b |}
       end)
      (mret notDetected).

(** Default of the [centerTolerance] parameter. *)
Definition centerTolerance_default : float := 0.08.

End FaceDetection.

(** ** services/document-detection *)

Module DocumentDetection.

Record Corners : Type := {
  topLeft : Point;
  topRight : Point;
  bottomRight : Point;
  bottomLeft : Point
}.

Record DocumentDetectionResult : Type := {
  detected : bool;
  corners : option Corners;
  confidence : bool
}.

(** scanic's [ScanDocumentResult], as far as it is read. *)
Record ScanDocumentResult : Type := {
  success : bool;
  scan_corners : option Corners
}.

(** [HTMLVideoElement | HTMLCanvasElement | HTMLImageElement] *)
Inductive Source : Type :=
| VideoElement (video : Video)
| CanvasElement (width height : float)
| ImageElement (width height : float).

Definition notDetected : DocumentDetectionResult :=
  {| detected := false; corners := None; confidence := false |}.

(** [scan] is how [scanDocument] settles when it is called. *)
Definition detectDocument (source : Source) (scan : outcome ScanDocumentResult)
  : async DocumentDetectionResult :=
  try_catch
    (if match source with
        | VideoElement video => negb (readyState video =? 4)
        | _ => false
        end
     then mret notDetected
     else
       result ← lib_call ScanDocument scan;
       match success result, scan_corners result with
       | true, Some c =>
           let sourceWidth :=
             match source with
             | VideoElement video => videoWidth video
             | CanvasElement w _ | ImageElement w _ => w
             end in
           let sourceHeight :=
             match source with
             | VideoElement video => videoHeight video
             | CanvasElement _ h | ImageElement _ h => h
             end in
           let docWidth :=
             js_max (abs (px (topRight c) - px (topLeft c)))
                    (abs (px (bottomRight c) - px (bottomLeft c))) in
           let docHeight :=
             js_max (abs (py (bottomLeft c) - py (topLeft c)))
                    (abs (py (bottomRight c) - py (topRight c))) in
           let docArea := (docWidth * docHeight)%float in
           let frameArea := (sourceWidth * sourceHeight)%float in
           let confidence := (0.15 <? docArea / frameArea)%float in
           mret {| detected := true; corners := Some c; confidence := confidence |}
       | _, _ => mret notDetected
       end)
    (mret notDetected).

(** How the browser answers [img.src = base64Image]: [onload] with the
    decoded image, or [onerror]. *)
Inductive ImageLoad : Type :=
| Onload (width height : float)
| Onerror.

Definition validateDocumentImage (base64Image : string) (load : ImageLoad)
    (scan : outcome ScanDocumentResult) : async DocumentDetectionResult :=
  _ ← lib_call LoadImage (Returns base64Image);
  match load with
  | Onload w h =>
      result ← detectDocument (ImageElement w h) scan;
      mret result
  | Onerror => mret notDetected
  end.

End DocumentDetection.

(** ** The polling loop: [createFaceDetectionLoop], [createDocumentDetectionLoop]

    The two functions have the same body up to the detector they call and the
    default interval, so the loop is written once, over the detector.

    A loop is the closure state ([isRunning], [timeoutId]) together with what
    the browser holds for it: the table of its active timers and the detector
    calls whose promise has not settled.  The browser drives it by events:
    a pending promise settles, an active timer fires, or the owner calls the
    returned cleanup function.  Every event carries the time at which it
    happens; a timer never fires before it is due. *)

Module DetectionLoop.

(** One detector call: when it was made, what it was made on, and when its
    promise settled. *)
Record Call (Input : Type) : Type := {
  invokedAt : Z;
  input : Input;
  settledAt : option Z
}.
Arguments invokedAt {Input} _.
Arguments input {Input} _.
Arguments settledAt {Input} _.

(** What a loop does, as seen from outside. *)
Inductive Obs (Result : Type) : Type :=
| Invoked (t : Z)                          (* await detect(video) starts *)
| Delivered (t : Z) (r : Result)           (* onResult(result) *)
| Scheduled (t : Z) (id : nat) (due : Z)   (* setTimeout(runDetection, intervalMs) *)
| Stopped (t : Z)                          (* the cleanup function ran *)
| Rejected (t : Z).                        (* runDetection's promise rejected *)
Arguments Invoked {Result} t.
Arguments Delivered {Result} t r.
Arguments Scheduled {Result} t id due.
Arguments Stopped {Result} t.
Arguments Rejected {Result} t.

Record Loop (Input Result Client : Type) : Type := {
  isRunning : bool;
  timeoutId : option nat;             (* undefined until the first setTimeout *)
  timers : gmap nat Z;                (* active timers: id to due time *)
  nextTimer : nat;                    (* the id the next setTimeout returns *)
  calls : list (Call Input);          (* newest first *)
  clock : Z;
  client : Client;                    (* the state onResult works on *)
  trace : list (Obs Result)           (* newest first *)
}.
Arguments isRunning {Input Result Client} _.
Arguments timeoutId {Input Result Client} _.
Arguments timers {Input Result Client} _.
Arguments nextTimer {Input Result Client} _.
Arguments calls {Input Result Client} _.
Arguments clock {Input Result Client} _.
Arguments client {Input Result Client} _.
Arguments trace {Input Result Client} _.

Inductive Event (Input : Type) : Type :=
| Settle (k : nat) (t : Z)              (* the promise of [calls !! k] settles *)
| Timeout (id : nat) (i : Input) (t : Z) (* timer [id] fires; [i] is what a call made now sees *)
| Cleanup (t : Z).                      (* the owner calls the cleanup function *)
Arguments Settle {Input} k t.
Arguments Timeout {Input} id i t.
Arguments Cleanup {Input} t.

Section Loop.
Context {Input Result Client : Type}.

(** [detectFace(video)] or [detectDocument(video)]. *)
Variable detect : Input -> async Result.
(** The callback; the flag tells whether it called the cleanup function
    of this loop while it ran.  The callback returns: one that throws makes
    [runDetection] reject before [setTimeout], since [onResult(result)] is
    not guarded, and that path is not part of this model. *)
Variable onResult : Result -> Client -> Client * bool.
Variable intervalMs : Z.

#[local] Abbreviation State := (Loop Input Result Client).

Definition observe (o : Obs Result) (l : State) : State :=
  {| isRunning := isRunning l; timeoutId := timeoutId l; timers := timers l;
     nextTimer := nextTimer l; calls := calls l; clock := clock l;
     client := client l; trace := o :: trace l |}.

Definition advance (t : Z) (l : State) : State :=
  {| isRunning := isRunning l; timeoutId := timeoutId l; timers := timers l;
     nextTimer := nextTimer l; calls := calls l; clock := t;
     client := client l; trace := trace l |}.

(** [setTimeout(runDetection, ms)]: a fresh positive id, due [ms] from now
    (a negative delay counts as zero). *)
Definition setTimeout (ms : Z) (l : State) : nat * State :=
  let id := nextTimer l in
  let due := clock l + Z.max 0 ms in
  (id,
   observe (Scheduled (clock l) id due)
     {| isRunning := isRunning l; timeoutId := timeoutId l;
        timers := <[id := due]> (timers l);
        nextTimer := S id; calls := calls l; clock := clock l;
        client := client l; trace := trace l |}).

(** [clearTimeout(id)]: nothing happens for an id that is not active. *)
Definition clearTimeout (id : nat) (l : State) : State :=
  {| isRunning := isRunning l; timeoutId := timeoutId l;
     timers := delete id (timers l);
     nextTimer := nextTimer l; calls := calls l; clock := clock l;
     client := client l; trace := trace l |}.

(** The returned function:
    [isRunning = false; if (timeoutId) clearTimeout(timeoutId);] *)
Definition cleanup (l : State) : State :=
  let l1 :=
    observe (Stopped (clock l))
      {| isRunning := false; timeoutId := timeoutId l; timers := timers l;
         nextTimer := nextTimer l; calls := calls l; clock := clock l;
         client := client l; trace := trace l |} in
  match timeoutId l1 with
  | Some id => if negb (id =? 0)%nat then clearTimeout id l1 else l1
  | None => l1
  end.

(** [runDetection] up to its [await]. *)
Definition runDetection (i : Input) (l : State) : State :=
  if negb (isRunning l) then l
  else
    observe (Invoked (clock l))
      {| isRunning := isRunning l; timeoutId := timeoutId l; timers := timers l;
         nextTimer := nextTimer l;
         calls := {| invokedAt := clock l; input := i; settledAt := None |} :: calls l;
         clock := clock l; client := client l; trace := trace l |}.

(** [runDetection] after its [await] resolved to [result]. *)
Definition runDetection_resume (result : Result) (l : State) : State :=
  if isRunning l then
    let '(c, stops) := onResult result (client l) in
    let l1 :=
      observe (Delivered (clock l) result)
        {| isRunning := isRunning l; timeoutId := timeoutId l; timers := timers l;
           nextTimer := nextTimer l; calls := calls l; clock := clock l;
           client := c; trace := trace l |} in
    let l2 := if stops : bool then cleanup l1 else l1 in
    let '(id, l3) := setTimeout intervalMs l2 in
    {| isRunning := isRunning l3; timeoutId := Some id; timers := timers l3;
       nextTimer := nextTimer l3; calls := calls l3; clock := clock l3;
       client := client l3; trace := trace l3 |}
  else l.

(** [createFaceDetectionLoop(video, onResult, intervalMs)] at time [t]:
    the state right after it returned. *)
Definition create (i : Input) (t : Z) (c : Client) : State :=
  runDetection i
    {| isRunning := true; timeoutId := None; timers := ∅; nextTimer := 1;
       calls := []; clock := t; client := c; trace := [] |}.

Definition settle_call (k : nat) (t : Z) (l : State) : State :=
  {| isRunning := isRunning l; timeoutId := timeoutId l; timers := timers l;
     nextTimer := nextTimer l;
     calls := alter (fun c => {| invokedAt := invokedAt c; input := input c;
                                 settledAt := Some t |}) k (calls l);
     clock := clock l; client := client l; trace := trace l |}.

Definition step (l : State) (e : Event Input) : option State :=
  match e with
  | Settle k t =>
      match calls l !! k with
      | Some c =>
          match settledAt c with
          | None =>
              if clock l <=? t then
                let l1 := settle_call k t (advance t l) in
                match settled (detect (input c)) with
                | Returns result => Some (runDetection_resume result l1)
                | Throws => Some (observe (Rejected t) l1)
                end
              else None
          | Some _ => None
          end
      | None => None
      end
  | Timeout id i t =>
      match timers l !! id with
      | Some due =>
          if (due <=? t) && (clock l <=? t)
          then (* a timer that fires leaves the table, then its callback runs *)
            Some (runDetection i (clearTimeout id (advance t l)))
          else None
      | None => None
      end
  | Cleanup t =>
      if clock l <=? t then Some (cleanup (advance t l)) else None
  end.

Fixpoint run (l : State) (es : list (Event Input)) : option State :=
  match es with
  | [] => Some l
  | e :: es =>
      match step l e with
      | Some l' => run l' es
      | None => None
      end
  end.

Definition is_outstanding (c : Call Input) : bool :=
  match settledAt c with
  | None => true
  | Some _ => false
  end.

(** The detector calls in flight. *)
Definition outstanding (l : State) : list (Call Input) :=
  List.filter is_outstanding (calls l).

(** The times at which the detector was called, newest first. *)
Definition invocations (l : State) : list Z := invokedAt <$> calls l.

(** The results handed to [onResult], newest first. *)
Definition deliveries (l : State) : list Result :=
  omap (fun o => match o with Delivered _ r => Some r | _ => None end) (trace l).

(** The timers set so far, newest first. *)
Definition schedulings (l : State) : list nat :=
  omap (fun o => match o with Scheduled _ id _ => Some id | _ => None end) (trace l).

(** [c2] was invoked no earlier than [intervalMs] after [c1] settled. *)
Definition follows (c1 c2 : Call Input) : bool :=
  match settledAt c1 with
  | Some s => (invokedAt c1 <=? s) && (s + Z.max 0 intervalMs <=? invokedAt c2)
  | None => false
  end.

(** Every call but the newest had settled, [intervalMs] or more before the
    next one was made. *)
Fixpoint serialized (cs : list (Call Input)) : bool :=
  match cs with
  | c2 :: (c1 :: _) as rest => follows c1 c2 && serialized rest
  | _ => true
  end.

(** A settled call took [d] ms or more. *)
Definition took_at_least (d : Z) (c : Call Input) : bool :=
  match settledAt c with
  | Some s => d <=? s - invokedAt c
  | None => true
  end.

(** Consecutive times (newest first) are [d] or more apart. *)
Fixpoint gaps_at_least (d : Z) (ts : list Z) : bool :=
  match ts with
  | t2 :: (t1 :: _) as rest => (d <=? t2 - t1) && gaps_at_least d rest
  | _ => true
  end.

(** What holds of a loop between two events. *)
Record Inv (l : State) : Prop := {
  inv_older :
    forall c rest, calls l = c :: rest -> Forall (fun c' => is_outstanding c' = false) rest;
  inv_timers :
    forall id due, timers l !! id = Some due ->
      timeoutId l = Some id /\ id <> 0%nat /\
      exists c rest s, calls l = c :: rest /\ settledAt c = Some s
                       /\ due = s + Z.max 0 intervalMs;
  inv_serialized : serialized (calls l) = true;
  inv_clock :
    Forall (fun c => invokedAt c <= clock l
                     /\ forall s, settledAt c = Some s -> invokedAt c <= s <= clock l)
           (calls l);
  inv_fresh : nextTimer l <> 0%nat
}.

End Loop.

End DetectionLoop.

(** ** pages/Selfie.svelte

    The component's [let] variables are the fields of [Component].

    [faceReady] is declared by the reactive statement
    [$: faceReady = faceDetected && faceCentered && faceFrontal && faceProperSize].
    Svelte compiles such a statement into the component's [update] function,
    which runs when the component is created and then in the flush that an
    assignment to one of the four flags schedules as a microtask.  It does not
    run inside the function that makes the assignment: until the flush,
    [faceReady] holds the value of the previous flush.  [faceReady] is
    therefore a field of its own, written by [update] only.

    The loop hands a result over from the continuation of its [await] and
    waits for a timer before the next call, so the flush that a handler call
    scheduled has always run when the next result arrives: [deliver]. *)

Module Selfie.
Import FaceDetection.

Inductive Effect : Type :=
| Set_isCapturing         (* isCapturing = true *)
| StopDetectionLoop       (* stopDetectionLoop() *)
| GetDataUri              (* $selfieUri = cameraPhoto.getDataUri(...) *)
| GoToNextStep            (* goToNextStep(...) *)
| ToggleOnIsDisabled.     (* toggleOnIsDisabled() *)

#[global] Instance Effect_eq_dec : EqDecision Effect.
Proof. solve_decision. Defined.

Record Component : Type := {
  cameraPhoto : bool;          (* cameraPhoto !== undefined *)
  isDisabled : bool;           (* $isDisabled *)
  faceDetected : bool;
  faceCentered : bool;
  faceFrontal : bool;
  faceProperSize : bool;
  faceReady : bool;
  stableFrames : Z;
  countdown : Z;
  stopDetectionLoop : bool;    (* stopDetectionLoop !== null *)
  isCapturing : bool;
  effects : list Effect        (* what the component did, oldest first *)
}.

Definition DETECTION_INTERVAL_MS : Q := 250.
Definition COUNTDOWN_SECONDS : Q := 5.
Definition FRAMES_PER_SECOND : Q := 1000 / DETECTION_INTERVAL_MS.
Definition REQUIRED_STABLE_FRAMES : Q := COUNTDOWN_SECONDS * FRAMES_PER_SECOND.

Definition emit (es : list Effect) (s : Component) : Component :=
  {| cameraPhoto := cameraPhoto s; isDisabled := isDisabled s;
     faceDetected := faceDetected s; faceCentered := faceCentered s;
     faceFrontal := faceFrontal s; faceProperSize := faceProperSize s;
     faceReady := faceReady s; stableFrames := stableFrames s;
     countdown := countdown s; stopDetectionLoop := stopDetectionLoop s;
     isCapturing := isCapturing s; effects := effects s ++ es |}.

Definition handleTakePhoto (s : Component) : Component :=
  if negb (cameraPhoto s) || isDisabled s || isCapturing s then s
  else
    (* isCapturing = true; *)
    let s1 :=
      emit [Set_isCapturing]
        {| cameraPhoto := cameraPhoto s; isDisabled := isDisabled s;
           faceDetected := faceDetected s; faceCentered := faceCentered s;
           faceFrontal := faceFrontal s; faceProperSize := faceProperSize s;
           faceReady := faceReady s; stableFrames := stableFrames s;
           countdown := countdown s; stopDetectionLoop := stopDetectionLoop s;
           isCapturing := true; effects := effects s |} in
    (* if (stopDetectionLoop) { stopDetectionLoop(); stopDetectionLoop = null; } *)
    let s2 :=
      if stopDetectionLoop s1 then
        emit [StopDetectionLoop]
          {| cameraPhoto := cameraPhoto s1; isDisabled := isDisabled s1;
             faceDetected := faceDetected s1; faceCentered := faceCentered s1;
             faceFrontal := faceFrontal s1; faceProperSize := faceProperSize s1;
             faceReady := faceReady s1; stableFrames := stableFrames s1;
             countdown := countdown s1; stopDetectionLoop := false;
             isCapturing := isCapturing s1; effects := effects s1 |}
      else s1 in
    (* $selfieUri = ...; goToNextStep(...); toggleOnIsDisabled(); *)
    emit [GetDataUri; GoToNextStep; ToggleOnIsDisabled]
      {| cameraPhoto := cameraPhoto s2; isDisabled := true;
         faceDetected := faceDetected s2; faceCentered := faceCentered s2;
         faceFrontal := faceFrontal s2; faceProperSize := faceProperSize s2;
         faceReady := faceReady s2; stableFrames := stableFrames s2;
         countdown := countdown s2; stopDetectionLoop := stopDetectionLoop s2;
         isCapturing := isCapturing s2; effects := effects s2 |}.

Definition set_counters (frames seconds : Z) (s : Component) : Component :=
  {| cameraPhoto := cameraPhoto s; isDisabled := isDisabled s;
     faceDetected := faceDetected s; faceCentered := faceCentered s;
     faceFrontal := faceFrontal s; faceProperSize := faceProperSize s;
     faceReady := faceReady s; stableFrames := frames;
     countdown := seconds; stopDetectionLoop := stopDetectionLoop s;
     isCapturing := isCapturing s; effects := effects s |}.

Definition handleFaceDetectionResult (result : FaceDetectionResult)
    (s : Component) : Component :=
  if isCapturing s then s
  else
    let s1 :=
      {| cameraPhoto := cameraPhoto s; isDisabled := isDisabled s;
         faceDetected := detected result; faceCentered := centered result;
         faceFrontal := frontal result; faceProperSize := properSize result;
         faceReady := faceReady s; stableFrames := stableFrames s;
         countdown := countdown s; stopDetectionLoop := stopDetectionLoop s;
         isCapturing := isCapturing s; effects := effects s |} in
    if faceReady s1 then
      (* stableFrames++; *)
      let frames := stableFrames s1 + 1 in
      let framesRemaining := (REQUIRED_STABLE_FRAMES - inject_Z frames)%Q in
      let secondsRemaining := Qceiling (framesRemaining / FRAMES_PER_SECOND) in
      let s2 := set_counters frames secondsRemaining s1 in
      if Qle_bool REQUIRED_STABLE_FRAMES (inject_Z (stableFrames s2)) then
        handleTakePhoto (set_counters (stableFrames s2) 0 s2)
      else s2
    else set_counters 0 0 s1.

(** The component's [update] function: the reactive statement. *)
Definition update (s : Component) : Component :=
  {| cameraPhoto := cameraPhoto s; isDisabled := isDisabled s;
     faceDetected := faceDetected s; faceCentered := faceCentered s;
     faceFrontal := faceFrontal s; faceProperSize := faceProperSize s;
     faceReady :=
       faceDetected s && faceCentered s && faceFrontal s && faceProperSize s;
     stableFrames := stableFrames s;
     countdown := countdown s; stopDetectionLoop := stopDetectionLoop s;
     isCapturing := isCapturing s; effects := effects s |}.

(** The component when [initFaceDetection] has started the loop: the camera
    runs ([cameraPhoto] is set, [toggleOffIsDisabled] was called), the
    variables have their initial values and [update] ran at creation. *)
Definition mounted : Component :=
  update
    {| cameraPhoto := true; isDisabled := false;
       faceDetected := false; faceCentered := false;
       faceFrontal := false; faceProperSize := false;
       faceReady := false; stableFrames := 0; countdown := 0;
       stopDetectionLoop := true; isCapturing := false; effects := [] |}.

(** One result delivered by the loop: the handler runs, then the flush that
    its assignments scheduled. *)
Definition deliver (s : Component) (result : FaceDetectionResult) : Component :=
  update (handleFaceDetectionResult result s).

(** The results of a stream, in order. *)
Definition deliver_all (s : Component) (results : list FaceDetectionResult)
  : Component :=
  foldl deliver s results.

(** The handler as the loop's [onResult]: the flag is whether this call
    reached [stopDetectionLoop()]. *)
Definition onResult (result : FaceDetectionResult) (s : Component)
  : Component * bool :=
  let s' := deliver s result in
  (s', bool_decide (StopDetectionLoop ∈ drop (length (effects s)) (effects s'))).

Definition captures (s : Component) : nat := count_occ Effect_eq_dec (effects s) GetDataUri.

End Selfie.

(** ** pages/DocumentPhoto.svelte *)

Module DocumentPhoto.
Import DocumentDetection.

Record Component : Type := {
  cameraPhoto : bool;          (* cameraPhoto !== undefined *)
  isDisabled : bool;           (* $isDisabled *)
  stream : bool;               (* stream !== undefined *)
  documentDetectionResult : DocumentDetectionResult
}.

(** The callback given to [createDocumentDetectionLoop]:
    [result => { documentDetectionResult = result; }] *)
Definition onResult (result : DocumentDetectionResult) (s : Component)
  : Component * bool :=
  ({| cameraPhoto := cameraPhoto s; isDisabled := isDisabled s;
      stream := stream s; documentDetectionResult := result |}, false).

(** The three branches of the [detection-indicator] block. *)
Inductive Indicator : Type :=
| DocumentDetected        (* "Document detected" *)
| MoveCloser              (* "Move closer to document" *)
| PositionDocument.       (* "Position document in frame" *)

Definition detection_indicator (s : Component) : option Indicator :=
  if stream s then
    let r := documentDetectionResult s in
    if detected r && confidence r then Some DocumentDetected
    else if detected r then Some MoveCloser
    else Some PositionDocument
  else None.

(** The [isDisabled] property handed to [CameraButton]. *)
Definition CameraButton_isDisabled (s : Component) : bool :=
  isDisabled s || negb (detected (documentDetectionResult s)).

(** [handleTakePhoto]: whether a click takes the photo. *)
Definition handleTakePhoto_captures (s : Component) : bool :=
  negb (negb (cameraPhoto s) || isDisabled s).

End DocumentPhoto.

(** ** pages/CheckDocument.svelte *)

Module CheckDocument.
Import DocumentDetection.

Record Component : Type := {
  image : string;
  isValidating : bool;
  validationResult : option DocumentDetectionResult;
  pending : list string;       (* validateDocumentImage calls not yet resolved *)
  libLog : list LibCall        (* library calls made for this component *)
}.

Definition created : Component :=
  {| image := EmptyString; isValidating := false; validationResult := None;
     pending := []; libLog := [] |}.

Definition truthy (s : string) : bool :=
  match s with
  | EmptyString => false
  | String _ _ => true
  end.

(** [$: if (image && !validationResult && !isValidating)
       { isValidating = true; validateDocumentImage(image).then(...) }] *)
Definition validate (s : Component) : Component :=
  if truthy (image s)
     && negb (bool_decide (is_Some (validationResult s)))
     && negb (isValidating s)
  then
    {| image := image s; isValidating := true;
       validationResult := validationResult s;
       pending := pending s ++ [image s]; libLog := libLog s |}
  else s.

(** [result => { validationResult = result; isValidating = false; }] *)
Definition then_callback (result : DocumentDetectionResult) (s : Component)
  : Component :=
  {| image := image s; isValidating := false; validationResult := Some result;
     pending := pending s; libLog := libLog s |}.

Inductive Event : Type :=
| SetImage (img : string)       (* the first reactive block assigns [image] *)
| Flush                         (* the reactive statements run again *)
| Resolve (k : nat) (load : ImageLoad) (scan : outcome ScanDocumentResult).
                                (* the k-th pending validation finishes *)

Definition step (s : Component) (e : Event) : option Component :=
  match e with
  | SetImage img =>
      Some (validate {| image := img; isValidating := isValidating s;
                        validationResult := validationResult s;
                        pending := pending s; libLog := libLog s |})
  | Flush => Some (validate s)
  | Resolve k load scan =>
      match pending s !! k with
      | Some img =>
          let call := validateDocumentImage img load scan in
          let s1 :=
            {| image := image s; isValidating := isValidating s;
               validationResult := validationResult s;
               pending := delete k (pending s);
               libLog := libLog s ++ libCalls call |} in
          match settled call with
          | Returns result => Some (validate (then_callback result s1))
          | Throws => Some s1
          end
      | None => None
      end
  end.

Fixpoint run (s : Component) (es : list Event) : option Component :=
  match es with
  | [] => Some s
  | e :: es =>
      match step s e with
      | Some s' => run s' es
      | None => None
      end
  end.

(** Where a component can be between two events: nothing started, one
    validation in flight, or the result stored. *)
Inductive Inv (s : Component) : Prop :=
| Idle :
    pending s = [] -> isValidating s = false -> validationResult s = None ->
    libLog s = [] -> Inv s
| InFlight (img : string) :
    pending s = [img] -> isValidating s = true -> validationResult s = None ->
    libLog s = [] -> Inv s
| Stored (r : DocumentDetectionResult) :
    pending s = [] -> isValidating s = false -> validationResult s = Some r ->
    (detection_passes (libLog s) <= 1)%nat -> Inv s.

(** The branches of the validation-feedback block. *)
Inductive Message : Type :=
| Validating        (* "Checking document..." *)
| Success           (* "Document detected successfully" *)
| Warning           (* "Document may be too small or unclear..." *)
| Failure.          (* "No document detected. Please retake the photo." *)

Definition validation_message (s : Component) : option Message :=
  if isValidating s then Some Validating
  else
    match validationResult s with
    | Some r =>
        if detected r && confidence r then Some Success
        else if detected r then Some Warning
        else Some Failure
    | None => None
    end.

End CheckDocument.

(** ** The two loops of the repository *)

Module Flows.

(** What one call of [detectFace(video)] meets: the module flag, the video
    element and the answer of the face library. *)
Record FaceFrame : Type := {
  modelsLoaded : bool;
  face_video : Video;
  faceapi : outcome (option FaceDetection.Detection)
}.

Definition face_detect (f : FaceFrame) : async FaceDetection.FaceDetectionResult :=
  FaceDetection.detectFace (modelsLoaded f) (face_video f) (faceapi f)
    FaceDetection.centerTolerance_default.

(** What one call of [detectDocument(video)] meets. *)
Record DocumentFrame : Type := {
  document_video : Video;
  scan : outcome DocumentDetection.ScanDocumentResult
}.

Definition document_detect (f : DocumentFrame)
  : async DocumentDetection.DocumentDetectionResult :=
  DocumentDetection.detectDocument
    (DocumentDetection.VideoElement (document_video f)) (scan f).

(** Default intervals of [createFaceDetectionLoop] and
    [createDocumentDetectionLoop]. *)
Definition face_intervalMs_default : Z := 250.
Definition document_intervalMs_default : Z := 500.

(** [createFaceDetectionLoop(video, handleFaceDetectionResult, 250)] in
    [initFaceDetection]; the loop's client is the Selfie component. *)
Definition selfie_create (f : FaceFrame) (t : Z)
  : DetectionLoop.Loop FaceFrame FaceDetection.FaceDetectionResult Selfie.Component :=
  DetectionLoop.create f t Selfie.mounted.

Definition selfie_run :=
  DetectionLoop.run face_detect Selfie.onResult 250.

(** A frame the face detector accepts on every criterion: a 640 x 480
    video, a face box of half the overlay width in the middle of the frame
    and landmarks symmetric about the nose. *)
Definition landmark (i : nat) : Point :=
  match i with
  | 0%nat => {| px := 192; py := 240 |}
  | 16%nat => {| px := 448; py := 240 |}
  | 30%nat => {| px := 320; py := 260 |}
  | 36%nat => {| px := 250; py := 200 |}
  | 39%nat => {| px := 290; py := 200 |}
  | 42%nat => {| px := 350; py := 200 |}
  | 45%nat => {| px := 390; py := 200 |}
  | _ => {| px := 320; py := 240 |}
  end.

Definition good_frame : FaceFrame :=
  {| modelsLoaded := true;
     face_video := {| readyState := 4; videoWidth := 640; videoHeight := 480 |};
     faceapi :=
       Returns (Some {| FaceDetection.detection_box :=
                          {| FaceDetection.x := 192; FaceDetection.y := 112;
                             FaceDetection.width := 256; FaceDetection.height := 256 |};
                        FaceDetection.positions := landmark <$> seq 0 68 |}) |}.

(** What [detectFace] answers on [good_frame]. *)
Definition good_result : FaceDetection.FaceDetectionResult :=
  {| FaceDetection.detected := true; FaceDetection.centered := true;
     FaceDetection.frontal := true; FaceDetection.properSize := true;
     FaceDetection.box :=
       Some {| FaceDetection.x := 192; FaceDetection.y := 112;
               FaceDetection.width := 256; FaceDetection.height := 256 |} |}.

(** A result that meets every criterion, without its box. *)
Definition all_true : FaceDetection.FaceDetectionResult :=
  {| FaceDetection.detected := true; FaceDetection.centered := true;
     FaceDetection.frontal := true; FaceDetection.properSize := true;
     FaceDetection.box := None |}.

(** The same video with the face library throwing. *)
Definition failing_frame : FaceFrame :=
  {| modelsLoaded := true;
     face_video := {| readyState := 4; videoWidth := 640; videoHeight := 480 |};
     faceapi := Throws |}.

(** A document held far from a 1920 x 1080 camera: the scanner finds a
    100 x 100 quadrilateral. *)
Definition far_corners : DocumentDetection.Corners :=
  {| DocumentDetection.topLeft := {| px := 0; py := 0 |};
     DocumentDetection.topRight := {| px := 100; py := 0 |};
     DocumentDetection.bottomRight := {| px := 100; py := 100 |};
     DocumentDetection.bottomLeft := {| px := 0; py := 100 |} |}.

Definition far_frame : DocumentFrame :=
  {| document_video := {| readyState := 4; videoWidth := 1920; videoHeight := 1080 |};
     scan := Returns {| DocumentDetection.success := true;
                        DocumentDetection.scan_corners := Some far_corners |} |}.

Definition far_result : DocumentDetection.DocumentDetectionResult :=
  {| DocumentDetection.detected := true;
     DocumentDetection.corners := Some far_corners;
     DocumentDetection.confidence := false |}.

(** The DocumentPhoto component once the camera runs
    ([toggleOffIsDisabled] was called and [stream] is set). *)
Definition document_mounted : DocumentPhoto.Component :=
  {| DocumentPhoto.cameraPhoto := true; DocumentPhoto.isDisabled := false;
     DocumentPhoto.stream := true;
     DocumentPhoto.documentDetectionResult := DocumentDetection.notDetected |}.

(** The events of a run in which the call in flight at time [t] and the
    calls made on [frames] each take [latency] ms and each timer fires when
    due: the call in flight settles and, for every further frame, the timer
    set after the delivery fires and starts the call on that frame. *)
Fixpoint iterations (frames : list FaceFrame) (latency : Z) (t : Z) (id : nat)
  : list (DetectionLoop.Event FaceFrame) :=
  match frames with
  | [] => [DetectionLoop.Settle 0 (t + latency)]
  | f :: frames =>
      DetectionLoop.Settle 0 (t + latency)
      :: DetectionLoop.Timeout id f (t + latency + 250)
      :: iterations frames latency (t + latency + 250) (S id)
  end.

End Flows.

(** ** The specification's words *)

Module Spec.

(** The composite predicate of each detector kind. *)
Definition composite_face (r : FaceDetection.FaceDetectionResult) : bool :=
  FaceDetection.detected r && FaceDetection.centered r
  && FaceDetection.frontal r && FaceDetection.properSize r.

Definition composite_document (r : DocumentDetection.DocumentDetectionResult) : bool :=
  DocumentDetection.detected r && DocumentDetection.confidence r.

(** The number of leading elements that satisfy [p]. *)
Fixpoint leading {A : Type} (p : A -> bool) (l : list A) : Z :=
  match l with
  | [] => 0
  | a :: l => if p a then 1 + leading p l else 0
  end.

(** The length of the longest suffix all of whose elements satisfy [p]. *)
Definition longest_suffix {A : Type} (p : A -> bool) (l : list A) : Z :=
  leading p (reverse l).

(** The Stability Accumulator of the specification: plus one on a composite
    success, zero otherwise. *)
Definition evaluate (consecutiveSuccesses : Z)
    (r : FaceDetection.FaceDetectionResult) : Z :=
  if composite_face r then consecutiveSuccesses + 1 else 0.

(** The countdown formulas of the specification. *)
Definition requiredSuccesses (stableDurationSeconds intervalMs : Q) : Z :=
  Qceiling (stableDurationSeconds * 1000 / intervalMs).

Definition framesPerSecond (intervalMs : Q) : Q := 1000 / intervalMs.

Definition framesRemaining (requiredSuccesses consecutiveSuccesses : Z) : Z :=
  requiredSuccesses - consecutiveSuccesses.

Definition secondsRemaining (framesRemaining : Z) (framesPerSecond : Q) : Z :=
  Qceiling (inject_Z framesRemaining / framesPerSecond).

(** The tri-state outcome of the specification. *)
Inductive ValidationOutcome : Type :=
| success
| warning
| failure.

(** The width and height of the frame, as [detectDocument] reads them. *)
Definition frameWidth (source : DocumentDetection.Source) : float :=
  match source with
  | DocumentDetection.VideoElement video => videoWidth video
  | DocumentDetection.CanvasElement w _ | DocumentDetection.ImageElement w _ => w
  end.

Definition frameHeight (source : DocumentDetection.Source) : float :=
  match source with
  | DocumentDetection.VideoElement video => videoHeight video
  | DocumentDetection.CanvasElement _ h | DocumentDetection.ImageElement _ h => h
  end.

(** The areas read as real numbers: the larger horizontal extent times the
    larger vertical extent of the quadrilateral, and width times height of
    the frame, without any rounding. *)
Definition documentArea (c : DocumentDetection.Corners) : Q :=
  let open_x a b := Qabs (exact (px a) - exact (px b)) in
  let open_y a b := Qabs (exact (py a) - exact (py b)) in
  Qmax (open_x (DocumentDetection.topRight c) (DocumentDetection.topLeft c))
       (open_x (DocumentDetection.bottomRight c) (DocumentDetection.bottomLeft c))
  * Qmax (open_y (DocumentDetection.bottomLeft c) (DocumentDetection.topLeft c))
         (open_y (DocumentDetection.bottomRight c) (DocumentDetection.topRight c)).

Definition frameArea (source : DocumentDetection.Source) : Q :=
  exact (frameWidth source) * exact (frameHeight source).

(** [m] is the larger of the numbers [a] and [b]: one of the two, not
    below either, and negative (the zero [-0] included) only if both are;
    NaN when either is NaN. *)
Definition larger_of (a b m : float) : Prop :=
  if PrimFloat.is_nan a || PrimFloat.is_nan b then PrimFloat.is_nan m = true
  else (m = a \/ m = b) /\ (a <=? m)%float = true /\ (b <=? m)%float = true
       /\ (PrimFloat.get_sign m = true ->
           PrimFloat.get_sign a = true /\ PrimFloat.get_sign b = true).

(** A source the scanner is run on: anything but a video without a decoded
    frame. *)
Definition scannable (source : DocumentDetection.Source) : bool :=
  match source with
  | DocumentDetection.VideoElement video => readyState video =? 4
  | _ => true
  end.

(** Two callers validating the same still at the same time: both calls are
    made before either is answered. *)
Definition validate_concurrently (base64Image : string)
    (load : DocumentDetection.ImageLoad)
    (scan : outcome DocumentDetection.ScanDocumentResult)
  : async (DocumentDetection.DocumentDetectionResult
           * DocumentDetection.DocumentDetectionResult) :=
  first ← DocumentDetection.validateDocumentImage base64Image load scan;
  second ← DocumentDetection.validateDocumentImage base64Image load scan;
  mret (first, second).

End Spec.

(** ** The quadrilateral of a found document *)

Module Quad.

(** The flag [confidence] of a document with corners [c] found in
    [source], as [detectDocument] computes it. *)
Definition confident (source : DocumentDetection.Source)
    (c : DocumentDetection.Corners) : bool :=
  (0.15 <? js_max (abs (px (DocumentDetection.topRight c)
                        - px (DocumentDetection.topLeft c)))
                  (abs (px (DocumentDetection.bottomRight c)
                        - px (DocumentDetection.bottomLeft c)))
           * js_max (abs (py (DocumentDetection.bottomLeft c)
                          - py (DocumentDetection.topLeft c)))
                    (abs (py (DocumentDetection.bottomRight c)
                          - py (DocumentDetection.topRight c)))
           / (Spec.frameWidth source * Spec.frameHeight source))%float.

(** The point [p'] is the point [p] moved by the vector [(dx, dy)]: the
    coordinates of both are finite and differ by exactly [dx] and [dy]. *)
Definition moved (dx dy : Q) (p p' : Point) : Prop :=
  PrimFloat.is_finite (px p) = true /\ PrimFloat.is_finite (py p) = true
  /\ PrimFloat.is_finite (px p') = true /\ PrimFloat.is_finite (py p') = true
  /\ (exact (px p') == exact (px p) + dx)%Q
  /\ (exact (py p') == exact (py p) + dy)%Q.

End Quad.

(** ** What a settled call handed to its loop *)

Module Delivery.

(** The result of a call whose promise resolved; nothing for a call in
    flight or a rejected one. *)
Definition answered {Input Result : Type} (detect : Input -> async Result)
    (c : DetectionLoop.Call Input) : option Result :=
  match DetectionLoop.settledAt c with
  | Some _ =>
      match settled (detect (DetectionLoop.input c)) with
      | Returns r => Some r
      | Throws => None
      end
  | None => None
  end.

End Delivery.

(** ** pages/Selfie.svelte: the status line and the teardown *)

Module SelfiePage.

(** [$: statusMessage = (() => { ... })()], with [modelsReady] as
    [initFaceDetection] set it.  [countdown.toString()] of an integer is its
    decimal numeral. *)
Definition statusMessage (modelsReady : bool) (s : Selfie.Component) : string :=
  if negb modelsReady then EmptyString
  else if negb (Selfie.faceDetected s) then "Position your face in the circle"
  else if negb (Selfie.faceFrontal s) then "Look straight at the camera"
  else if negb (Selfie.faceProperSize s) then "Move closer or further"
  else if negb (Selfie.faceCentered s) then "Center your face in the circle"
  else if (0 <? Selfie.countdown s)
          && Qlt_bool (inject_Z (Selfie.countdown s)) Selfie.COUNTDOWN_SECONDS
       then pretty (Selfie.countdown s)
       else "Hold still...".

(** Everything [handleTakePhoto] does when it takes the photo, in order. *)
Definition full_capture : list Selfie.Effect :=
  [Selfie.Set_isCapturing; Selfie.StopDetectionLoop; Selfie.GetDataUri;
   Selfie.GoToNextStep; Selfie.ToggleOnIsDisabled].

(** What holds of the component between two results: it is either still
    counting, with nothing done yet, or it has taken the photo. *)
Definition page_ok (s : Selfie.Component) : Prop :=
  Selfie.cameraPhoto s = true
  /\ Selfie.faceReady s
     = Selfie.faceDetected s && Selfie.faceCentered s
       && Selfie.faceFrontal s && Selfie.faceProperSize s
  /\ 0 <= Selfie.countdown s <= 5
  /\ ((Selfie.isCapturing s = false /\ Selfie.effects s = []
       /\ 0 <= Selfie.stableFrames s < 20
       /\ Selfie.stopDetectionLoop s = true /\ Selfie.isDisabled s = false)
      \/ (Selfie.isCapturing s = true /\ Selfie.effects s = full_capture
          /\ Selfie.stableFrames s = 20 /\ Selfie.countdown s = 0
          /\ Selfie.stopDetectionLoop s = false /\ Selfie.isDisabled s = true)).

(** What [onDestroy] does. *)
Inductive Teardown : Type :=
| StopCamera            (* cameraPhoto?.stopCamera() *)
| CallCleanup.          (* stopDetectionLoop() *)

#[global] Instance Teardown_eq_dec : EqDecision Teardown.
Proof. solve_decision. Defined.

Definition onDestroy (s : Selfie.Component) : list Teardown :=
  (if Selfie.cameraPhoto s then [StopCamera] else [])
  ++ (if Selfie.stopDetectionLoop s then [CallCleanup] else []).

(** How often the cleanup function of the loop is called over the life of a
    page that ends in state [s]. *)
Definition cleanup_calls (s : Selfie.Component) : nat :=
  count_occ Selfie.Effect_eq_dec (Selfie.effects s) Selfie.StopDetectionLoop
  + count_occ Teardown_eq_dec (onDestroy s) CallCleanup.

End SelfiePage.

(** ** services/face-detection: [loadFaceDetectionModels]

    The module-level flags [modelsLoaded] and [modelsLoading], the callers
    that await the [Promise.all([...])] they started, the callers that poll
    the flags every 100 ms ([setInterval]) and the answers given so far.  A
    caller is a number chosen by whoever calls.  The two network requests
    behind a [Promise.all] are not part of the state: [Promise.all] rejects
    as soon as one of them fails, so that a request of a failed attempt can
    still be in flight when the next attempt starts. *)

Module FaceModels.

Record State : Type := {
  modelsLoaded : bool;
  modelsLoading : bool;
  awaiting : list nat;             (* callers awaiting their Promise.all *)
  polling : list nat;              (* callers with a running setInterval *)
  answers : list (nat * bool);     (* resolved promises, newest first *)
  downloads : nat                  (* how often Promise.all([...]) was started *)
}.

Definition initial : State :=
  {| modelsLoaded := false; modelsLoading := false; awaiting := [];
     polling := []; answers := []; downloads := 0 |}.

(** [areModelsLoaded()] *)
Definition areModelsLoaded (s : State) : bool := modelsLoaded s.

(** [loadFaceDetectionModels()] up to its first suspension. *)
Definition loadFaceDetectionModels (caller : nat) (s : State) : State :=
  if modelsLoaded s then
    (* return true *)
    {| modelsLoaded := modelsLoaded s; modelsLoading := modelsLoading s;
       awaiting := awaiting s; polling := polling s;
       answers := (caller, true) :: answers s; downloads := downloads s |}
  else if modelsLoading s then
    (* return new Promise(... setInterval(..., 100) ...) *)
    {| modelsLoaded := modelsLoaded s; modelsLoading := modelsLoading s;
       awaiting := awaiting s; polling := polling s ++ [caller];
       answers := answers s; downloads := downloads s |}
  else
    (* modelsLoading = true; await Promise.all([...]) *)
    {| modelsLoaded := modelsLoaded s; modelsLoading := true;
       awaiting := awaiting s ++ [caller]; polling := polling s;
       answers := answers s; downloads := S (downloads s) |}.

(** The rest of [loadFaceDetectionModels] once [Promise.all] settled:
    [try { ...; modelsLoaded = true; return true }
     catch { modelsLoaded = false; return false }
     finally { modelsLoading = false }]. *)
Definition promise_all_settled (k : nat) (ok : bool) (s : State) : option State :=
  match awaiting s !! k with
  | Some caller =>
      Some {| modelsLoaded := ok; modelsLoading := false;
              awaiting := delete k (awaiting s); polling := polling s;
              answers := (caller, ok) :: answers s; downloads := downloads s |}
  | None => None
  end.

(** One firing of the interval of the [k]-th polling caller:
    [if (modelsLoaded || !modelsLoading)
       { clearInterval(checkInterval); resolve(modelsLoaded); }]. *)
Definition checkInterval (k : nat) (s : State) : option State :=
  match polling s !! k with
  | Some caller =>
      if modelsLoaded s || negb (modelsLoading s) then
        Some {| modelsLoaded := modelsLoaded s; modelsLoading := modelsLoading s;
                awaiting := awaiting s; polling := delete k (polling s);
                answers := (caller, modelsLoaded s) :: answers s;
                downloads := downloads s |}
      else Some s
  | None => None
  end.

Inductive Event : Type :=
| Call (caller : nat)                 (* someone calls loadFaceDetectionModels() *)
| PromiseAll (k : nat) (ok : bool)      (* a Promise.all resolves (ok) or rejects *)
| Interval (k : nat).                 (* the interval of a polling caller fires *)

Definition step (s : State) (e : Event) : option State :=
  match e with
  | Call caller => Some (loadFaceDetectionModels caller s)
  | PromiseAll k ok => promise_all_settled k ok s
  | Interval k => checkInterval k s
  end.

Fixpoint run (s : State) (es : list Event) : option State :=
  match es with
  | [] => Some s
  | e :: es =>
      match step s e with
      | Some s' => run s' es
      | None => None
      end
  end.

(** The answers [false] given so far. *)
Definition refusals (s : State) : nat :=
  length (List.filter (fun a => negb (snd a)) (answers s)).

(** What holds of the flags between two events. *)
Definition Inv (s : State) : Prop :=
  (modelsLoading s = true -> modelsLoaded s = false /\ length (awaiting s) = 1%nat)
  /\ (modelsLoading s = false -> awaiting s = [])
  /\ (forall caller, (caller, true) ∈ answers s -> modelsLoaded s = true)
  /\ (downloads s <= refusals s + length (awaiting s)
                    + (if modelsLoaded s then 1 else 0))%nat.

End FaceModels.

(** ** pages/DocumentPhoto.svelte: the documents store and [handleTakePhoto] *)

Module Documents.

Record DocumentPage : Type := { side : string; base64 : string }.

Record IDocument : Type := {
  type : string;
  pages : list DocumentPage;
  metadata : list (string * string);
  kind : option string
}.

(** [Object.keys(options).find(key => key === type)], and whether what it
    returns is truthy: a key that was found and is not the empty string. *)
Definition find_key (options : list string) (type : string) : option string :=
  List.find (String.eqb type) options.

Definition found (k : option string) : bool :=
  match k with
  | Some key => CheckDocument.truthy key
  | None => false
  end.

(** [options] are the keys of [documentOptionsConfiguration.options],
    [documents] is [$documents]. *)
Definition clearDocs (options : list string) (documents : list IDocument)
    (type_ : string) : list IDocument :=
  let isFromOptions := find_key options type_ in
  if found isFromOptions then
    List.filter (fun d => negb (found (find_key options (type d)))) documents
  else
    List.filter (fun d => negb (String.eqb type_ (type d))) documents.

Definition addDocument (options : list string) (documents : list IDocument)
    (type_ : string) (base64_ : string) (document : IDocument) : list IDocument :=
  let clearedDocuments := clearDocs options documents type_ in
  clearedDocuments
  ++ [{| type := type document;
         pages := [{| side := "front"; base64 := base64_ |}];
         metadata := metadata document; kind := kind document |}].

Inductive Navigation : Type :=
| GoToNextStep
| GoToPrevStep.

(** The page: the component of the detection flow, the document type of the
    step ([undefined] or a string), the selected kind, the store and where
    the page went. *)
Record Page : Type := {
  component : DocumentPhoto.Component;
  documentType : option string;
  selectedKind : option string;
  documents : list IDocument;
  navigation : list Navigation
}.

(** [handleTakePhoto], with [base64_] what [cameraPhoto.getDataUri] returns. *)
Definition handleTakePhoto (options : list string) (base64_ : string) (p : Page)
  : Page :=
  let c := component p in
  if negb (DocumentPhoto.cameraPhoto c) || DocumentPhoto.isDisabled c then p
  else
    (* toggleOnIsDisabled(); *)
    let c' :=
      {| DocumentPhoto.cameraPhoto := DocumentPhoto.cameraPhoto c;
         DocumentPhoto.isDisabled := true;
         DocumentPhoto.stream := DocumentPhoto.stream c;
         DocumentPhoto.documentDetectionResult :=
           DocumentPhoto.documentDetectionResult c |} in
    match documentType p with
    | Some t =>
        if CheckDocument.truthy t then
          let document :=
            {| type := t; pages := []; metadata := []; kind := selectedKind p |} in
          {| component := c'; documentType := documentType p;
             selectedKind := selectedKind p;
             documents := addDocument options (documents p) (type document) base64_ document;
             navigation := navigation p ++ [GoToNextStep] |}
        else
          {| component := c'; documentType := documentType p;
             selectedKind := selectedKind p; documents := documents p;
             navigation := navigation p ++ [GoToPrevStep] |}
    | None =>
        {| component := c'; documentType := documentType p;
           selectedKind := selectedKind p; documents := documents p;
           navigation := navigation p ++ [GoToPrevStep] |}
    end.

(** One visit of the page: the page is mounted on the store as it is, with
    the camera running, for the given document type and kind, and the photo
    [base64_] is taken. *)
Definition visit (options : list string) (docs : list IDocument)
    (shot : option string * option string * string) : list IDocument :=
  documents
    (handleTakePhoto options (snd shot)
       {| component := Flows.document_mounted; documentType := fst (fst shot);
          selectedKind := snd (fst shot); documents := docs; navigation := [] |}).

(** The store after a series of visits, from the empty store. *)
Definition photographed (options : list string)
    (shots : list (option string * option string * string)) : list IDocument :=
  foldl (visit options) [] shots.

(** A document of the configured options. *)
Definition from_options (options : list string) (d : IDocument) : bool :=
  found (find_key options (type d)).

End Documents.

(** ** [resolveStringTemplate] (utility module)

    A JavaScript string is its sequence of UTF-16 code units.  The object is
    known by the number of its own enumerable keys and by the text its
    properties turn into when the replacer returns them ([String(obj[g])],
    which is "undefined" for a key that is missing). *)

Module Template.

Definition jsstring : Type := list N.

Definition dollar : N := 36.
Definition open_brace : N := 123.
Definition close_brace : N := 125.

(** The code units that [.] does not match: LF, CR, U+2028 and U+2029. *)
Definition line_terminator (u : N) : bool :=
  (u =? 10)%N || (u =? 13)%N || (u =? 8232)%N || (u =? 8233)%N.

Record StringKV : Type := {
  own_keys : nat;
  property : jsstring -> jsstring
}.

(** [obj !== null && typeof obj === 'object' && Object.keys(obj).length === 0] *)
Definition isEmptyObject (obj : StringKV) : bool := (own_keys obj =? 0)%nat.

(** [str.replace(/\${(.*?)}/g, (x, g) => obj[g])], as the scan it performs:
    [replace] looks for the next "${"; [capture] has seen one and collects the
    group up to the first "}" (the group is lazy), giving the match up as
    literal text when a line terminator or the end of the string comes
    first. *)
Fixpoint replace (get : jsstring -> jsstring) (str : jsstring) : jsstring :=
  match str with
  | [] => []
  | u :: rest =>
      match rest with
      | v :: rest' =>
          if (u =? dollar)%N && (v =? open_brace)%N
          then capture get [] rest'
          else u :: replace get rest
      | [] => [u]
      end
  end
with capture (get : jsstring -> jsstring) (group : jsstring) (str : jsstring)
  : jsstring :=
  match str with
  | [] => dollar :: open_brace :: group
  | u :: rest =>
      if (u =? close_brace)%N then get group ++ replace get rest
      else if line_terminator u
           then dollar :: open_brace :: group ++ u :: replace get rest
           else capture get (group ++ [u]) rest
  end.

Definition resolveStringTemplate (str : jsstring) (obj : option StringKV)
  : jsstring :=
  match obj with
  | None => str
  | Some o => if isEmptyObject o then str else replace (property o) str
  end.

(** Whether "${" occurs in a string. *)
Fixpoint opens (str : jsstring) : bool :=
  match str with
  | [] => false
  | u :: rest =>
      match rest with
      | v :: _ => ((u =? dollar)%N && (v =? open_brace)%N) || opens rest
      | [] => false
      end
  end.

(** The code units of an ASCII text. *)
Definition units (s : string) : jsstring :=
  (fun a => N.of_nat (Ascii.nat_of_ascii a)) <$> String.list_ascii_of_string s.

End Template.

(** ** Inputs on which the theorems below are exercised *)

Module Samples.

(** A document as wide as the double nearest to 1908.2208588957055 and
    163 high, in the top left corner. *)
Definition boundary_corners : DocumentDetection.Corners :=
  {| DocumentDetection.topLeft := {| px := 0; py := 0 |};
     DocumentDetection.topRight := {| px := 1908.2208588957055; py := 0 |};
     DocumentDetection.bottomRight := {| px := 1908.2208588957055; py := 163 |};
     DocumentDetection.bottomLeft := {| px := 0; py := 163 |} |}.

(** What the face library returns on [Flows.good_frame]. *)
Definition good_detection : FaceDetection.Detection :=
  {| FaceDetection.detection_box :=
       {| FaceDetection.x := 192; FaceDetection.y := 112;
          FaceDetection.width := 256; FaceDetection.height := 256 |};
     FaceDetection.positions := Flows.landmark <$> seq 0 68 |}.

Definition good_video : Video :=
  {| readyState := 4; videoWidth := 640; videoHeight := 480 |}.

(** A detection whose box has no width. *)
Definition nan_detection : FaceDetection.Detection :=
  {| FaceDetection.detection_box :=
       {| FaceDetection.x := 192; FaceDetection.y := 112;
          FaceDetection.width := nan; FaceDetection.height := 256 |};
     FaceDetection.positions := Flows.landmark <$> seq 0 68 |}.

(** A video element whose metadata is not known yet. *)
Definition empty_video : Video :=
  {| readyState := 4; videoWidth := 0; videoHeight := 0 |}.

(** Forty-six landmarks with the abscissas of [Flows.landmark] at the
    positions 0, 16, 30, 36, 39, 42 and 45, and anything else elsewhere. *)
Definition other_landmark (i : nat) : Point :=
  match i with
  | 0%nat | 16%nat | 30%nat | 36%nat | 39%nat | 42%nat | 45%nat =>
      {| px := px (Flows.landmark i); py := -1 |}
  | _ => {| px := 7; py := infinity |}
  end.

Definition other_landmarks : list Point := other_landmark <$> seq 0 46.

(** [Flows.far_corners] moved by (700, 300). *)
Definition moved_corners : DocumentDetection.Corners :=
  {| DocumentDetection.topLeft := {| px := 0 + 700; py := 0 + 300 |};
     DocumentDetection.topRight := {| px := 100 + 700; py := 0 + 300 |};
     DocumentDetection.bottomRight := {| px := 100 + 700; py := 100 + 300 |};
     DocumentDetection.bottomLeft := {| px := 0 + 700; py := 100 + 300 |} |}.

(** Two callers ask for the models while nothing is loaded, the download
    succeeds and the interval of the second caller fires. *)
Definition two_callers : list FaceModels.Event :=
  [FaceModels.Call 1; FaceModels.Call 2; FaceModels.PromiseAll 0 true;
   FaceModels.Interval 0].

(** The object [{ name: "World" }]: one key; any other property is
    undefined. *)
Definition greeting : Template.StringKV :=
  {| Template.own_keys := 1;
     Template.property := fun key =>
       if bool_decide (key = Template.units "name") then Template.units "World"
       else Template.units "undefined" |}.

End Samples.

(** * Facts *)

(** ** Numbers and services *)

Section NumberFacts.
Lemma Qlt_bool_iff (a b : Q) : Qlt_bool a b = true <-> (a < b)%Q.
Proof.
  unfold Qlt_bool. rewrite negb_true_iff. split.
  - intros H. apply Qnot_le_lt. intros Hle. apply Qle_bool_iff in Hle. congruence.
  - intros H. destruct (Qle_bool b a) eqn:E; [|reflexivity].
    apply Qle_bool_iff in E. exfalso. exact (Qlt_not_le _ _ H E).
Qed.

End NumberFacts.

(** ** Doubles *)

Section FloatFacts.

Lemma SFcompare_refl (x : spec_float) :
  x <> S754_nan -> SFcompare x x = Some Eq.
Proof.
  destruct x as [s|s| |s m e]; intros H; try congruence; simpl.
  - reflexivity.
  - destruct s; reflexivity.
  - rewrite Z.compare_refl.
    change (PosDef.Pos.compare_cont Eq m m) with (Pos.compare m m).
    rewrite Pos.compare_refl. destruct s; reflexivity.
Qed.

Lemma SFcompare_antisym (x y : spec_float) :
  SFcompare y x = option_map CompOpp (SFcompare x y).
Proof.
  destruct x as [s|s| |s m e], y as [s'|s'| |s' m' e']; simpl;
    try reflexivity; try (destruct s; reflexivity); try (destruct s'; reflexivity);
    try (destruct s, s'; reflexivity).
  change (PosDef.Pos.compare_cont Eq m' m) with (Pos.compare m' m).
  change (PosDef.Pos.compare_cont Eq m m') with (Pos.compare m m').
  rewrite (Z.compare_antisym e e'), (Pos.compare_antisym m m').
  destruct s, s'; try reflexivity;
    destruct (e ?= e'); simpl; try reflexivity;
    destruct (m ?= m')%positive; reflexivity.
Qed.

Lemma is_nan_spec (a : float) :
  PrimFloat.is_nan a = true <-> Prim2SF a = S754_nan.
Proof.
  unfold PrimFloat.is_nan. rewrite FloatAxioms.eqb_spec. unfold SFeqb. split.
  - intros H. destruct (Prim2SF a) as [s|s| |s m e] eqn:E; [| |reflexivity|].
    + pose proof (SFcompare_refl (S754_zero s) ltac:(discriminate)) as R.
      rewrite R in H. discriminate.
    + pose proof (SFcompare_refl (S754_infinity s) ltac:(discriminate)) as R.
      rewrite R in H. discriminate.
    + pose proof (SFcompare_refl (S754_finite s m e) ltac:(discriminate)) as R.
      rewrite R in H. discriminate.
  - intros ->. reflexivity.
Qed.

Lemma is_nan_false (a : float) :
  PrimFloat.is_nan a = false <-> Prim2SF a <> S754_nan.
Proof.
  rewrite <- is_nan_spec. destruct (PrimFloat.is_nan a); split; congruence.
Qed.

Lemma is_finite_number (a : float) :
  PrimFloat.is_finite a = true -> Binary64.is_number (Prim2SF a) = true.
Proof.
  unfold PrimFloat.is_finite, PrimFloat.is_nan, PrimFloat.is_infinity.
  rewrite !FloatAxioms.eqb_spec, FloatAxioms.abs_spec.
  change (Prim2SF infinity) with (S754_infinity false).
  destruct (Prim2SF a) as [s|s| |s m e]; try reflexivity; simpl; intros H;
    try discriminate; destruct s; discriminate.
Qed.

Lemma leb_refl (a : float) : PrimFloat.is_nan a = false -> (a <=? a)%float = true.
Proof.
  intros H. apply is_nan_false in H. rewrite FloatAxioms.leb_spec. unfold SFleb.
  rewrite (SFcompare_refl _ H). reflexivity.
Qed.

(** The sign bit of a number. *)
Lemma get_sign_spec (a : float) : PrimFloat.get_sign a = Binary64.sign (Prim2SF a).
Proof.
  unfold PrimFloat.get_sign, PrimFloat.is_zero.
  rewrite FloatAxioms.eqb_spec. change (Prim2SF zero) with (S754_zero false).
  destruct (Prim2SF a) as [s|s| |s m e] eqn:E; unfold SFeqb; simpl.
  - rewrite FloatAxioms.ltb_spec, FloatAxioms.div_spec, E.
    change (Prim2SF zero) with (S754_zero false).
    change (Prim2SF one) with (S754_finite false 4503599627370496 (-52)).
    destruct s; reflexivity.
  - destruct s; rewrite FloatAxioms.ltb_spec, E; reflexivity.
  - rewrite FloatAxioms.ltb_spec, E. reflexivity.
  - destruct s; rewrite FloatAxioms.ltb_spec, E; reflexivity.
Qed.

Lemma SFcompare_Lt_sign (x y : spec_float) :
  SFcompare x y = Some Lt -> Binary64.sign y = true -> Binary64.sign x = true.
Proof.
  destruct x as [s|s| |s m e], y as [s'|s'| |s' m' e']; simpl; try discriminate;
    intros H ->; try (destruct s; simpl in H; congruence); try congruence.
Qed.

(** [Math.max] returns the larger of its arguments. *)
Lemma js_max_is_larger (a b : float) : Spec.larger_of a b (js_max a b).
Proof.
  unfold Spec.larger_of, js_max. rewrite FloatAxioms.compare_spec.
  destruct (PrimFloat.is_nan a) eqn:Ha.
  { apply is_nan_spec in Ha. rewrite Ha. reflexivity. }
  destruct (PrimFloat.is_nan b) eqn:Hb.
  { apply is_nan_spec in Hb. rewrite Hb.
    destruct (Prim2SF a); reflexivity. }
  simpl orb. cbv iota.
  pose proof (leb_refl a Ha) as Raa. pose proof (leb_refl b Hb) as Rbb.
  pose proof (SFcompare_antisym (Prim2SF a) (Prim2SF b)) as Hanti.
  assert (Hab : (a <=? b)%float = match SFcompare (Prim2SF a) (Prim2SF b) with
                                   | Some (Lt | Eq) => true | _ => false end)
    by (rewrite FloatAxioms.leb_spec; reflexivity).
  assert (Hba : (b <=? a)%float = match SFcompare (Prim2SF b) (Prim2SF a) with
                                   | Some (Lt | Eq) => true | _ => false end)
    by (rewrite FloatAxioms.leb_spec; reflexivity).
  rewrite !get_sign_spec.
  assert (Hz : PrimFloat.is_zero a = match Prim2SF a with S754_zero _ => true | _ => false end).
  { unfold PrimFloat.is_zero. rewrite FloatAxioms.eqb_spec.
    change (Prim2SF zero) with (S754_zero false).
    destruct (Prim2SF a) as [s|s| |s m e]; try reflexivity; destruct s; reflexivity. }
  apply is_nan_false in Ha, Hb.
  destruct (SFcompare (Prim2SF a) (Prim2SF b)) as [[| |]|] eqn:E; simpl.
  - rewrite Hanti in Hba. simpl in Hba. rewrite Hz.
    assert (Hsame : match Prim2SF a with S754_zero _ => False | _ => True end ->
                    Binary64.sign (Prim2SF b) = Binary64.sign (Prim2SF a)).
    { destruct (Prim2SF a) as [s|s| |s m e], (Prim2SF b) as [s'|s'| |s' m' e'];
        simpl in *; try tauto; try congruence;
        destruct s, s'; simpl in *; try congruence;
        destruct (e ?= e'); congruence. }
    destruct (Prim2SF a) as [s|s| |s m e] eqn:Ea; [| |congruence|].
    + destruct s; simpl.
      * repeat split; auto.
      * rewrite Ea. simpl. repeat split; auto; discriminate.
    + simpl. rewrite Ea. simpl. rewrite (Hsame I). repeat split; auto.
    + simpl. rewrite Ea. simpl. rewrite (Hsame I). repeat split; auto.
  - repeat split; auto.
    eapply SFcompare_Lt_sign; eauto.
  - rewrite Hanti in Hba. simpl in Hba. repeat split; auto.
    eapply SFcompare_Lt_sign; [|eassumption]. rewrite Hanti. reflexivity.
  - exfalso. destruct (Prim2SF a), (Prim2SF b); simpl in E; congruence.
Qed.

(** Division by [+0]. *)
Lemma div_zero_cases (a : float) :
  Prim2SF (a / 0)%float = S754_nan
  \/ Prim2SF (a / 0)%float = S754_infinity false
  \/ Prim2SF (a / 0)%float = S754_infinity true.
Proof.
  rewrite FloatAxioms.div_spec. change (Prim2SF 0) with (S754_zero false).
  destruct (Prim2SF a) as [s|s| |s m e]; simpl; auto; destruct s; auto.
Qed.

Lemma abs_div_zero_cases (a : float) :
  Prim2SF (abs a / 0)%float = S754_nan
  \/ Prim2SF (abs a / 0)%float = S754_infinity false.
Proof.
  rewrite FloatAxioms.div_spec, FloatAxioms.abs_spec. change (Prim2SF 0) with (S754_zero false).
  destruct (Prim2SF a) as [s|s| |s m e]; simpl; auto.
Qed.

Lemma abs_div_zero_ltb (a t : float) : (abs a / 0 <? t)%float = false.
Proof.
  rewrite FloatAxioms.ltb_spec. unfold SFltb.
  destruct (abs_div_zero_cases a) as [-> | ->]; [reflexivity|].
  destruct (Prim2SF t) as [s|s| |s m e]; simpl; try reflexivity; destruct s; reflexivity.
Qed.


Lemma div_zero_not_between (a lo hi : float) :
  PrimFloat.is_finite lo = true -> PrimFloat.is_finite hi = true ->
  ((lo <=? a / 0)%float && (a / 0 <=? hi)%float) = false.
Proof.
  intros Hlo Hhi. apply is_finite_number in Hlo, Hhi.
  rewrite !FloatAxioms.leb_spec. unfold SFleb.
  destruct (div_zero_cases a) as [-> | [-> | ->]].
  - destruct (Prim2SF lo); reflexivity.
  - destruct (Prim2SF hi) as [s|s| |s m e]; try discriminate;
      destruct (SFcompare (Prim2SF lo) (S754_infinity false)) as [[| |]|]; reflexivity.
  - destruct (Prim2SF lo) as [s|s| |s m e]; try discriminate; reflexivity.
Qed.

(** *** Rounding depends on the value only *)

Lemma iter_pos_iter {A : Type} (f : A -> A) (p : positive) (x : A) :
  SpecFloat.iter_pos f p x = Pos.iter f x p.
Proof.
  revert x. induction p as [p IH|p IH|]; intros x; simpl.
  - rewrite !IH, !Pos.iter_swap. reflexivity.
  - rewrite !IH. reflexivity.
  - reflexivity.
Qed.

Lemma digits_iter_xO (m d : positive) :
  digits2_pos (Pos.iter xO m d) = (digits2_pos m + d)%positive.
Proof.
  induction d as [|d IH] using Pos.peano_ind.
  - simpl. rewrite Pos.add_1_r. reflexivity.
  - rewrite Pos.iter_succ. simpl. rewrite IH, Pos.add_succ_r. reflexivity.
Qed.

Lemma mul_pow2_iter_xO (m d : positive) :
  Z.pos (Pos.iter xO m d) = Z.pos m * 2 ^ Z.pos d.
Proof.
  induction d as [|d IH] using Pos.peano_ind.
  - simpl. lia.
  - rewrite Pos.iter_succ, Pos2Z.inj_succ, Z.pow_succ_r by lia.
    rewrite Pos2Z.inj_xO, IH. ring.
Qed.

Lemma shr_iter_xO (m d : positive) :
  Pos.iter shr_1 {| shr_m := Z.pos (Pos.iter xO m d); shr_r := false; shr_s := false |} d
  = {| shr_m := Z.pos m; shr_r := false; shr_s := false |}.
Proof.
  induction d as [|d IH] using Pos.peano_ind.
  - reflexivity.
  - rewrite Pos.iter_succ_r, Pos.iter_succ. simpl. exact IH.
Qed.

Lemma binary_round_aux_shr (s : bool) (m1 e1 m2 e2 : Z) :
  shr_fexp prec emax m1 e1 loc_Exact = shr_fexp prec emax m2 e2 loc_Exact ->
  binary_round_aux prec emax s m1 e1 loc_Exact
  = binary_round_aux prec emax s m2 e2 loc_Exact.
Proof. intros H. unfold binary_round_aux. rewrite H. reflexivity. Qed.

Lemma binary_round_shift (s : bool) (m : positive) (e : Z) (j : positive) :
  binary_round prec emax s (Pos.iter xO m j) (e - Z.pos j)
  = binary_round prec emax s m e.
Proof.
  unfold binary_round. rewrite digits_iter_xO.
  replace (Z.pos (digits2_pos m + j) + (e - Z.pos j)) with (Z.pos (digits2_pos m) + e)
    by lia.
  set (f := fexp prec emax (Z.pos (digits2_pos m) + e)).
  assert (Hf : forall q ex, Z.pos (digits2_pos q) + ex = Z.pos (digits2_pos m) + e ->
            shr_fexp prec emax (Z.pos q) ex loc_Exact
            = shr {| shr_m := Z.pos q; shr_r := false; shr_s := false |} ex (f - ex)).
  { intros q ex H. unfold shr_fexp. simpl Zdigits2. rewrite H. reflexivity. }
  unfold shl_align.
  destruct (f - e) as [|p|p] eqn:E1; destruct (f - (e - Z.pos j)) as [|p'|p'] eqn:E2;
    try lia; apply binary_round_aux_shr.
  - (* f = e *)
    rewrite (Hf m e eq_refl), (Hf (Pos.iter xO m j) (e - Z.pos j))
      by (rewrite digits_iter_xO; lia).
    rewrite E1, E2. unfold shr. rewrite iter_pos_iter.
    assert (p' = j) by lia. subst p'. rewrite shr_iter_xO. f_equal. lia.
  - (* f > e *)
    rewrite (Hf m e eq_refl), (Hf (Pos.iter xO m j) (e - Z.pos j))
      by (rewrite digits_iter_xO; lia).
    rewrite E1, E2. unfold shr. rewrite !iter_pos_iter.
    assert (p' = (p + j)%positive) by lia. subst p'.
    rewrite Pos.iter_add, shr_iter_xO. f_equal. lia.
  - (* e - j = f < e *)
    rewrite (Hf (Pos.iter xO m p) f), (Hf (Pos.iter xO m j) (e - Z.pos j))
      by (rewrite digits_iter_xO; lia).
    rewrite E2, Z.sub_diag. unfold shr.
    assert (p = j) by lia. subst p. f_equal. lia.
  - (* e - j < f < e *)
    rewrite (Hf (Pos.iter xO m p) f), (Hf (Pos.iter xO m j) (e - Z.pos j))
      by (rewrite digits_iter_xO; lia).
    rewrite E2, Z.sub_diag. unfold shr. rewrite iter_pos_iter.
    assert (j = (p' + p)%positive) by lia. subst j.
    rewrite (Pos.iter_add p' p _ xO m), shr_iter_xO. f_equal. lia.
  - (* f < e - j *)
    assert (p = (p' + j)%positive) by lia. subst p.
    rewrite (Pos.iter_add p' j _ xO m). reflexivity.
Qed.

Lemma binary_round_valid (s : bool) (m : positive) (e : Z) :
  bounded prec emax m e = true ->
  binary_round prec emax s m e = S754_finite s m e.
Proof.
  unfold bounded, canonical_mantissa. intros H.
  apply andb_true_iff in H. destruct H as [Hc He]. apply Z.eqb_eq in Hc.
  unfold binary_round, shl_align. rewrite Hc, Z.sub_diag.
  unfold binary_round_aux, shr_fexp. simpl Zdigits2. rewrite Hc, Z.sub_diag.
  unfold shr. simpl. rewrite Hc, Z.sub_diag. simpl.
  change (1024 - 53) with (emax - prec). rewrite He. reflexivity.
Qed.

Lemma valid_emin (s : bool) (m : positive) (e : Z) :
  bounded prec emax m e = true -> Binary64.emin <= e.
Proof.
  unfold bounded, canonical_mantissa. intros H.
  apply andb_true_iff in H. destruct H as [Hc _]. apply Z.eqb_eq in Hc.
  unfold fexp, SpecFloat.emin in Hc. unfold Binary64.emin.
  change (3 - emax - prec) with (-1074) in Hc. lia.
Qed.

Lemma normalize_shift (n e k : Z) :
  0 <= k ->
  binary_normalize prec emax (n * 2 ^ k) (e - k) false
  = binary_normalize prec emax n e false.
Proof.
  intros Hk. destruct k as [|j|j]; [|clear Hk|lia].
  - rewrite Z.pow_0_r, Z.mul_1_r, Z.sub_0_r. reflexivity.
  - destruct n as [|p|p].
    + reflexivity.
    + rewrite <- mul_pow2_iter_xO. simpl. apply binary_round_shift.
    + change (Z.neg p) with (- Z.pos p). rewrite Z.mul_opp_l, <- mul_pow2_iter_xO.
      simpl. apply binary_round_shift.
Qed.

Lemma round_scaled (s : bool) (m : positive) (e : Z) :
  bounded prec emax m e = true ->
  Binary64.round (Binary64.scaled (S754_finite s m e)) = S754_finite s m e.
Proof.
  intros H. pose proof (valid_emin s m e H) as He.
  unfold Binary64.round, Binary64.scaled.
  replace Binary64.emin with (e - (e - Binary64.emin)) at 2 by lia.
  rewrite normalize_shift by lia.
  destruct s; simpl; apply binary_round_valid; exact H.
Qed.

Lemma shl_align_min (m : positive) (e ez : Z) :
  ez <= e -> Z.pos (fst (shl_align m e ez)) = Z.pos m * 2 ^ (e - ez).
Proof.
  intros H. unfold shl_align.
  destruct (ez - e) as [|p|p] eqn:E; try lia.
  - replace (e - ez) with 0 by lia. simpl. lia.
  - simpl. rewrite mul_pow2_iter_xO. f_equal. f_equal. lia.
Qed.

Lemma sub_round (x y : spec_float) :
  valid_binary x = true -> valid_binary y = true ->
  Binary64.is_number x = true -> Binary64.is_number y = true ->
  SFabs (SF64sub x y)
  = SFabs (Binary64.round (Binary64.scaled x - Binary64.scaled y)).
Proof.
  intros Vx Vy Nx Ny.
  destruct x as [sx|sx| |sx mx ex], y as [sy|sy| |sy my ey]; try discriminate.
  - destruct sx, sy; reflexivity.
  - change (SF64sub (S754_zero sx) (S754_finite sy my ey))
      with (S754_finite (negb sy) my ey).
    replace (Binary64.scaled (S754_zero sx) - Binary64.scaled (S754_finite sy my ey))
      with (Binary64.scaled (S754_finite (negb sy) my ey))
      by (unfold Binary64.scaled; destruct sy; simpl cond_Zopp; lia).
    rewrite round_scaled by exact Vy. reflexivity.
  - change (SF64sub (S754_finite sx mx ex) (S754_zero sy))
      with (S754_finite sx mx ex).
    replace (Binary64.scaled (S754_finite sx mx ex) - Binary64.scaled (S754_zero sy))
      with (Binary64.scaled (S754_finite sx mx ex))
      by (unfold Binary64.scaled; lia).
    rewrite round_scaled by exact Vx. reflexivity.
  - pose proof (valid_emin sx mx ex Vx) as Hx.
    pose proof (valid_emin sy my ey Vy) as Hy.
    unfold SF64sub, SFsub. cbv zeta.
    rewrite (shl_align_min mx ex (Z.min ex ey)) by lia.
    rewrite (shl_align_min my ey (Z.min ex ey)) by lia.
    unfold Binary64.round. f_equal.
    set (ez := Z.min ex ey).
    replace Binary64.emin with (ez - (ez - Binary64.emin)) at 3 by lia.
    rewrite <- (normalize_shift _ ez (ez - Binary64.emin)) by lia.
    f_equal; [|lia]. unfold Binary64.scaled.
    replace (ex - Binary64.emin) with ((ex - ez) + (ez - Binary64.emin)) by lia.
    replace (ey - Binary64.emin) with ((ey - ez) + (ez - Binary64.emin)) by lia.
    rewrite !Z.pow_add_r by lia.
    destruct sx, sy; simpl cond_Zopp; ring.
Qed.

Lemma exact_scaled (a : float) :
  (exact a == inject_Z (Binary64.scaled (Prim2SF a)) * 2 ^ Binary64.emin)%Q.
Proof.
  unfold exact, Binary64.scaled. pose proof (Prim2SF_valid a) as V.
  destruct (Prim2SF a) as [s|s| |s m e]; try (simpl; ring).
  pose proof (valid_emin s m e V) as He.
  rewrite inject_Z_mult, Zpower_Qpower by lia.
  rewrite <- Qmult_assoc, <- Qpower_plus by discriminate.
  replace (e - Binary64.emin + Binary64.emin) with e by lia. reflexivity.
Qed.

(** Translating two finite numbers by the same real amount does not change
    the rounded distance between them. *)
Lemma abs_sub_translate (a b a' b' : float) :
  PrimFloat.is_finite a = true -> PrimFloat.is_finite b = true ->
  PrimFloat.is_finite a' = true -> PrimFloat.is_finite b' = true ->
  (exact a' - exact b' == exact a - exact b)%Q ->
  abs (a' - b') = abs (a - b).
Proof.
  intros Fa Fb Fa' Fb' H. apply Prim2SF_inj.
  rewrite !FloatAxioms.abs_spec, !FloatAxioms.sub_spec.
  rewrite !sub_round by (try apply Prim2SF_valid; apply is_finite_number; assumption).
  do 2 f_equal.
  rewrite !exact_scaled in H.
  assert (E : (inject_Z (Binary64.scaled (Prim2SF a') - Binary64.scaled (Prim2SF b'))
               == inject_Z (Binary64.scaled (Prim2SF a) - Binary64.scaled (Prim2SF b)))%Q).
  { apply (Qmult_inj_r _ _ (2 ^ Binary64.emin)); [discriminate|].
    unfold Zminus. rewrite !inject_Z_plus, !inject_Z_opp.
    unfold Qminus in H. 
    rewrite !Qmult_plus_distr_l.
    assert (N : forall z, (- inject_Z z * 2 ^ Binary64.emin
                           == - (inject_Z z * 2 ^ Binary64.emin))%Q) by (intros; ring).
    rewrite !N. exact H. }
  unfold Qeq in E. simpl in E. lia.
Qed.

End FloatFacts.

Section ServiceFacts.
(** A [try] whose handler returns always returns. *)
Lemma try_catch_returns {A : Type} (body handler : async A) (h : A) :
  settled handler = Returns h -> exists r, settled (try_catch body handler) = Returns r.
Proof.
  intros H. unfold try_catch. destruct (settled body) eqn:E.
  - rewrite E. eauto.
  - simpl. eauto.
Qed.

Lemma try_catch_throws {A : Type} (body handler : async A) :
  settled body = Throws -> settled (try_catch body handler) = settled handler.
Proof. intros H. unfold try_catch. rewrite H. reflexivity. Qed.

Lemma detectFace_never_throws (m : bool) (v : Video)
    (api : outcome (option FaceDetection.Detection)) (tol : float) :
  exists r, settled (FaceDetection.detectFace m v api tol) = Returns r.
Proof.
  unfold FaceDetection.detectFace.
  destruct (negb m); [eexists; reflexivity|].
  destruct (negb (readyState v =? 4)); [eexists; reflexivity|].
  eapply try_catch_returns. reflexivity.
Qed.

Lemma detectFace_library_throws (v : Video) (tol : float) (m : bool) :
  settled (FaceDetection.detectFace m v Throws tol) = Returns FaceDetection.notDetected.
Proof.
  unfold FaceDetection.detectFace.
  destruct (negb m); [reflexivity|].
  destruct (negb (readyState v =? 4)); reflexivity.
Qed.

Lemma detectDocument_never_throws (source : DocumentDetection.Source)
    (scan : outcome DocumentDetection.ScanDocumentResult) :
  exists r, settled (DocumentDetection.detectDocument source scan) = Returns r.
Proof.
  unfold DocumentDetection.detectDocument.
  eapply try_catch_returns. reflexivity.
Qed.

Lemma detectDocument_library_throws (source : DocumentDetection.Source) :
  settled (DocumentDetection.detectDocument source Throws)
  = Returns DocumentDetection.notDetected.
Proof.
  unfold DocumentDetection.detectDocument.
  destruct source as [[rs w h]| |]; simpl; [destruct (rs =? 4)|..]; reflexivity.
Qed.

Lemma validateDocumentImage_never_throws img load scan :
  exists r, settled (DocumentDetection.validateDocumentImage img load scan) = Returns r.
Proof.
  unfold DocumentDetection.validateDocumentImage.
  destruct load as [w h|]; simpl; [|eauto].
  destruct (detectDocument_never_throws (DocumentDetection.ImageElement w h) scan) as [r Hr].
  unfold mbind, async_bind. simpl. 
  unfold mbind, async_bind. rewrite Hr. simpl. eauto.
Qed.

Lemma validateDocumentImage_passes img load scan :
  (detection_passes (libCalls (DocumentDetection.validateDocumentImage img load scan)) <= 1)%nat.
Proof.
  destruct load as [w h|]; [|vm_compute; lia].
  destruct scan as [[[] [c|]]|]; vm_compute; lia.
Qed.
End ServiceFacts.

(** ** The Selfie component *)

Section SelfieFacts.
Import FaceDetection Selfie Flows.

Lemma required_reached (n : Z) :
  Qle_bool REQUIRED_STABLE_FRAMES (inject_Z n) = (20 <=? n).
Proof.
  unfold Qle_bool, REQUIRED_STABLE_FRAMES, COUNTDOWN_SECONDS, FRAMES_PER_SECOND,
    DETECTION_INTERVAL_MS. simpl.
  destruct (Z.leb_spec 20 n); [apply Z.leb_le | apply Z.leb_gt]; lia.
Qed.

Lemma countdown_formula (n : Z) :
  Qceiling ((REQUIRED_STABLE_FRAMES - inject_Z n) / FRAMES_PER_SECOND)
  = Spec.secondsRemaining (Spec.framesRemaining 20 n) (Spec.framesPerSecond 250).
Proof.
  unfold Spec.secondsRemaining, Spec.framesRemaining, Spec.framesPerSecond.
  apply Qceiling_comp.
  unfold REQUIRED_STABLE_FRAMES, COUNTDOWN_SECONDS, FRAMES_PER_SECOND,
    DETECTION_INTERVAL_MS, Qeq. simpl. lia.
Qed.

Lemma handler_ignores_while_capturing (r : FaceDetectionResult) (s : Component) :
  isCapturing s = true -> handleFaceDetectionResult r s = s.
Proof. intros H. unfold handleFaceDetectionResult. rewrite H. reflexivity. Qed.

Lemma isCapturing_handleTakePhoto (s : Component) :
  isCapturing s = true -> isCapturing (handleTakePhoto s) = true.
Proof.
  intros H. unfold handleTakePhoto. rewrite H, orb_true_r. exact H.
Qed.

Lemma deliver_all_snoc (s : Component) rs r :
  deliver_all s (rs ++ [r]) = deliver (deliver_all s rs) r.
Proof. unfold deliver_all. rewrite foldl_app. reflexivity. Qed.

Lemma longest_suffix_snoc {A} (p : A -> bool) l a :
  Spec.longest_suffix p (l ++ [a]) = if p a then 1 + Spec.longest_suffix p l else 0.
Proof. unfold Spec.longest_suffix. rewrite reverse_snoc. reflexivity. Qed.

(** What one delivery leaves behind. *)
Lemma deliver_step (s : Component) (r : FaceDetectionResult) :
  isCapturing s = false -> cameraPhoto s = true -> isDisabled s = false ->
  let s' := deliver s r in
  (isCapturing s' = false ->
      faceReady s' = Spec.composite_face r
      /\ cameraPhoto s' = true /\ isDisabled s' = false
      /\ stableFrames s' = (if faceReady s then stableFrames s + 1 else 0)
      /\ (faceReady s = true -> stableFrames s + 1 < 20))
  /\ (faceReady s = true -> 20 <= stableFrames s + 1 -> isCapturing s' = true).
Proof.
  intros Hc Hp Hd. unfold deliver, handleFaceDetectionResult. rewrite Hc. simpl.
  destruct (faceReady s) eqn:Hr; simpl.
  - rewrite required_reached.
    destruct (Z.leb_spec 20 (stableFrames s + 1)) as [Hge|Hlt]; simpl.
    + unfold handleTakePhoto; simpl. rewrite ?Hp, ?Hd, ?Hc. simpl.
      destruct (stopDetectionLoop s); simpl; (split; [discriminate|auto]).
    + split; [|intros; lia]. intros _. repeat split; auto.
  - split; [|discriminate]. intros _. repeat split; auto. discriminate.
Qed.

Lemma deliver_capturing (s : Component) (r : FaceDetectionResult) :
  isCapturing s = true -> isCapturing (deliver s r) = true.
Proof.
  intros H. unfold deliver. rewrite handler_ignores_while_capturing by exact H.
  exact H.
Qed.

(** The counter after a result counts the results before it. *)
Lemma stableFrames_lags (rs : list FaceDetectionResult) (r : FaceDetectionResult) :
  let s := deliver_all mounted (rs ++ [r]) in
  isCapturing s = false ->
  stableFrames s = Spec.longest_suffix Spec.composite_face rs
  /\ faceReady s = Spec.composite_face r
  /\ cameraPhoto s = true /\ isDisabled s = false /\ stableFrames s < 20.
Proof.
  revert r. induction rs as [|r' rs IH] using rev_ind; intros r.
  - change (deliver_all mounted ([] ++ [r])) with (deliver mounted r). cbv zeta.
    destruct (deliver_step mounted r eq_refl eq_refl eq_refl) as (H2 & _).
    intros Hc. destruct (H2 Hc) as (H1 & Hp & Hd & Hs & _).
    rewrite Hs. repeat split; auto; reflexivity.
  - rewrite deliver_all_snoc. set (s0 := deliver_all mounted (rs ++ [r'])) in *.
    cbv zeta. intros Hc.
    destruct (isCapturing s0) eqn:Hc0.
    + rewrite deliver_capturing in Hc by exact Hc0. discriminate.
    + destruct (IH r' Hc0) as (Hs0 & IHr & Hp0 & Hd0 & Hlt0).
      destruct (deliver_step s0 r Hc0 Hp0 Hd0) as (H2 & _).
      destruct (H2 Hc) as (H1 & Hp & Hd & Hs & Hb).
      rewrite Hs. rewrite longest_suffix_snoc, <- IHr, <- Hs0.
      repeat split; auto.
      * fold s0. destruct (faceReady s0); lia.
      * destruct (faceReady s0) eqn:Hfr; [|lia]. specialize (Hb eq_refl). lia.
Qed.

(** The accumulator of the specification does satisfy the suffix law. *)
Lemma evaluate_longest_suffix (rs : list FaceDetectionResult) :
  foldl Spec.evaluate 0 rs = Spec.longest_suffix Spec.composite_face rs.
Proof.
  induction rs as [|r rs IH] using rev_ind; [reflexivity|].
  rewrite foldl_app, longest_suffix_snoc. simpl. unfold Spec.evaluate at 1.
  rewrite IH. destruct (Spec.composite_face r); lia.
Qed.


Lemma deliver_composite (s : Component) (r : FaceDetectionResult) :
  Spec.composite_face r = true -> deliver s r = deliver s all_true.
Proof.
  destruct r as [d c f p b]. unfold Spec.composite_face. simpl.
  intros H. repeat (apply andb_true_iff in H; destruct H as [H ?]). subst.
  reflexivity.
Qed.

Lemma deliver_all_composite (s : Component) (r : FaceDetectionResult) (n : nat) :
  Spec.composite_face r = true ->
  deliver_all s (replicate n r) = deliver_all s (replicate n all_true).
Proof.
  intros H. revert s. induction n as [|n IH]; intros s; [reflexivity|].
  simpl. unfold deliver_all in *. simpl. rewrite (deliver_composite s r H). apply IH.
Qed.

Lemma deliver_all_settled (s : Component) (r : FaceDetectionResult) (n : nat) :
  isCapturing s = true -> update s = s -> deliver_all s (replicate n r) = s.
Proof.
  intros Hc Hu. induction n as [|n IH]; [reflexivity|].
  unfold deliver_all in *. simpl. unfold deliver at 2.
  rewrite handler_ignores_while_capturing by exact Hc. rewrite Hu. exact IH.
Qed.

(** On a stream of results that meet every criterion the photo is taken
    once, when the twenty-first result arrives. *)
Lemma capture_once_on_the_21st (r : FaceDetectionResult) (n : nat) :
  Spec.composite_face r = true ->
  captures (deliver_all mounted (replicate n r))
  = if (21 <=? n)%nat then 1%nat else 0%nat.
Proof.
  intros H. rewrite (deliver_all_composite _ _ _ H).
  destruct (Nat.leb_spec 21 n) as [Hn|Hn].
  - replace n with (21 + (n - 21))%nat by lia.
    rewrite replicate_add. unfold deliver_all. rewrite foldl_app.
    fold (deliver_all mounted (replicate 21 all_true)).
    fold (deliver_all (deliver_all mounted (replicate 21 all_true))
                      (replicate (n - 21) all_true)).
    rewrite deliver_all_settled; [| vm_compute; reflexivity ..].
    vm_compute. reflexivity.
  - assert (Hall : forallb (fun k => Nat.eqb (captures (deliver_all mounted (replicate k all_true))) 0)
                     (seq 0 21) = true) by (vm_compute; reflexivity).
    rewrite forallb_forall in Hall. apply Nat.eqb_eq, Hall.
    apply in_seq. lia.
Qed.

End SelfieFacts.

(** ** The polling loop *)

Section LoopFacts.
Import DetectionLoop.
Context {Input Result Client : Type}.
Variable detect : Input -> async Result.
Variable onResult : Result -> Client -> Client * bool.
Variable intervalMs : Z.

#[local] Abbreviation State := (Loop Input Result Client).
#[local] Abbreviation Inv := (Inv (Input:=Input) (Result:=Result) (Client:=Client) intervalMs).

Lemma cleanup_fields (l : State) :
  isRunning (cleanup l) = false /\ timeoutId (cleanup l) = timeoutId l
  /\ calls (cleanup l) = calls l /\ clock (cleanup l) = clock l
  /\ client (cleanup l) = client l /\ nextTimer (cleanup l) = nextTimer l
  /\ (forall id due, timers (cleanup l) !! id = Some due -> timers l !! id = Some due)
  /\ trace (cleanup l) = Stopped (clock l) :: trace l.
Proof.
  unfold cleanup; simpl.
  destruct (timeoutId l) as [id|]; simpl; [destruct (id =? 0)%nat; simpl|];
    repeat split; auto.
  intros id' due H. apply lookup_delete_Some in H. tauto.
Qed.

Lemma loop_Inv_create (i : Input) (t : Z) (c : Client) : Inv (create i t c).
Proof.
  unfold create, runDetection; simpl.
  split; simpl.
  - intros c0 rest H. injection H as <- <-. constructor.
  - intros id due H. rewrite lookup_empty in H. discriminate.
  - reflexivity.
  - repeat constructor; simpl; try lia; discriminate.
  - discriminate.
Qed.

Lemma loop_outstanding_newest (l : State) k c :
  Inv l -> calls l !! k = Some c -> settledAt c = None ->
  k = 0%nat /\ exists rest, calls l = c :: rest.
Proof.
  intros HI Hk Hc.
  destruct (calls l) as [|c0 rest] eqn:E; [discriminate|].
  destruct k as [|k]; simpl in Hk.
  - injection Hk as ->. eauto.
  - exfalso. pose proof (inv_older _ _ HI _ _ E) as Hold.
    rewrite Forall_lookup in Hold. specialize (Hold _ _ Hk).
    unfold is_outstanding in Hold. rewrite Hc in Hold. discriminate.
Qed.

Lemma loop_in_flight_no_timer (l : State) c rest :
  Inv l -> calls l = c :: rest -> settledAt c = None -> timers l = ∅.
Proof.
  intros HI E Hc. apply map_eq. intros id. rewrite lookup_empty.
  destruct (timers l !! id) as [due|] eqn:Ht; [|reflexivity].
  destruct (inv_timers _ _ HI _ _ Ht) as (_ & _ & c' & rest' & s & E' & Hs & _).
  rewrite E in E'. injection E' as <- <-. congruence.
Qed.

Lemma loop_Inv_step (l l' : State) (e : Event Input) :
  Inv l -> step detect onResult intervalMs l e = Some l' -> Inv l'.
Proof.
  intros HI Hstep. destruct e as [k t | id i t | t]; simpl in Hstep.
  - (* Settle *)
    destruct (calls l !! k) as [c|] eqn:Hk; [|discriminate].
    destruct (settledAt c) eqn:Hc; [discriminate|].
    destruct (Z.leb_spec (clock l) t) as [Ht|]; [|discriminate].
    destruct (loop_outstanding_newest _ _ _ HI Hk Hc) as (-> & rest & E).
    pose proof (loop_in_flight_no_timer _ _ _ HI E Hc) as Hnt.
    pose proof (inv_older _ _ HI _ _ E) as Hold.
    pose proof (inv_serialized _ _ HI) as Hser.
    pose proof (inv_clock _ _ HI) as Hclk.
    pose proof (inv_fresh _ _ HI) as Hfr.
    rewrite E in Hser, Hclk.
    assert (Hclk' : Forall (fun c0 : Call Input => invokedAt c0 <= t
               /\ (forall s, settledAt c0 = Some s -> invokedAt c0 <= s <= t))
              ({| invokedAt := invokedAt c; input := input c; settledAt := Some t |} :: rest)).
    { inversion Hclk as [|? ? [H1 H2] H3]; subst. constructor; simpl.
      - split; [lia|]. intros s [= <-]. lia.
      - eapply Forall_impl; [exact H3|]. simpl. intros c0 [Ha Hb]. split; [lia|].
        intros s Hs. specialize (Hb s Hs). lia. }
    assert (Hser' : serialized intervalMs
              ({| invokedAt := invokedAt c; input := input c; settledAt := Some t |} :: rest) = true).
    { destruct rest as [|c1 rest1]; [reflexivity|]. exact Hser. }
    destruct (settled (detect (input c))) as [result|].
    + injection Hstep as <-.
      unfold runDetection_resume. simpl.
      destruct (isRunning l) eqn:Hrun.
      * destruct (onResult result (client l)) as [cl stops] eqn:Hon.
        set (l1 := observe _ _).
        set (l2 := if stops then cleanup l1 else l1).
        assert (H2 : calls l2 = {| invokedAt := invokedAt c; input := input c; settledAt := Some t |} :: rest
                     /\ clock l2 = t /\ nextTimer l2 = nextTimer l /\ timers l2 = ∅).
        { assert (H1 : calls l1 = {| invokedAt := invokedAt c; input := input c; settledAt := Some t |} :: rest
                       /\ clock l1 = t /\ nextTimer l1 = nextTimer l /\ timers l1 = ∅).
          { subst l1; simpl. rewrite E. auto. }
          destruct H1 as (Hc1 & Hk1 & Hn1 & Ht1).
          subst l2. destruct stops; [|auto].
          destruct (cleanup_fields l1) as (_ & _ & Hc2 & Hk2 & _ & Hn2 & Ht2 & _).
          rewrite Hc2, Hk2, Hn2, Hc1, Hk1, Hn1.
          repeat split; auto. apply map_eq. intros id. rewrite lookup_empty.
          destruct (timers (cleanup l1) !! id) eqn:Hq; [|reflexivity].
          apply Ht2 in Hq. rewrite Ht1, lookup_empty in Hq. discriminate. }
        destruct H2 as (Hc2 & Hk2 & Hn2 & Ht2).
        unfold setTimeout; simpl. rewrite Hc2, Hk2, Hn2, Ht2.
        split; simpl.
        -- intros c0 rest0 [= <- <-]. exact Hold.
        -- intros id due Hl. apply lookup_insert_Some in Hl.
           destruct Hl as [[<- <-]|[_ Hl]]; [|rewrite lookup_empty in Hl; discriminate].
           split; [reflexivity|]. split; [exact Hfr|].
           eexists _, _, _. split; [reflexivity|]. split; reflexivity.
        -- exact Hser'.
        -- exact Hclk'.
        -- discriminate.
      * split; simpl; rewrite ?E; simpl.
        -- intros c0 rest0 [= <- <-]. exact Hold.
        -- intros id due Hl. rewrite Hnt, lookup_empty in Hl. discriminate.
        -- exact Hser'.
        -- exact Hclk'.
        -- exact Hfr.
    + injection Hstep as <-. split; simpl; rewrite ?E; simpl.
      -- intros c0 rest0 [= <- <-]. exact Hold.
      -- intros id due Hl. rewrite Hnt, lookup_empty in Hl. discriminate.
      -- exact Hser'.
      -- exact Hclk'.
      -- exact Hfr.
  - (* Timeout *)
    destruct (timers l !! id) as [due|] eqn:Hid; [|discriminate].
    destruct (Z.leb_spec due t) as [Hdue|]; [|discriminate].
    destruct (Z.leb_spec (clock l) t) as [Ht|]; [|discriminate].
    simpl in Hstep. injection Hstep as <-.
    destruct (inv_timers _ _ HI _ _ Hid) as (Htid & Hid0 & c & rest & s & E & Hs & Hd).
    assert (Hnt : delete id (timers l) = ∅).
    { apply map_eq. intros id'. rewrite lookup_empty.
      destruct (delete id (timers l) !! id') eqn:Hq; [|reflexivity].
      apply lookup_delete_Some in Hq. destruct Hq as [Hne Hq].
      destruct (inv_timers _ _ HI _ _ Hq) as (Htid' & _). congruence. }
    pose proof (inv_older _ _ HI _ _ E) as Hold.
    pose proof (inv_serialized _ _ HI) as Hser.
    pose proof (inv_clock _ _ HI) as Hclk.
    pose proof (inv_fresh _ _ HI) as Hfr.
    assert (Hclk' : Forall (fun c0 : Call Input => invokedAt c0 <= t
               /\ (forall s, settledAt c0 = Some s -> invokedAt c0 <= s <= t)) (calls l)).
    { eapply Forall_impl; [exact Hclk|]. simpl. intros c0 [Ha Hb]. split; [lia|].
      intros s0 Hs0. specialize (Hb s0 Hs0). lia. }
    unfold runDetection; simpl. destruct (isRunning l) eqn:Hrun; simpl.
    + split; simpl.
      * intros c0 rest0 [= <- <-]. rewrite E. constructor; [|exact Hold].
        unfold is_outstanding. rewrite Hs. reflexivity.
      * intros id' due' Hl. rewrite Hnt, lookup_empty in Hl. discriminate.
      * rewrite E. rewrite E in Hser, Hclk. simpl. simpl in Hser. rewrite Hser.
        unfold follows. rewrite Hs. simpl.
        inversion Hclk as [|? ? [H1 H2] H3]; subst.
        specialize (H2 _ Hs).
        rewrite andb_true_r. apply andb_true_intro. split; apply Z.leb_le; lia.
      * constructor; [|exact Hclk']. simpl. split; [lia|discriminate].
      * exact Hfr.
    + split; simpl; auto.
      * exact (inv_older _ _ HI).
      * intros id' due' Hl. rewrite Hnt, lookup_empty in Hl. discriminate.
  - (* Cleanup *)
    destruct (Z.leb_spec (clock l) t) as [Ht|]; [|discriminate].
    injection Hstep as <-.
    destruct (cleanup_fields (advance t l)) as (_ & Htid & Hc2 & Hk2 & _ & Hn2 & Ht2 & _).
    split.
    + rewrite Hc2. exact (inv_older _ _ HI).
    + intros id due Hl. apply Ht2 in Hl. simpl in Hl. rewrite Htid, Hc2. simpl.
      exact (inv_timers _ _ HI _ _ Hl).
    + rewrite Hc2. exact (inv_serialized _ _ HI).
    + rewrite Hc2, Hk2. simpl. eapply Forall_impl; [exact (inv_clock _ _ HI)|].
      simpl. intros c0 [Ha Hb]. split; [lia|].
      intros s0 Hs0. specialize (Hb s0 Hs0). lia.
    + rewrite Hn2. exact (inv_fresh _ _ HI).
Qed.

Lemma loop_Inv_run (es : list (Event Input)) (l l' : State) :
  Inv l -> run detect onResult intervalMs l es = Some l' -> Inv l'.
Proof.
  revert l. induction es as [|e es IH]; intros l HI Hrun; simpl in Hrun.
  - injection Hrun as <-. exact HI.
  - destruct (step detect onResult intervalMs l e) as [l1|] eqn:Hs; [|discriminate].
    eapply IH; [|exact Hrun]. eapply loop_Inv_step; eauto.
Qed.

Lemma outstanding_at_most_one (l : State) : Inv l -> (length (outstanding l) <= 1)%nat.
Proof.
  intros HI. unfold outstanding.
  destruct (calls l) as [|c rest] eqn:E; simpl; [lia|].
  pose proof (inv_older _ _ HI _ _ E) as Hold.
  assert (Hnil : List.filter is_outstanding rest = []).
  { clear E. induction Hold as [|c' rest' Hc' _ IH]; [reflexivity|].
    simpl. rewrite Hc'. exact IH. }
  rewrite Hnil. destruct (is_outstanding c); simpl; lia.
Qed.

Lemma serialized_gaps (d : Z) (cs : list (Call Input)) :
  serialized intervalMs cs = true -> forallb (took_at_least d) cs = true ->
  gaps_at_least (d + Z.max 0 intervalMs) (invokedAt <$> cs) = true.
Proof.
  induction cs as [|c2 cs IH]; [reflexivity|].
  destruct cs as [|c1 cs]; [reflexivity|].
  intros Hser Hall.
  change (follows intervalMs c1 c2 && serialized intervalMs (c1 :: cs) = true) in Hser.
  apply andb_true_iff in Hser. destruct Hser as [Hf Hser].
  change (took_at_least d c2 && forallb (took_at_least d) (c1 :: cs) = true) in Hall.
  apply andb_true_iff in Hall. destruct Hall as [_ Hall].
  change (((d + Z.max 0 intervalMs <=? invokedAt c2 - invokedAt c1)
           && gaps_at_least (d + Z.max 0 intervalMs) (invokedAt <$> c1 :: cs)) = true).
  rewrite (IH Hser Hall), andb_true_r.
  unfold follows in Hf. simpl in Hall. apply andb_true_iff in Hall.
  destruct Hall as [Ht _]. unfold took_at_least in Ht.
  destruct (settledAt c1) as [s|]; [|discriminate].
  apply andb_true_iff in Hf. destruct Hf as [_ Hf].
  apply Z.leb_le in Hf. apply Z.leb_le in Ht. apply Z.leb_le. lia.
Qed.

Lemma gaps_at_least_weaken (d d' : Z) (ts : list Z) :
  d' <= d -> gaps_at_least d ts = true -> gaps_at_least d' ts = true.
Proof.
  intros Hd. induction ts as [|t2 ts IH]; [reflexivity|].
  destruct ts as [|t1 ts]; [reflexivity|].
  intros H.
  change (((d <=? t2 - t1) && gaps_at_least d (t1 :: ts)) = true) in H.
  apply andb_true_iff in H. destruct H as [H1 H2].
  change (((d' <=? t2 - t1) && gaps_at_least d' (t1 :: ts)) = true).
  rewrite (IH H2), andb_true_r. apply Z.leb_le in H1. apply Z.leb_le. lia.
Qed.

(** Once the flag is down, no event delivers a result, calls the detector
    or sets a timer. *)
Lemma stopped_is_final (l l' : State) (e : Event Input) :
  isRunning l = false -> step detect onResult intervalMs l e = Some l' ->
  isRunning l' = false /\ client l' = client l
  /\ deliveries l' = deliveries l /\ invocations l' = invocations l
  /\ schedulings l' = schedulings l.
Proof.
  intros Hr Hs. destruct e as [k t | id i t | t]; simpl in Hs.
  - destruct (calls l !! k) as [c|] eqn:Hk; [|discriminate].
    destruct (settledAt c); [discriminate|].
    destruct (clock l <=? t); [|discriminate].
    assert (Hinv : invokedAt <$> alter (fun c0 : Call Input =>
              {| invokedAt := invokedAt c0; input := input c0; settledAt := Some t |})
              k (calls l) = invokedAt <$> calls l).
    { rewrite (list_fmap_alter invokedAt _ id); [|apply Forall_forall; reflexivity].
      apply list_alter_id. reflexivity. }
    destruct (settled (detect (input c))) as [result|]; injection Hs as <-.
    + unfold runDetection_resume. simpl. rewrite Hr. simpl.
      unfold invocations. simpl. auto.
    + unfold invocations, deliveries, schedulings. simpl. auto.
  - destruct (timers l !! id) as [due|]; [|discriminate].
    destruct ((due <=? t) && (clock l <=? t)); [|discriminate].
    injection Hs as <-. unfold runDetection. simpl. rewrite Hr. simpl. auto.
  - destruct (clock l <=? t); [|discriminate]. injection Hs as <-.
    destruct (cleanup_fields (advance t l)) as (H1 & _ & H3 & _ & H5 & _ & _ & H8).
    unfold invocations, deliveries, schedulings. rewrite H1, H3, H5, H8. auto.
Qed.

(** Calling the cleanup function again changes nothing but the record of
    the call. *)
Lemma cleanup_twice (l : State) :
  let l1 := cleanup l in
  let l2 := cleanup l1 in
  isRunning l2 = isRunning l1 /\ timeoutId l2 = timeoutId l1
  /\ timers l2 = timers l1 /\ nextTimer l2 = nextTimer l1
  /\ calls l2 = calls l1 /\ clock l2 = clock l1 /\ client l2 = client l1.
Proof.
  destruct l as [r tid tm nt cs ck cl tr]. unfold cleanup. simpl.
  destruct tid as [id|]; simpl;
    [destruct (id =? 0)%nat eqn:E0; simpl; rewrite ?E0; simpl|];
    repeat split; auto.
  apply delete_delete_eq.
Qed.

(** A detector that never rejects leaves no rejection in the trace. *)
Lemma never_rejected (l l' : State) (e : Event Input) :
  (forall i, settled (detect i) <> Throws) ->
  step detect onResult intervalMs l e = Some l' ->
  (forall t, Rejected t ∉ trace l) -> forall t, Rejected t ∉ trace l'.
Proof.
  intros Hd Hs Hl t0. destruct e as [k t | id i t | t]; simpl in Hs.
  - destruct (calls l !! k) as [c|] eqn:Hk; [|discriminate].
    destruct (settledAt c); [discriminate|].
    destruct (clock l <=? t); [|discriminate].
    destruct (settled (detect (input c))) as [result|] eqn:Hres;
      [|exfalso; exact (Hd _ Hres)].
    injection Hs as <-. unfold runDetection_resume. simpl.
    destruct (isRunning l); simpl; [|apply Hl].
    destruct (onResult result (client l)) as [cl stops]. simpl.
    destruct stops; simpl.
    + unfold cleanup. simpl. destruct (timeoutId l) as [id|]; simpl;
        [destruct (id =? 0)%nat; simpl|];
        rewrite !not_elem_of_cons; repeat split; try discriminate; apply Hl.
    + rewrite !not_elem_of_cons; repeat split; try discriminate; apply Hl.
  - destruct (timers l !! id) as [due|]; [|discriminate].
    destruct ((due <=? t) && (clock l <=? t)); [|discriminate].
    injection Hs as <-. unfold runDetection. simpl.
    destruct (isRunning l); simpl; [|apply Hl].
    rewrite not_elem_of_cons. split; [discriminate|apply Hl].
  - destruct (clock l <=? t); [|discriminate]. injection Hs as <-.
    destruct (cleanup_fields (advance t l)) as (_ & _ & _ & _ & _ & _ & _ & H8).
    rewrite H8. rewrite not_elem_of_cons. split; [discriminate|apply Hl].
Qed.

(** A result delivered to a running loop is followed by a timer for the next
    iteration, [intervalMs] after the call settled. *)
Lemma resume_schedules (l : State) (result : Result) :
  isRunning l = true ->
  let l' := runDetection_resume onResult intervalMs result l in
  timers l' !! nextTimer l = Some (clock l + Z.max 0 intervalMs)
  /\ timeoutId l' = Some (nextTimer l).
Proof.
  intros Hr. unfold runDetection_resume. rewrite Hr.
  destruct (onResult result (client l)) as [cl stops]. simpl.
  destruct stops; simpl.
  - destruct (cleanup_fields (observe (Delivered (clock l) result)
       {| isRunning := true; timeoutId := timeoutId l; timers := timers l;
          nextTimer := nextTimer l; calls := calls l; clock := clock l;
          client := cl; trace := trace l |})) as (_ & _ & _ & H4 & _ & H6 & _).
    rewrite H4, H6. simpl. rewrite lookup_insert_eq. auto.
  - rewrite lookup_insert_eq. auto.
Qed.
(** When the callback itself calls the cleanup function, the loop is stopped
    and the timer for the next iteration is set all the same. *)
Lemma resume_after_cleanup_in_callback (l : State) (result : Result) (c : Client) :
  isRunning l = true -> onResult result (client l) = (c, true) ->
  let l' := runDetection_resume onResult intervalMs result l in
  isRunning l' = false
  /\ timers l' !! nextTimer l = Some (clock l + Z.max 0 intervalMs).
Proof.
  intros Hr Hon. split; [|apply (resume_schedules l result Hr)].
  unfold runDetection_resume. rewrite Hr, Hon. simpl.
  destruct (cleanup_fields (observe (Delivered (clock l) result)
       {| isRunning := true; timeoutId := timeoutId l; timers := timers l;
          nextTimer := nextTimer l; calls := calls l; clock := clock l;
          client := c; trace := trace l |})) as (H1 & _).
  exact H1.
Qed.
End LoopFacts.

(** ** The CheckDocument component *)

Section ViewFacts.
Import DocumentDetection CheckDocument.

Lemma validate_while_validating (s : Component) :
  isValidating s = true -> validate s = s.
Proof.
  intros H. unfold validate. rewrite H, andb_false_r. reflexivity.
Qed.

Lemma validate_with_result (s : Component) (r : DocumentDetectionResult) :
  validationResult s = Some r -> validate s = s.
Proof.
  intros H. unfold validate. rewrite H.
  rewrite bool_decide_eq_true_2 by eauto. simpl. rewrite andb_false_r. reflexivity.
Qed.

Lemma view_Inv_validate (s : Component) : Inv s -> Inv (validate s).
Proof.
  intros [Hp Hv Hr Hl | img Hp Hv Hr Hl | r Hp Hv Hr Hl].
  - unfold validate. rewrite Hv, Hr.
    rewrite bool_decide_eq_false_2 by (intros [? ?]; discriminate).
    simpl. rewrite !andb_true_r.
    destruct (truthy (image s)).
    + apply (InFlight _ (image s)); simpl; auto. rewrite Hp. reflexivity.
    + apply Idle; auto.
  - rewrite validate_while_validating by exact Hv. eapply InFlight; eauto.
  - rewrite (validate_with_result _ _ Hr). eapply Stored; eauto.
Qed.

Lemma view_Inv_step (s s' : Component) (e : Event) :
  Inv s -> step s e = Some s' -> Inv s'.
Proof.
  intros HI Hs. destruct e as [img | | k load scan]; unfold step in Hs.
  - injection Hs as <-. apply view_Inv_validate.
    destruct HI as [Hp Hv Hr Hl | img' Hp Hv Hr Hl | r Hp Hv Hr Hl];
      [apply Idle | apply (InFlight _ img') | apply (Stored _ r)]; auto.
  - injection Hs as <-. apply view_Inv_validate, HI.
  - destruct (pending s !! k) as [img|] eqn:Hk; [|discriminate].
    destruct HI as [Hp Hv Hr Hl | img' Hp Hv Hr Hl | r Hp Hv Hr Hl];
      try (rewrite Hp in Hk; discriminate).
    rewrite Hp in Hk. destruct k as [|k]; [|discriminate]. injection Hk as ->.
    destruct (validateDocumentImage_never_throws img load scan) as [r Hres].
    rewrite Hres in Hs. injection Hs as <-.
    apply view_Inv_validate. apply (Stored _ r); [|reflexivity|reflexivity|].
    + cbn [pending then_callback]. rewrite Hp. reflexivity.
    + cbn [libLog then_callback]. rewrite Hl, app_nil_l.
      exact (validateDocumentImage_passes img load scan).
Qed.

Lemma view_Inv_run (es : list Event) (s s' : Component) :
  Inv s -> run s es = Some s' -> Inv s'.
Proof.
  revert s. induction es as [|e es IH]; intros s HI Hr; simpl in Hr.
  - injection Hr as <-. exact HI.
  - destruct (step s e) as [s1|] eqn:Hs; [|discriminate].
    eapply IH; [|exact Hr]. eapply view_Inv_step; eauto.
Qed.

Lemma view_Inv_created : Inv created.
Proof. apply Idle; reflexivity. Qed.

(** A stored result is never replaced. *)
Lemma stored_result_stays (es : list Event) (s s' : Component) (r : DocumentDetectionResult) :
  Inv s -> validationResult s = Some r -> run s es = Some s' ->
  validationResult s' = Some r.
Proof.
  revert s. induction es as [|e es IH]; intros s HI Hr Hrun; simpl in Hrun.
  - injection Hrun as <-. exact Hr.
  - destruct (step s e) as [s1|] eqn:Hs; [|discriminate].
    apply (IH s1); [eapply view_Inv_step; eauto| |exact Hrun].
    destruct e as [img | | k load scan]; unfold step in Hs.
    + injection Hs as <-. erewrite validate_with_result; simpl; eauto.
    + injection Hs as <-. erewrite validate_with_result; eauto.
    + destruct HI as [Hp Hv Hr' Hl | img' Hp Hv Hr' Hl | r' Hp Hv Hr' Hl];
        try congruence.
      rewrite Hp in Hs. discriminate.
Qed.
End ViewFacts.

(** * The properties of the specification *)

(** C1.  The specification has the photo taken on the 20th result of an
    all-true stream.  The handler tests [faceReady] as the previous flush
    left it, so the first result of the stream is not counted: after 20
    results the counter stands at 19 and nothing has been done; the 21st
    result takes the photo, with [isCapturing = true] set first, then the
    loop stopped, then the capture. *)
Theorem selfie_captures_on_the_21st_result :
  let after20 := Selfie.deliver_all Selfie.mounted (replicate 20 Flows.good_result) in
  let after21 := Selfie.deliver_all Selfie.mounted (replicate 21 Flows.good_result) in
  Spec.composite_face Flows.good_result = true
  /\ Selfie.isCapturing after20 = false
  /\ Selfie.stableFrames after20 = 19
  /\ Selfie.effects after20 = []
  /\ Selfie.effects after21
     = [Selfie.Set_isCapturing; Selfie.StopDetectionLoop; Selfie.GetDataUri;
        Selfie.GoToNextStep; Selfie.ToggleOnIsDisabled].
Proof. vm_compute. repeat split; reflexivity. Qed.

(** C2.  The specification has the counter equal to the longest all-true
    suffix that ends at the current result.  After a single all-true result
    the counter is 0 where that suffix has length 1, and in the stream
    true, true, true, false, true the counter is 3 after the false result and
    0 after the result that follows it, where the hard reset law gives 0
    and 1. *)
Theorem selfie_counter_misses_the_current_result :
  let bad := FaceDetection.notDetected in
  let good := Flows.good_result in
  Selfie.stableFrames (Selfie.deliver_all Selfie.mounted [good]) = 0
  /\ Spec.longest_suffix Spec.composite_face [good] = 1
  /\ Selfie.stableFrames (Selfie.deliver_all Selfie.mounted [good; good; good; bad]) = 3
  /\ Spec.longest_suffix Spec.composite_face [good; good; good; bad] = 0
  /\ Selfie.stableFrames (Selfie.deliver_all Selfie.mounted [good; good; good; bad; good]) = 0
  /\ Spec.longest_suffix Spec.composite_face [good; good; good; bad; good] = 1.
Proof. vm_compute. repeat split; reflexivity. Qed.

(** C3.  In every state a detection loop can reach, at most one detector
    call is in flight; every call but the newest had settled before the next
    one was made, [intervalMs] or more earlier; a timer that is set is due
    exactly [intervalMs] after the newest call settled; and with
    [intervalMs = 250] and calls that take 600 ms or more, consecutive
    detector invocations are 600 ms or more apart.  The loop is generic in
    the detector: [createFaceDetectionLoop] is the instance
    [Flows.face_detect], [createDocumentDetectionLoop] the instance
    [Flows.document_detect]. *)
Theorem detector_calls_never_overlap {Input Result Client : Type}
    (detect : Input -> async Result)
    (onResult : Result -> Client -> Client * bool) (intervalMs : Z)
    (i : Input) (t0 : Z) (c0 : Client)
    (es : list (DetectionLoop.Event Input))
    (l : DetectionLoop.Loop Input Result Client) :
  DetectionLoop.run detect onResult intervalMs (DetectionLoop.create i t0 c0) es = Some l ->
  (length (DetectionLoop.outstanding l) <= 1)%nat
  /\ DetectionLoop.serialized intervalMs (DetectionLoop.calls l) = true
  /\ (forall id due, DetectionLoop.timers l !! id = Some due ->
        exists c rest s, DetectionLoop.calls l = c :: rest
                         /\ DetectionLoop.settledAt c = Some s
                         /\ due = s + Z.max 0 intervalMs)
  /\ (intervalMs = 250 ->
      forallb (DetectionLoop.took_at_least 600) (DetectionLoop.calls l) = true ->
      DetectionLoop.gaps_at_least 600 (DetectionLoop.invocations l) = true).
Proof.
  intros Hrun.
  assert (HI : DetectionLoop.Inv intervalMs l).
  { eapply loop_Inv_run; [|exact Hrun]. apply loop_Inv_create. }
  split; [apply (outstanding_at_most_one intervalMs), HI|].
  split; [apply (DetectionLoop.inv_serialized _ _ HI)|].
  split.
  - intros id due Hl.
    destruct (DetectionLoop.inv_timers _ _ HI _ _ Hl) as (_ & _ & H). exact H.
  - intros -> Hall.
    apply (gaps_at_least_weaken (600 + Z.max 0 250)); [lia|].
    apply serialized_gaps; [apply (DetectionLoop.inv_serialized _ _ HI)|exact Hall].
Qed.

Lemma detector_calls_never_overlap_witness :
  exists l,
    Flows.selfie_run (Flows.selfie_create Flows.good_frame 0)
      (Flows.iterations [Flows.good_frame; Flows.good_frame] 600 0 1) = Some l
    /\ (length (DetectionLoop.outstanding l) <= 1)%nat
    /\ DetectionLoop.invocations l = [1700; 850; 0]
    /\ DetectionLoop.gaps_at_least 600 (DetectionLoop.invocations l) = true.
Proof.
  eexists. split; [vm_compute; reflexivity|].
  match goal with
  | |- (length (DetectionLoop.outstanding ?l) <= _)%nat /\ _ =>
      destruct (detector_calls_never_overlap Flows.face_detect Selfie.onResult 250
                  Flows.good_frame 0 Selfie.mounted
                  (Flows.iterations [Flows.good_frame; Flows.good_frame] 600 0 1) l)
        as (H1 & _ & _ & H4); [vm_compute; reflexivity|]
  end.
  split; [exact H1|]. split; [vm_compute; reflexivity|].
  apply H4; [reflexivity|vm_compute; reflexivity].
Defined.

(** C4.  The specification has nothing scheduled once the cleanup function
    has been called.  In the selfie flow the cleanup function is called by the
    callback itself, from [handleTakePhoto], when the 21st result arrives;
    [runDetection] tested [isRunning] before the callback and goes on to
    [setTimeout]: the loop ends stopped, with a timer set after the stop and
    still active. *)
Theorem cleanup_inside_onResult_still_schedules :
  exists l rest,
    Flows.selfie_run (Flows.selfie_create Flows.good_frame 0)
      (Flows.iterations (replicate 20 Flows.good_frame) 600 0 1) = Some l
    /\ DetectionLoop.isRunning l = false
    /\ DetectionLoop.trace l
       = DetectionLoop.Scheduled 17600 21 17850
         :: DetectionLoop.Stopped 17600
         :: DetectionLoop.Delivered 17600 Flows.good_result :: rest
    /\ DetectionLoop.timers l !! 21%nat = Some 17850.
Proof.
  eexists. eexists. split; [vm_compute; reflexivity|].
  vm_compute. repeat split; reflexivity.
Qed.

(** C5, as stated, fails: for a document the scanner finds but that fills
    too little of the frame ([detected = true], [confidence = false]) the
    composite predicate is false and the capture button is enabled all the
    same, and a click takes the photo. *)
Lemma camera_button_enabled_without_confidence :
  let s := fst (DocumentPhoto.onResult Flows.far_result Flows.document_mounted) in
  settled (Flows.document_detect Flows.far_frame) = Returns Flows.far_result
  /\ Spec.composite_document Flows.far_result = false
  /\ DocumentPhoto.CameraButton_isDisabled s = false
  /\ DocumentPhoto.handleTakePhoto_captures s = true.
Proof. vm_compute. repeat split; reflexivity. Qed.

(** C5, amended.  For every result with [detected = true] and
    [confidence = false] the composite predicate is false and the indicator
    shows "move closer"; the button's [isDisabled] is then the camera toggle
    [$isDisabled] alone.  In general the button is enabled exactly when the
    toggle is off and [detected] holds: the signal is the [detected] flag,
    not the composite predicate. *)
Theorem camera_button_gated_on_detected (s : DocumentPhoto.Component) :
  DocumentDetection.detected (DocumentPhoto.documentDetectionResult s) = true ->
  DocumentDetection.confidence (DocumentPhoto.documentDetectionResult s) = false ->
  Spec.composite_document (DocumentPhoto.documentDetectionResult s) = false
  /\ (DocumentPhoto.stream s = true ->
      DocumentPhoto.detection_indicator s = Some DocumentPhoto.MoveCloser)
  /\ DocumentPhoto.CameraButton_isDisabled s = DocumentPhoto.isDisabled s
  /\ (forall s' : DocumentPhoto.Component,
        negb (DocumentPhoto.CameraButton_isDisabled s')
        = negb (DocumentPhoto.isDisabled s')
          && DocumentDetection.detected (DocumentPhoto.documentDetectionResult s')).
Proof.
  intros Hd Hc. unfold Spec.composite_document, DocumentPhoto.detection_indicator,
    DocumentPhoto.CameraButton_isDisabled.
  rewrite Hd, Hc. simpl. repeat split.
  - intros ->. reflexivity.
  - apply orb_false_r.
  - intros s'. rewrite negb_orb, negb_involutive. reflexivity.
Qed.

Lemma camera_button_gated_on_detected_witness :
  let s := fst (DocumentPhoto.onResult Flows.far_result Flows.document_mounted) in
  DocumentPhoto.detection_indicator s = Some DocumentPhoto.MoveCloser
  /\ DocumentPhoto.CameraButton_isDisabled s = DocumentPhoto.isDisabled s.
Proof.
  destruct (camera_button_gated_on_detected
              (fst (DocumentPhoto.onResult Flows.far_result Flows.document_mounted))
              eq_refl eq_refl) as (_ & H2 & H3 & _).
  split; [apply H2; reflexivity | exact H3].
Defined.

(** C6.  The detectors themselves never reject, and a library exception
    becomes the "not detected" result; but the last clause of the property
    (the counter never advances on a failed frame) fails in the selfie flow: the result of a failed frame that follows a good one is
    handled with [faceReady] still true, and the counter goes from 0 to 1 on
    it. *)
Theorem failed_frame_advances_the_counter :
  let before := Selfie.deliver_all Selfie.mounted [Flows.good_result] in
  let after := Selfie.deliver before FaceDetection.notDetected in
  settled (Flows.face_detect Flows.good_frame) = Returns Flows.good_result
  /\ settled (Flows.face_detect Flows.failing_frame) = Returns FaceDetection.notDetected
  /\ Selfie.stableFrames before = 0
  /\ Selfie.stableFrames after = 1.
Proof. vm_compute. repeat split; reflexivity. Qed.

(** C7, as stated, fails: [validateDocumentImage] keeps no state, so two
    callers that validate the same still at the same time cause two scans. *)
Lemma concurrent_validations_scan_twice :
  detection_passes
    (libCalls
       (Spec.validate_concurrently "data:image/jpeg;base64,AAAA"
          (DocumentDetection.Onload 1920 1080)
          (Returns {| DocumentDetection.success := true;
                      DocumentDetection.scan_corners := Some Flows.far_corners |})))
  = 2%nat.
Proof. vm_compute. reflexivity. Qed.

(** C7, amended.  The guard is in the CheckDocument view: whatever events
    reach the component, at most one validation is pending and at most one
    detection pass is ever run for it; while [isValidating] holds, or once a
    result is stored, the reactive statement starts nothing; and a stored
    result is never replaced, so every reader sees the same outcome.
    [validateDocumentImage] itself keeps no state: whatever the image and
    whatever the scanner answers, a call runs one detection pass when the
    image loads and none when it does not, and two direct concurrent calls
    run two and none. *)
Theorem check_document_validates_once (es : list CheckDocument.Event)
    (s : CheckDocument.Component) :
  CheckDocument.run CheckDocument.created es = Some s ->
  (length (CheckDocument.pending s) <= 1)%nat
  /\ (detection_passes (CheckDocument.libLog s) <= 1)%nat
  /\ (CheckDocument.isValidating s = true -> CheckDocument.validate s = s)
  /\ (forall r, CheckDocument.validationResult s = Some r ->
        CheckDocument.validate s = s
        /\ forall es' s', CheckDocument.run s es' = Some s' ->
                          CheckDocument.validationResult s' = Some r)
  /\ (forall base64Image load scan,
        detection_passes
          (libCalls (DocumentDetection.validateDocumentImage base64Image load scan))
        = match load with
          | DocumentDetection.Onload _ _ => 1%nat
          | DocumentDetection.Onerror => 0%nat
          end
        /\ detection_passes
             (libCalls (Spec.validate_concurrently base64Image load scan))
           = match load with
             | DocumentDetection.Onload _ _ => 2%nat
             | DocumentDetection.Onerror => 0%nat
             end).
Proof.
  intros Hrun.
  assert (HI : CheckDocument.Inv s).
  { eapply view_Inv_run; [apply view_Inv_created | exact Hrun]. }
  split; [|split; [|split; [|split]]].
  - destruct HI as [Hp _ _ _ | img Hp _ _ _ | r Hp _ _ _]; rewrite Hp; simpl; lia.
  - destruct HI as [_ _ _ Hl | img _ _ _ Hl | r _ _ _ Hl]; [rewrite Hl; exact (Nat.le_0_l 1) ..|exact Hl].
  - apply validate_while_validating.
  - intros r Hr. split; [eapply validate_with_result; eauto|].
    intros es' s' Hrun'. eapply stored_result_stays; eauto.
  - intros img load scan. destruct load as [w h|]; [|split; reflexivity].
    destruct scan as [[[] [c|]]|]; split; vm_compute; reflexivity.
Qed.

Lemma check_document_validates_once_witness :
  exists s,
    CheckDocument.run CheckDocument.created
      [CheckDocument.SetImage "data:image/jpeg;base64,AAAA"; CheckDocument.Flush;
       CheckDocument.SetImage "data:image/jpeg;base64,AAAA";
       CheckDocument.Resolve 0 (DocumentDetection.Onload 1920 1080)
         (Returns {| DocumentDetection.success := true;
                     DocumentDetection.scan_corners := Some Flows.far_corners |});
       CheckDocument.Flush] = Some s
    /\ detection_passes (CheckDocument.libLog s) = 1%nat
    /\ (length (CheckDocument.pending s) <= 1)%nat
    /\ CheckDocument.validate s = s.
Proof.
  eexists. split; [vm_compute; reflexivity|].
  split; [vm_compute; reflexivity|].
  match goal with
  | |- (length (CheckDocument.pending ?s) <= _)%nat /\ _ =>
      destruct (check_document_validates_once
        [CheckDocument.SetImage "data:image/jpeg;base64,AAAA"; CheckDocument.Flush;
         CheckDocument.SetImage "data:image/jpeg;base64,AAAA";
         CheckDocument.Resolve 0 (DocumentDetection.Onload 1920 1080)
           (Returns {| DocumentDetection.success := true;
                       DocumentDetection.scan_corners := Some Flows.far_corners |});
         CheckDocument.Flush] s) as (H1 & _ & _ & H4 & _); [vm_compute; reflexivity|]
  end.
  split; [exact H1|]. exact (proj1 (H4 _ eq_refl)).
Defined.

(** C8.  Once a validation result is stored, the view shows: success exactly
    when [detected] and [confidence] hold, warning exactly when [detected]
    holds and [confidence] does not, failure exactly when [detected] does not
    hold; it shows one of the three. *)
Theorem validation_message_tri_state (s : CheckDocument.Component)
    (r : DocumentDetection.DocumentDetectionResult) :
  let m := CheckDocument.validation_message (CheckDocument.then_callback r s) in
  (m = Some CheckDocument.Success
   <-> DocumentDetection.detected r = true /\ DocumentDetection.confidence r = true)
  /\ (m = Some CheckDocument.Warning
      <-> DocumentDetection.detected r = true /\ DocumentDetection.confidence r = false)
  /\ (m = Some CheckDocument.Failure <-> DocumentDetection.detected r = false)
  /\ (m = Some CheckDocument.Success \/ m = Some CheckDocument.Warning
      \/ m = Some CheckDocument.Failure).
Proof.
  unfold CheckDocument.validation_message. simpl.
  destruct (DocumentDetection.detected r), (DocumentDetection.confidence r); simpl;
    repeat split; try tauto; try discriminate; try (intros [? ?]; discriminate); auto.
Qed.

(** C9.  The constants of the selfie page are the values of the
    specification's formulas ([REQUIRED_STABLE_FRAMES] is
    [ceil(5 * 1000 / 250) = 20], [FRAMES_PER_SECOND] is [1000 / 250]), and
    the countdown is [ceil((requiredSuccesses - stableFrames) /
    framesPerSecond)] of the counter.  But the counter is not the number of
    consecutive successes: the handler reads [faceReady] as the previous
    result left it, so that after [n] successes in a row, [n] from 1 to 20,
    the counter stands at [n - 1]; the countdown is 0 after the first and
    the formula's value for [n - 1] after the others.  After 15 successes it
    is 2, as the specification has it; after 16 it is still 2, where the
    formula gives 1. *)
Theorem selfie_countdown_lags_one_result (r : FaceDetection.FaceDetectionResult)
    (n : nat) :
  Spec.composite_face r = true -> (1 <= n <= 20)%nat ->
  let s := Selfie.deliver_all Selfie.mounted (replicate n r) in
  let required :=
    Spec.requiredSuccesses Selfie.COUNTDOWN_SECONDS Selfie.DETECTION_INTERVAL_MS in
  let fps := Spec.framesPerSecond Selfie.DETECTION_INTERVAL_MS in
  required = 20
  /\ (Selfie.REQUIRED_STABLE_FRAMES == inject_Z required)%Q
  /\ (Selfie.FRAMES_PER_SECOND == fps)%Q
  /\ Selfie.stableFrames s = Z.of_nat n - 1
  /\ Selfie.countdown s
     = (if (n =? 1)%nat then 0
        else Spec.secondsRemaining
               (Spec.framesRemaining required (Selfie.stableFrames s)) fps)
  /\ (n = 15%nat ->
      Selfie.countdown s = 2
      /\ Spec.secondsRemaining (Spec.framesRemaining required 15) fps = 2)
  /\ (n = 16%nat ->
      Selfie.countdown s = 2
      /\ Spec.secondsRemaining (Spec.framesRemaining required 16) fps = 1).
Proof.
  intros H Hn. cbv zeta. rewrite (deliver_all_composite _ _ _ H).
  assert (Hreq : Spec.requiredSuccesses Selfie.COUNTDOWN_SECONDS
                   Selfie.DETECTION_INTERVAL_MS = 20) by (vm_compute; reflexivity).
  rewrite Hreq.
  assert (Hall : forallb (fun k =>
            (Selfie.stableFrames
               (Selfie.deliver_all Selfie.mounted (replicate k Flows.all_true))
             =? Z.of_nat k - 1)
            && (Selfie.countdown
                  (Selfie.deliver_all Selfie.mounted (replicate k Flows.all_true))
                =? (if (k =? 1)%nat then 0
                    else Spec.secondsRemaining
                           (Spec.framesRemaining 20 (Z.of_nat k - 1))
                           (Spec.framesPerSecond Selfie.DETECTION_INTERVAL_MS))))
            (seq 1 20) = true) by (vm_compute; reflexivity).
  rewrite forallb_forall in Hall.
  specialize (Hall n ltac:(apply in_seq; lia)).
  apply andb_true_iff in Hall. destruct Hall as [Hs Hc].
  apply Z.eqb_eq in Hs. apply Z.eqb_eq in Hc.
  split; [reflexivity|]. split; [vm_compute; reflexivity|]. split; [reflexivity|].
  split; [exact Hs|]. split; [rewrite Hs; exact Hc|].
  split; intros ->; (split; [rewrite Hc|]; vm_compute; reflexivity).
Qed.

Lemma selfie_countdown_lags_one_result_witness :
  let s := Selfie.deliver_all Selfie.mounted (replicate 16 Flows.good_result) in
  Selfie.stableFrames s = 15
  /\ Selfie.countdown s = 2
  /\ Spec.secondsRemaining (Spec.framesRemaining 20 16) (Spec.framesPerSecond 250) = 1.
Proof.
  destruct (selfie_countdown_lags_one_result Flows.good_result 16)
    as (_ & _ & _ & H4 & _ & _ & H7); [reflexivity | lia |].
  split; [exact H4|]. exact (H7 eq_refl).
Defined.

(** C10, as stated, fails: the code compares rounded numbers.  On a
    1920 x 1080 image with a document 1908.2208588957055 wide and 163 high
    the area exceeds 15% of the frame area, and [confidence] is [false]: the
    product rounds to 311040, which is 15% of 2073600. *)
Lemma detectDocument_confidence_rounds :
  exists r,
    settled (DocumentDetection.detectDocument
               (DocumentDetection.ImageElement 1920 1080)
               (Returns {| DocumentDetection.success := true;
                           DocumentDetection.scan_corners :=
                             Some Samples.boundary_corners |})) = Returns r
    /\ DocumentDetection.detected r = true
    /\ DocumentDetection.confidence r = false
    /\ (0.15 * Spec.frameArea (DocumentDetection.ImageElement 1920 1080)
        < Spec.documentArea Samples.boundary_corners)%Q.
Proof.
  eexists. split; [vm_compute; reflexivity|].
  split; [reflexivity|]. split; reflexivity.
Qed.

(** C10, amended.  On a source the scanner is run on, when the scan
    succeeds and returns corners, [detectDocument] answers [detected = true]
    with those corners, and [confidence] is the comparison
    [docArea / frameArea > 0.15] of doubles: [docArea] is the rounded
    product of the larger of the two horizontal extents and the larger of
    the two vertical extents of the corners, [frameArea] the rounded product
    of the width and the height of the source, the quotient is rounded and
    compared with the double nearest to 0.15.  When the scan reports no
    success or no corners, it answers [detected = false], [corners = null],
    [confidence = false]. *)
Theorem detectDocument_confidence (source : DocumentDetection.Source)
    (res : DocumentDetection.ScanDocumentResult) :
  Spec.scannable source = true ->
  match DocumentDetection.success res, DocumentDetection.scan_corners res with
  | true, Some c =>
      exists r docWidth docHeight,
        settled (DocumentDetection.detectDocument source (Returns res)) = Returns r
        /\ DocumentDetection.detected r = true
        /\ DocumentDetection.corners r = Some c
        /\ Spec.larger_of
             (abs (px (DocumentDetection.topRight c) - px (DocumentDetection.topLeft c)))
             (abs (px (DocumentDetection.bottomRight c)
                   - px (DocumentDetection.bottomLeft c)))
             docWidth
        /\ Spec.larger_of
             (abs (py (DocumentDetection.bottomLeft c) - py (DocumentDetection.topLeft c)))
             (abs (py (DocumentDetection.bottomRight c)
                   - py (DocumentDetection.topRight c)))
             docHeight
        /\ DocumentDetection.confidence r
           = (0.15 <? docWidth * docHeight
                      / (Spec.frameWidth source * Spec.frameHeight source))%float
  | _, _ =>
      settled (DocumentDetection.detectDocument source (Returns res))
      = Returns DocumentDetection.notDetected
  end.
Proof.
  intros Hscan.
  unfold DocumentDetection.detectDocument.
  assert (Hready : match source with
                   | DocumentDetection.VideoElement video => negb (readyState video =? 4)
                   | _ => false
                   end = false).
  { destruct source as [v| |]; simpl in *; [rewrite Hscan|..]; reflexivity. }
  rewrite Hready.
  destruct res as [ok [c|]]; destruct ok; simpl; try reflexivity.
  eexists _, _, _. split; [reflexivity|]. simpl.
  split; [reflexivity|]. split; [reflexivity|].
  split; [apply js_max_is_larger|]. split; [apply js_max_is_larger|].
  destruct source; reflexivity.
Qed.

Lemma detectDocument_confidence_witness :
  exists r,
    settled (Flows.document_detect Flows.far_frame) = Returns r
    /\ DocumentDetection.detected r = true
    /\ DocumentDetection.confidence r = false.
Proof.
  destruct (detectDocument_confidence
              (DocumentDetection.VideoElement (Flows.document_video Flows.far_frame))
              {| DocumentDetection.success := true;
                 DocumentDetection.scan_corners := Some Flows.far_corners |})
    as (r & w & h & H1 & H2 & _ & _ & _ & _); [reflexivity|].
  exists r. split; [exact H1|]. split; [exact H2|].
  vm_compute in H1. injection H1 as <-. reflexivity.
Defined.

(** * Further properties of the code *)

(** ** [isFaceFrontal] *)

Section FaceServiceFacts.
Import FaceDetection.

Lemma index_Returns {A : Type} (a : list A) (i : nat) :
  (i < length a)%nat -> exists v, a !! i = Some v /\ index a i = Returns v.
Proof.
  intros H. destruct (lookup_lt_is_Some_2 a i H) as [v Hv].
  exists v. split; [exact Hv|]. unfold index. rewrite Hv. reflexivity.
Qed.

Lemma index_Throws {A : Type} (a : list A) (i : nat) :
  (length a <= i)%nat -> index a i = Throws.
Proof.
  intros H. unfold index. rewrite (lookup_ge_None_2 a i H). reflexivity.
Qed.

Lemma isFaceFrontal_Throws_length (positions : list Point) (tolerance : float) :
  isFaceFrontal positions tolerance = Throws <-> (length positions < 46)%nat.
Proof.
  unfold isFaceFrontal. split.
  - intros H. destruct (le_lt_dec 46 (length positions)) as [Hge|Hlt]; [|exact Hlt].
    exfalso.
    destruct (index_Returns positions 36 ltac:(lia)) as (p36 & _ & E36).
    destruct (index_Returns positions 39 ltac:(lia)) as (p39 & _ & E39).
    destruct (index_Returns positions 42 ltac:(lia)) as (p42 & _ & E42).
    destruct (index_Returns positions 45 ltac:(lia)) as (p45 & _ & E45).
    destruct (index_Returns positions 30 ltac:(lia)) as (p30 & _ & E30).
    destruct (index_Returns positions 0 ltac:(lia)) as (p0 & _ & E0).
    destruct (index_Returns positions 16 ltac:(lia)) as (p16 & _ & E16).
    rewrite E36, E39, E42, E45, E30, E0, E16 in H. simpl in H. discriminate.
  - intros Hlt. rewrite (index_Throws positions 45) by lia.
    destruct (index positions 36); [|reflexivity]. simpl.
    destruct (index positions 39); [|reflexivity]. simpl.
    destruct (index positions 42); reflexivity.
Qed.


(** The value of [isFaceFrontal] in terms of the seven abscissas it reads. *)
Lemma isFaceFrontal_on (positions : list Point) (tolerance : float)
    (p0 p16 p30 p36 p39 p42 p45 : Point) :
  positions !! 0%nat = Some p0 -> positions !! 16%nat = Some p16 ->
  positions !! 30%nat = Some p30 -> positions !! 36%nat = Some p36 ->
  positions !! 39%nat = Some p39 -> positions !! 42%nat = Some p42 ->
  positions !! 45%nat = Some p45 ->
  isFaceFrontal positions tolerance
  = Returns
      ((abs (px p30 - ((px p36 + px p39) / 2 + (px p42 + px p45) / 2) / 2)
        / abs ((px p42 + px p45) / 2 - (px p36 + px p39) / 2) <? tolerance)%float
       && (abs (abs (px p30 - px p0) - abs (px p16 - px p30))
           / (abs (px p30 - px p0) + abs (px p16 - px p30)) <? tolerance)%float).
Proof.
  intros H0 H16 H30 H36 H39 H42 H45. unfold isFaceFrontal, index.
  rewrite H0, H16, H30, H36, H39, H42, H45. reflexivity.
Qed.

(** X2: [isFaceFrontal] throws exactly when the landmark array has fewer
    than 46 positions, and its answer depends on the abscissas of the
    landmarks 0, 16, 30, 36, 39, 42 and 45 only: two arrays that agree on
    these seven numbers get the same answer, whatever their other landmarks
    and whatever their ordinates. *)
Theorem isFaceFrontal_reads_seven_abscissas (positions : list Point)
    (tolerance : float) :
  (isFaceFrontal positions tolerance = Throws <-> (length positions < 46)%nat)
  /\ (forall positions' : list Point,
        Forall (fun i => px <$> positions' !! i = px <$> positions !! i)
          [0; 16; 30; 36; 39; 42; 45]%nat ->
        isFaceFrontal positions' tolerance = isFaceFrontal positions tolerance).
Proof.
  split; [apply isFaceFrontal_Throws_length|].
  intros positions' H.
  repeat match goal with
         | H : Forall _ (_ :: _) |- _ =>
             apply Forall_cons in H; let E := fresh "E" in destruct H as [E H]
         end.
  clear H.
  destruct (le_lt_dec 46 (length positions)) as [Hge|Hlt].
  2:{ rewrite (proj2 (isFaceFrontal_Throws_length positions tolerance)) by exact Hlt.
      apply isFaceFrontal_Throws_length.
      rewrite (lookup_ge_None_2 positions 45) in E5 by lia.
      destruct (positions' !! 45%nat) eqn:E45; [discriminate|].
      apply lookup_ge_None_1 in E45. lia. }
  assert (Hget : forall i, (i < 46)%nat -> exists p, positions !! i = Some p).
  { intros i Hi. apply lookup_lt_is_Some_2. lia. }
  destruct (Hget 0%nat ltac:(lia)) as (p0 & H0).
  destruct (Hget 16%nat ltac:(lia)) as (p16 & H16).
  destruct (Hget 30%nat ltac:(lia)) as (p30 & H30).
  destruct (Hget 36%nat ltac:(lia)) as (p36 & H36).
  destruct (Hget 39%nat ltac:(lia)) as (p39 & H39).
  destruct (Hget 42%nat ltac:(lia)) as (p42 & H42).
  destruct (Hget 45%nat ltac:(lia)) as (p45 & H45).
  rewrite H0 in E. rewrite H16 in E0. rewrite H30 in E1. rewrite H36 in E2.
  rewrite H39 in E3. rewrite H42 in E4. rewrite H45 in E5.
  destruct (positions' !! 0%nat) as [q0|] eqn:G0; [|discriminate].
  destruct (positions' !! 16%nat) as [q16|] eqn:G16; [|discriminate].
  destruct (positions' !! 30%nat) as [q30|] eqn:G30; [|discriminate].
  destruct (positions' !! 36%nat) as [q36|] eqn:G36; [|discriminate].
  destruct (positions' !! 39%nat) as [q39|] eqn:G39; [|discriminate].
  destruct (positions' !! 42%nat) as [q42|] eqn:G42; [|discriminate].
  destruct (positions' !! 45%nat) as [q45|] eqn:G45; [|discriminate].
  simpl in E, E0, E1, E2, E3, E4, E5.
  injection E as E. injection E0 as E0. injection E1 as E1. injection E2 as E2.
  injection E3 as E3. injection E4 as E4. injection E5 as E5.
  rewrite (isFaceFrontal_on positions tolerance _ _ _ _ _ _ _ H0 H16 H30 H36 H39 H42 H45).
  rewrite (isFaceFrontal_on positions' tolerance _ _ _ _ _ _ _ G0 G16 G30 G36 G39 G42 G45).
  rewrite E, E0, E1, E2, E3, E4, E5. reflexivity.
Qed.

End FaceServiceFacts.

Lemma isFaceFrontal_reads_seven_abscissas_witness :
  length Samples.other_landmarks = 46%nat
  /\ Samples.other_landmarks <> take 46 (Flows.landmark <$> seq 0 68)
  /\ FaceDetection.isFaceFrontal Samples.other_landmarks 0.15
     = FaceDetection.isFaceFrontal (Flows.landmark <$> seq 0 68) 0.15.
Proof.
  split; [reflexivity|]. split; [discriminate|].
  apply (proj2 (isFaceFrontal_reads_seven_abscissas (Flows.landmark <$> seq 0 68) 0.15)).
  repeat constructor.
Defined.

(** ** [detectFace] *)

Section DetectFaceFacts.
Import FaceDetection.

Lemma Returns_inj {A : Type} (a b : A) : Returns a = Returns b -> a = b.
Proof. intros H. injection H as H. exact H. Qed.

(** [detectFace] past its two early returns, on a detection whose landmarks
    can be read. *)
Lemma detectFace_on (video : Video) (d : Detection) (tol : float) (f : bool) :
  readyState video = 4 -> isFaceFrontal (positions d) 0.15 = Returns f ->
  detectFace true video (Returns (Some d)) tol
  = Async [DetectSingleFace]
      (Returns
         {| detected := true;
            centered :=
              (abs (x (detection_box d) + width (detection_box d) / 2
                    - videoWidth video / 2)
               / (videoWidth video * 0.8) <? tol)%float
              && (abs (y (detection_box d) + height (detection_box d) / 2
                       - videoHeight video / 2)
                  / (videoWidth video * 0.8 * (4 / 3)) <? tol)%float;
            frontal := f;
            properSize :=
              (0.35 <=? width (detection_box d) / (videoWidth video * 0.8))%float
              && (width (detection_box d) / (videoWidth video * 0.8) <=? 0.85)%float;
            box := Some (detection_box d) |}).
Proof.
  intros Hr Hf. unfold detectFace. rewrite Hr. simpl.
  unfold try_catch, mbind, async_bind, lift. simpl. rewrite Hf. reflexivity.
Qed.

Lemma detectFace_malformed (video : Video) (d : Detection) (tol : float) :
  readyState video = 4 -> isFaceFrontal (positions d) 0.15 = Throws ->
  detectFace true video (Returns (Some d)) tol
  = Async [DetectSingleFace] (Returns notDetected).
Proof.
  intros Hr Hf. unfold detectFace. rewrite Hr. simpl.
  unfold try_catch, mbind, async_bind, lift. simpl. rewrite Hf. reflexivity.
Qed.

(** Every way through [detectFace]. *)
Lemma detectFace_cases (m : bool) (video : Video)
    (faceapi : outcome (option Detection)) (tol : float) :
  (detectFace m video faceapi tol = Async [] (Returns notDetected)
   /\ (m = false \/ readyState video <> 4))
  \/ (detectFace m video faceapi tol = Async [DetectSingleFace] (Returns notDetected)
      /\ m = true /\ readyState video = 4
      /\ (faceapi = Throws \/ faceapi = Returns None
          \/ exists d, faceapi = Returns (Some d) /\ (length (positions d) < 46)%nat))
  \/ (exists d f,
        faceapi = Returns (Some d) /\ m = true /\ readyState video = 4
        /\ isFaceFrontal (positions d) 0.15 = Returns f
        /\ (46 <= length (positions d))%nat
        /\ detectFace m video faceapi tol
           = detectFace true video (Returns (Some d)) tol
        /\ settled (detectFace m video faceapi tol) <> Throws
        /\ libCalls (detectFace m video faceapi tol) = [DetectSingleFace]).
Proof.
  destruct m.
  2:{ left. split; [reflexivity|auto]. }
  destruct (Z.eq_dec (readyState video) 4) as [Hr|Hr].
  2:{ left. split; [|auto]. unfold detectFace. simpl.
      destruct (Z.eqb_spec (readyState video) 4); [contradiction|reflexivity]. }
  destruct faceapi as [[d|]|].
  - destruct (isFaceFrontal (positions d) 0.15) as [f|] eqn:Hf.
    + right. right. exists d, f.
      assert (Hlen : (46 <= length (positions d))%nat).
      { destruct (le_lt_dec 46 (length (positions d))) as [H|H]; [exact H|].
        apply (isFaceFrontal_Throws_length _ 0.15) in H. congruence. }
      rewrite (detectFace_on video d tol f Hr Hf). simpl.
      repeat split; auto; try discriminate.
    + right. left. split; [apply detectFace_malformed; assumption|].
      split; [reflexivity|]. split; [exact Hr|]. right. right. exists d.
      split; [reflexivity|]. apply (isFaceFrontal_Throws_length _ 0.15). exact Hf.
  - right. left. split; [|auto]. unfold detectFace. rewrite Hr. reflexivity.
  - right. left. split; [|auto]. unfold detectFace. rewrite Hr. reflexivity.
Qed.

(** X3: [detectFace] never rejects and calls the face library at most once:
    not at all while the models are not loaded or the video has no decoded
    frame ([readyState] other than 4), once otherwise.  It answers
    "not detected" in those two cases, when the library throws, when the
    library finds no face, and when the detection it returns has fewer than
    the 46 landmarks [isFaceFrontal] reads. *)
Theorem detectFace_always_resolves (m : bool) (video : Video)
    (faceapi : outcome (option Detection)) (tol : float) :
  exists r,
    settled (detectFace m video faceapi tol) = Returns r
    /\ libCalls (detectFace m video faceapi tol)
       = (if m && (readyState video =? 4) then [DetectSingleFace] else [])
    /\ (m && (readyState video =? 4) = false -> r = notDetected)
    /\ (faceapi = Throws -> r = notDetected)
    /\ (faceapi = Returns None -> r = notDetected)
    /\ (forall d, faceapi = Returns (Some d) -> (length (positions d) < 46)%nat ->
        r = notDetected).
Proof.
  destruct (detectFace_cases m video faceapi tol)
    as [[E Hc] | [(E & -> & Hr & _) | (d & f & Ha & -> & Hr & Hf & Hlen & E & _)]].
  - rewrite E. exists notDetected. simpl.
    assert (Hg : m && (readyState video =? 4) = false).
    { destruct Hc as [-> | Hr]; [reflexivity|].
      destruct (Z.eqb_spec (readyState video) 4); [contradiction|].
      apply andb_false_r. }
    rewrite Hg. auto 10.
  - rewrite E, Hr. exists notDetected. simpl. auto 10.
  - rewrite E, (detectFace_on video d tol f Hr Hf), Hr. eexists.
    split; [reflexivity|]. split; [reflexivity|].
    subst faceapi. split; [discriminate|]. split; [discriminate|]. split; [discriminate|].
    intros d' [= <-] Hl. lia.
Qed.

(** X4: the shape of every answer of [detectFace]: without [detected] no other
    flag is set and there is no box; with [detected] the box is the
    library's. *)
Theorem detectFace_result_shape (m : bool) (video : Video)
    (faceapi : outcome (option Detection)) (tol : float) (r : FaceDetectionResult) :
  settled (detectFace m video faceapi tol) = Returns r ->
  (detected r = false -> r = notDetected)
  /\ (detected r = true ->
      exists d, faceapi = Returns (Some d) /\ box r = Some (detection_box d)
                /\ isFaceFrontal (positions d) 0.15 = Returns (frontal r)).
Proof.
  intros H.
  destruct (detectFace_cases m video faceapi tol)
    as [[E _] | [[E _] | (d & f & Ha & Hm & Hr & Hf & Hlen & E & _)]].
  - rewrite E in H. injection H as <-. split; [reflexivity|discriminate].
  - rewrite E in H. injection H as <-. split; [reflexivity|discriminate].
  - rewrite E, (detectFace_on video d tol f Hr Hf) in H. injection H as <-. simpl.
    split; [discriminate|]. intros _. exists d. auto.
Qed.

(** X6: on a video element of width zero no face is ever centered or of
    proper size. *)
Theorem detectFace_zero_width (m : bool) (video : Video)
    (faceapi : outcome (option Detection)) (tol : float) (r : FaceDetectionResult) :
  videoWidth video = 0%float ->
  settled (detectFace m video faceapi tol) = Returns r ->
  centered r = false /\ properSize r = false.
Proof.
  intros Hw H.
  destruct (detectFace_cases m video faceapi tol)
    as [[E _] | [[E _] | (d & f & Ha & Hm & Hr & Hf & Hlen & E & _)]].
  - rewrite E in H. injection H as <-. auto.
  - rewrite E in H. injection H as <-. auto.
  - rewrite E, (detectFace_on video d tol f Hr Hf) in H.
    lazy beta iota delta [settled] in H. apply Returns_inj in H. subst r.
    lazy beta iota delta [centered properSize]. rewrite Hw.
    change (0 * 0.8)%float with 0%float.
    split.
    + rewrite abs_div_zero_ltb. reflexivity.
    + apply div_zero_not_between; reflexivity.
Qed.

End DetectFaceFacts.

Lemma detectFace_result_shape_witness :
  settled (FaceDetection.detectFace true Samples.good_video
             (Returns (Some Samples.good_detection)) 0.08)
  = Returns Flows.good_result
  /\ exists d, Returns (Some Samples.good_detection) = Returns (Some d)
               /\ FaceDetection.box Flows.good_result
                  = Some (FaceDetection.detection_box d)
               /\ FaceDetection.isFaceFrontal (FaceDetection.positions d) 0.15
                  = Returns (FaceDetection.frontal Flows.good_result).
Proof.
  split; [vm_compute; reflexivity|].
  destruct (detectFace_result_shape true Samples.good_video
              (Returns (Some Samples.good_detection)) 0.08 Flows.good_result)
    as [_ H]; [vm_compute; reflexivity|].
  apply H. reflexivity.
Defined.

Lemma detectFace_zero_width_witness :
  exists r,
    settled (FaceDetection.detectFace true Samples.empty_video
               (Returns (Some Samples.good_detection)) 0.08) = Returns r
    /\ FaceDetection.detected r = true
    /\ FaceDetection.centered r = false /\ FaceDetection.properSize r = false.
Proof.
  eexists. split; [vm_compute; reflexivity|]. split; [reflexivity|].
  apply (detectFace_zero_width true Samples.empty_video
           (Returns (Some Samples.good_detection)) 0.08);
    vm_compute; reflexivity.
Defined.

(** ** Inputs that are not numbers *)

Section NaNFacts.
Import FaceDetection.

Lemma nan_add (a b : float) :
  PrimFloat.is_nan a || PrimFloat.is_nan b = true -> PrimFloat.is_nan (a + b) = true.
Proof.
  intros H. apply is_nan_spec. rewrite FloatAxioms.add_spec.
  apply orb_true_iff in H. destruct H as [H|H]; apply is_nan_spec in H; rewrite H;
    [reflexivity|]. destruct (Prim2SF a); reflexivity.
Qed.

Lemma nan_sub (a b : float) :
  PrimFloat.is_nan a || PrimFloat.is_nan b = true -> PrimFloat.is_nan (a - b) = true.
Proof.
  intros H. apply is_nan_spec. rewrite FloatAxioms.sub_spec.
  apply orb_true_iff in H. destruct H as [H|H]; apply is_nan_spec in H; rewrite H;
    [reflexivity|]. destruct (Prim2SF a); reflexivity.
Qed.

Lemma nan_mul (a b : float) :
  PrimFloat.is_nan a || PrimFloat.is_nan b = true -> PrimFloat.is_nan (a * b) = true.
Proof.
  intros H. apply is_nan_spec. rewrite FloatAxioms.mul_spec.
  apply orb_true_iff in H. destruct H as [H|H]; apply is_nan_spec in H; rewrite H;
    [reflexivity|]. destruct (Prim2SF a); reflexivity.
Qed.

Lemma nan_div (a b : float) :
  PrimFloat.is_nan a || PrimFloat.is_nan b = true -> PrimFloat.is_nan (a / b) = true.
Proof.
  intros H. apply is_nan_spec. rewrite FloatAxioms.div_spec.
  apply orb_true_iff in H. destruct H as [H|H]; apply is_nan_spec in H; rewrite H;
    [reflexivity|]. destruct (Prim2SF a); reflexivity.
Qed.

Lemma nan_abs (a : float) :
  PrimFloat.is_nan a = true -> PrimFloat.is_nan (abs a) = true.
Proof.
  intros H. apply is_nan_spec. rewrite FloatAxioms.abs_spec.
  apply is_nan_spec in H. rewrite H. reflexivity.
Qed.

Lemma nan_ltb (a t : float) : PrimFloat.is_nan a = true -> (a <? t)%float = false.
Proof.
  intros H. rewrite FloatAxioms.ltb_spec. apply is_nan_spec in H. rewrite H. reflexivity.
Qed.

Lemma ltb_nan (a t : float) : PrimFloat.is_nan t = true -> (a <? t)%float = false.
Proof.
  intros H. rewrite FloatAxioms.ltb_spec. apply is_nan_spec in H. rewrite H.
  unfold SFltb. destruct (Prim2SF a); reflexivity.
Qed.

Lemma nan_leb_l (a t : float) : PrimFloat.is_nan a = true -> (a <=? t)%float = false.
Proof.
  intros H. rewrite FloatAxioms.leb_spec. apply is_nan_spec in H. rewrite H. reflexivity.
Qed.

Lemma nan_leb_r (a t : float) : PrimFloat.is_nan a = true -> (t <=? a)%float = false.
Proof.
  intros H. rewrite FloatAxioms.leb_spec. apply is_nan_spec in H. rewrite H.
  unfold SFleb. destruct (Prim2SF t); reflexivity.
Qed.

Ltac nan_step :=
  first [ assumption
        | apply nan_abs
        | apply nan_add; apply orb_true_iff; (left + right)
        | apply nan_sub; apply orb_true_iff; (left + right)
        | apply nan_mul; apply orb_true_iff; (left + right)
        | apply nan_div; apply orb_true_iff; (left + right) ].

Ltac nan_solve := solve [ repeat nan_step ].

(** X31: a landmark that is not a number is never frontal: when the
    abscissa of one of the seven landmarks [isFaceFrontal] reads is NaN, it
    answers [false], whatever the other landmarks and the tolerance. *)
Theorem isFaceFrontal_nan_is_not_frontal (positions : list Point) (tolerance : float)
    (i : nat) (p : Point) :
  (46 <= length positions)%nat ->
  i ∈ [0; 16; 30; 36; 39; 42; 45]%nat ->
  positions !! i = Some p -> PrimFloat.is_nan (px p) = true ->
  isFaceFrontal positions tolerance = Returns false.
Proof.
  intros Hlen Hi Hp Hnan.
  assert (Hget : forall i, (i < 46)%nat -> exists p, positions !! i = Some p).
  { intros j Hj. apply lookup_lt_is_Some_2. lia. }
  destruct (Hget 0%nat ltac:(lia)) as (p0 & H0).
  destruct (Hget 16%nat ltac:(lia)) as (p16 & H16).
  destruct (Hget 30%nat ltac:(lia)) as (p30 & H30).
  destruct (Hget 36%nat ltac:(lia)) as (p36 & H36).
  destruct (Hget 39%nat ltac:(lia)) as (p39 & H39).
  destruct (Hget 42%nat ltac:(lia)) as (p42 & H42).
  destruct (Hget 45%nat ltac:(lia)) as (p45 & H45).
  rewrite (isFaceFrontal_on positions tolerance _ _ _ _ _ _ _ H0 H16 H30 H36 H39 H42 H45).
  f_equal.
  repeat (apply elem_of_cons in Hi; destruct Hi as [-> | Hi]);
    [..|apply elem_of_nil in Hi; contradiction];
    match goal with
    | H : positions !! _ = Some ?q |- _ =>
        rewrite H in Hp; injection Hp as ->
    end.
  all: apply andb_false_iff.
  - right. apply nan_ltb. nan_solve.
  - right. apply nan_ltb. nan_solve.
  - left. apply nan_ltb. nan_solve.
  - left. apply nan_ltb. nan_solve.
  - left. apply nan_ltb. nan_solve.
  - left. apply nan_ltb. nan_solve.
  - left. apply nan_ltb. nan_solve.
Qed.

(** X32: numbers that are not numbers never pass [detectFace]: when a
    coordinate of the box the library returns, a dimension of the video or
    the tolerance is NaN, the answer is not [centered]; when the width of
    the box or of the video is NaN, it is not [properSize]. *)
Theorem detectFace_nan_fails (m : bool) (video : Video)
    (faceapi : outcome (option Detection)) (tol : float) (r : FaceDetectionResult)
    (d : Detection) :
  settled (detectFace m video faceapi tol) = Returns r ->
  faceapi = Returns (Some d) ->
  let b := detection_box d in
  (PrimFloat.is_nan (x b) || PrimFloat.is_nan (y b) || PrimFloat.is_nan (width b)
   || PrimFloat.is_nan (height b) || PrimFloat.is_nan (videoWidth video)
   || PrimFloat.is_nan (videoHeight video) || PrimFloat.is_nan tol = true ->
   centered r = false)
  /\ (PrimFloat.is_nan (width b) || PrimFloat.is_nan (videoWidth video) = true ->
      properSize r = false).
Proof.
  intros H Ha. cbv zeta.
  destruct (detectFace_cases m video faceapi tol)
    as [[E _] | [[E _] | (d' & f & Ha' & Hm & Hr & Hf & Hlen & E & _)]].
  - rewrite E in H. injection H as <-. auto.
  - rewrite E in H. injection H as <-. auto.
  - rewrite Ha in Ha'. injection Ha' as <-.
    rewrite E, (detectFace_on video d tol f Hr Hf) in H.
    lazy beta iota delta [settled] in H. apply Returns_inj in H. subst r.
    lazy beta iota delta [centered properSize]. split.
    + intros Hn. apply andb_false_iff.
      repeat (apply orb_true_iff in Hn; destruct Hn as [Hn|Hn]).
      * left. apply nan_ltb. nan_solve.
      * right. apply nan_ltb. nan_solve.
      * left. apply nan_ltb. nan_solve.
      * right. apply nan_ltb. nan_solve.
      * left. apply nan_ltb. nan_solve.
      * right. apply nan_ltb. nan_solve.
      * left. apply ltb_nan. exact Hn.
    + intros Hn. apply andb_false_iff. left. apply nan_leb_r.
      apply orb_true_iff in Hn. destruct Hn as [Hn|Hn]; nan_solve.
Qed.

End NaNFacts.

Lemma isFaceFrontal_nan_is_not_frontal_witness :
  FaceDetection.isFaceFrontal
    (<[30%nat := {| px := nan; py := 260 |}]> (Flows.landmark <$> seq 0 68)) 0.15
  = Returns false.
Proof.
  apply (isFaceFrontal_nan_is_not_frontal _ 0.15 30 {| px := nan; py := 260 |}).
  - vm_compute. lia.
  - set_solver.
  - reflexivity.
  - reflexivity.
Defined.

Lemma detectFace_nan_fails_witness :
  exists r,
    settled (FaceDetection.detectFace true Samples.good_video
               (Returns (Some Samples.nan_detection)) 0.08) = Returns r
    /\ FaceDetection.detected r = true
    /\ FaceDetection.centered r = false /\ FaceDetection.properSize r = false.
Proof.
  eexists. split; [vm_compute; reflexivity|]. split; [reflexivity|].
  destruct (detectFace_nan_fails true Samples.good_video
              (Returns (Some Samples.nan_detection)) 0.08 _
              Samples.nan_detection ltac:(vm_compute; reflexivity) eq_refl)
    as [H1 H2].
  split; [apply H1|apply H2]; reflexivity.
Defined.

(** ** [detectDocument] and [validateDocumentImage] *)

Section DocumentServiceFacts.
Import DocumentDetection.

(** Every way through [detectDocument]. *)
Lemma detectDocument_cases (source : Source) (scan : outcome ScanDocumentResult) :
  (Spec.scannable source = false
   /\ detectDocument source scan = Async [] (Returns notDetected))
  \/ (Spec.scannable source = true
      /\ detectDocument source scan = Async [ScanDocument] (Returns notDetected)
      /\ (scan = Throws
          \/ exists res, scan = Returns res
                         /\ (success res = false \/ scan_corners res = None)))
  \/ (exists res c,
        Spec.scannable source = true /\ scan = Returns res
        /\ success res = true /\ scan_corners res = Some c
        /\ detectDocument source scan
           = Async [ScanDocument]
               (Returns {| detected := true; corners := Some c;
                           confidence := Quad.confident source c |})).
Proof.
  destruct (Spec.scannable source) eqn:Hs.
  2:{ left. split; [reflexivity|]. destruct source as [v| |]; try discriminate.
      simpl in Hs. unfold detectDocument. rewrite Hs. reflexivity. }
  right.
  assert (Hready : match source with
                   | VideoElement video => negb (readyState video =? 4)
                   | _ => false
                   end = false).
  { destruct source as [v| |]; simpl in *; [rewrite Hs|..]; reflexivity. }
  destruct scan as [res|].
  - destruct (success res) eqn:Hok; [destruct (scan_corners res) as [c|] eqn:Hc|].
    + right. exists res, c. repeat split; auto.
      unfold detectDocument. rewrite Hready.
      unfold try_catch, mbind, async_bind, lib_call. simpl. rewrite Hok, Hc.
      destruct source; reflexivity.
    + left. split; [reflexivity|]. split; [|right; exists res; auto].
      unfold detectDocument. rewrite Hready.
      unfold try_catch, mbind, async_bind, lib_call. simpl. rewrite Hok, Hc. reflexivity.
    + left. split; [reflexivity|]. split; [|right; exists res; auto].
      unfold detectDocument. rewrite Hready.
      unfold try_catch, mbind, async_bind, lib_call. simpl. rewrite Hok. reflexivity.
  - left. split; [reflexivity|]. split; [|auto].
    unfold detectDocument. rewrite Hready. reflexivity.
Qed.

(** X7: [detectDocument] never rejects and runs the scanner at most once: not
    at all on a video without a decoded frame, once on anything else; it
    answers "not detected" on such a video and when the scanner throws. *)
Theorem detectDocument_always_resolves (source : Source)
    (scan : outcome ScanDocumentResult) :
  exists r,
    settled (detectDocument source scan) = Returns r
    /\ libCalls (detectDocument source scan)
       = (if Spec.scannable source then [ScanDocument] else [])
    /\ (Spec.scannable source = false -> r = notDetected)
    /\ (scan = Throws -> r = notDetected).
Proof.
  destruct (detectDocument_cases source scan)
    as [[Hs E] | [(Hs & E & _) | (res & c & Hs & Hsc & _ & _ & E)]];
    rewrite E, Hs; eexists; (split; [reflexivity|]); (split; [reflexivity|]);
    split; try discriminate; auto.
  subst scan. discriminate.
Qed.

(** X8: the shape of every answer of [detectDocument]: without [detected]
    there are no corners and no confidence; with [detected] the scan
    succeeded and the corners are the scanner's; [confidence] is never set
    without [detected]. *)
Theorem detectDocument_result_shape (source : Source)
    (scan : outcome ScanDocumentResult) (r : DocumentDetectionResult) :
  settled (detectDocument source scan) = Returns r ->
  (detected r = false -> r = notDetected)
  /\ (detected r = true ->
      exists res c, scan = Returns res /\ success res = true
                    /\ scan_corners res = Some c /\ corners r = Some c)
  /\ (confidence r = true -> detected r = true).
Proof.
  intros H.
  destruct (detectDocument_cases source scan)
    as [[Hs E] | [(Hs & E & _) | (res & c & Hs & Hsc & Hok & Hc & E)]];
    rewrite E in H; lazy beta iota delta [settled] in H;
    apply Returns_inj in H; subst r.
  - repeat split; auto; discriminate.
  - repeat split; auto; discriminate.
  - split; [discriminate|]. split; [|reflexivity].
    intros _. exists res, c. auto.
Qed.

Lemma detectDocument_found (source : Source) (c : Corners) :
  Spec.scannable source = true ->
  detectDocument source (Returns {| success := true; scan_corners := Some c |})
  = Async [ScanDocument]
      (Returns {| detected := true; corners := Some c;
                  confidence := Quad.confident source c |}).
Proof.
  intros Hs.
  destruct (detectDocument_cases source (Returns {| success := true; scan_corners := Some c |}))
    as [[Hs' _] | [(_ & _ & HH) | (res & c0 & _ & Hsc & _ & Hc & E)]].
  - congruence.
  - exfalso. destruct HH as [HH|(res & [= <-] & [HH|HH])]; simpl in HH; congruence.
  - injection Hsc as <-. simpl in Hc. injection Hc as <-. exact E.
Qed.

(** X9: the answer of [detectDocument] does not depend on where in the frame
    the document lies: moving the four corners by the same vector, so that
    the moved coordinates are again doubles, leaves [detected] and
    [confidence] as they were. *)
Theorem detectDocument_translation (source : Source) (ok : bool) (c c' : Corners)
    (dx dy : Q) (r r' : DocumentDetectionResult) :
  Quad.moved dx dy (topLeft c) (topLeft c') ->
  Quad.moved dx dy (topRight c) (topRight c') ->
  Quad.moved dx dy (bottomRight c) (bottomRight c') ->
  Quad.moved dx dy (bottomLeft c) (bottomLeft c') ->
  settled (detectDocument source
             (Returns {| success := ok; scan_corners := Some c |})) = Returns r ->
  settled (detectDocument source
             (Returns {| success := ok; scan_corners := Some c' |})) = Returns r' ->
  detected r' = detected r /\ confidence r' = confidence r.
Proof.
  intros Htl Htr Hbr Hbl H H'.
  destruct (Spec.scannable source) eqn:Hs; [destruct ok|].
  - rewrite (detectDocument_found source c Hs) in H.
    rewrite (detectDocument_found source c' Hs) in H'.
    lazy beta iota delta [settled] in H, H'.
    apply Returns_inj in H. apply Returns_inj in H'. subst r r'.
    split; [reflexivity|].
    lazy beta iota delta [confidence]. unfold Quad.confident.
    destruct Htl as (Ftlx & Ftly & Ftlx' & Ftly' & Etlx & Etly).
    destruct Htr as (Ftrx & Ftry & Ftrx' & Ftry' & Etrx & Etry).
    destruct Hbr as (Fbrx & Fbry & Fbrx' & Fbry' & Ebrx & Ebry).
    destruct Hbl as (Fblx & Fbly & Fblx' & Fbly' & Eblx & Ebly).
    rewrite (abs_sub_translate (px (topRight c)) (px (topLeft c))
               (px (topRight c')) (px (topLeft c')))
      by (try assumption; rewrite Etrx, Etlx; ring).
    rewrite (abs_sub_translate (px (bottomRight c)) (px (bottomLeft c))
               (px (bottomRight c')) (px (bottomLeft c')))
      by (try assumption; rewrite Ebrx, Eblx; ring).
    rewrite (abs_sub_translate (py (bottomLeft c)) (py (topLeft c))
               (py (bottomLeft c')) (py (topLeft c')))
      by (try assumption; rewrite Ebly, Etly; ring).
    rewrite (abs_sub_translate (py (bottomRight c)) (py (topRight c))
               (py (bottomRight c')) (py (topRight c')))
      by (try assumption; rewrite Ebry, Etry; ring).
    reflexivity.
  - destruct (detectDocument_cases source (Returns {| success := false; scan_corners := Some c |}))
      as [[Hs1 _] | [(_ & E & _) | (res & c0 & _ & Hsc & Hok & _ & _)]];
      [congruence | | injection Hsc as <-; discriminate].
    destruct (detectDocument_cases source (Returns {| success := false; scan_corners := Some c' |}))
      as [[Hs1 _] | [(_ & E' & _) | (res & c0 & _ & Hsc & Hok & _ & _)]];
      [congruence | | injection Hsc as <-; discriminate].
    rewrite E in H. rewrite E' in H'.
    lazy beta iota delta [settled] in H, H'.
    apply Returns_inj in H. apply Returns_inj in H'. subst r r'. auto.
  - destruct (detectDocument_cases source (Returns {| success := ok; scan_corners := Some c |}))
      as [[_ E] | [(Hs1 & _) | (res & c0 & Hs1 & _)]]; [|congruence..].
    destruct (detectDocument_cases source (Returns {| success := ok; scan_corners := Some c' |}))
      as [[_ E'] | [(Hs1 & _) | (res & c0 & Hs1 & _)]]; [|congruence..].
    rewrite E in H. rewrite E' in H'.
    lazy beta iota delta [settled] in H, H'.
    apply Returns_inj in H. apply Returns_inj in H'. subst r r'. auto.
Qed.

(** X10: [validateDocumentImage] never rejects.  When the image fails to load
    it answers "not detected" without running the scanner; when it loads,
    it answers what [detectDocument] answers on the image, after one scan. *)
Theorem validateDocumentImage_cases (base64Image : string) (load : ImageLoad)
    (scan : outcome ScanDocumentResult) :
  match load with
  | Onerror =>
      validateDocumentImage base64Image load scan
      = Async [LoadImage] (Returns notDetected)
  | Onload w h =>
      settled (validateDocumentImage base64Image load scan)
      = settled (detectDocument (ImageElement w h) scan)
      /\ settled (validateDocumentImage base64Image load scan) <> Throws
      /\ libCalls (validateDocumentImage base64Image load scan)
         = [LoadImage; ScanDocument]
  end.
Proof.
  destruct load as [w h|]; [|reflexivity].
  destruct (detectDocument_cases (ImageElement w h) scan)
    as [[Hs E] | [(Hs & E & _) | (res & c & Hs & Hsc & _ & _ & E)]];
    [discriminate|..];
    unfold validateDocumentImage, mbind, async_bind, lib_call;
    lazy beta iota delta [settled libCalls]; rewrite E;
    lazy beta iota delta [settled libCalls];
    repeat split; try reflexivity; discriminate.
Qed.

End DocumentServiceFacts.

Lemma detectDocument_result_shape_witness :
  settled (Flows.document_detect Flows.far_frame) = Returns Flows.far_result
  /\ exists res c,
       Flows.scan Flows.far_frame = Returns res
       /\ DocumentDetection.success res = true
       /\ DocumentDetection.scan_corners res = Some c
       /\ DocumentDetection.corners Flows.far_result = Some c.
Proof.
  split; [vm_compute; reflexivity|].
  destruct (detectDocument_result_shape
              (DocumentDetection.VideoElement (Flows.document_video Flows.far_frame))
              (Flows.scan Flows.far_frame) Flows.far_result) as (_ & H & _);
    [vm_compute; reflexivity|].
  apply H. reflexivity.
Defined.

Lemma detectDocument_translation_witness :
  exists r r',
    settled (Flows.document_detect Flows.far_frame) = Returns r
    /\ settled (DocumentDetection.detectDocument
                  (DocumentDetection.VideoElement (Flows.document_video Flows.far_frame))
                  (Returns {| DocumentDetection.success := true;
                              DocumentDetection.scan_corners :=
                                Some Samples.moved_corners |})) = Returns r'
    /\ DocumentDetection.corners r' <> DocumentDetection.corners r
    /\ DocumentDetection.detected r' = DocumentDetection.detected r
    /\ DocumentDetection.confidence r' = DocumentDetection.confidence r.
Proof.
  eexists _, _. split; [vm_compute; reflexivity|]. split; [vm_compute; reflexivity|].
  split; [discriminate|].
  apply (detectDocument_translation
           (DocumentDetection.VideoElement (Flows.document_video Flows.far_frame))
           true Flows.far_corners Samples.moved_corners 700 300);
    try (vm_compute; reflexivity);
    repeat split; vm_compute; reflexivity.
Defined.

(** ** The detection loops *)

Section MoreLoopFacts.
Import DetectionLoop.
Context {Input Result Client : Type}.
Variable detect : Input -> async Result.
Variable onResult : Result -> Client -> Client * bool.
Variable intervalMs : Z.

#[local] Abbreviation LoopState := (Loop Input Result Client).

Lemma stopped_run_silent (es : list (Event Input)) (l l' : LoopState) :
  isRunning l = false -> run detect onResult intervalMs l es = Some l' ->
  isRunning l' = false /\ client l' = client l
  /\ deliveries l' = deliveries l /\ invocations l' = invocations l
  /\ schedulings l' = schedulings l.
Proof.
  revert l. induction es as [|e es IH]; intros l Hr Hrun; simpl in Hrun.
  - injection Hrun as <-. auto.
  - destruct (step detect onResult intervalMs l e) as [l1|] eqn:Hs; [|discriminate].
    destruct (stopped_is_final detect onResult intervalMs l l1 e Hr Hs)
      as (H1 & H2 & H3 & H4 & H5).
    destruct (IH l1 H1 Hrun) as (G1 & G2 & G3 & G4 & G5).
    repeat split; congruence.
Qed.

Lemma no_timer_stays (l l' : LoopState) (e : Event Input) :
  isRunning l = false -> timers l = ∅ ->
  step detect onResult intervalMs l e = Some l' -> timers l' = ∅.
Proof.
  intros Hr Ht Hs. destruct e as [k t | id i t | t]; simpl in Hs.
  - destruct (calls l !! k) as [c|]; [|discriminate].
    destruct (settledAt c); [discriminate|].
    destruct (clock l <=? t); [|discriminate].
    destruct (settled (detect (input c))) as [result|]; injection Hs as <-.
    + unfold runDetection_resume. simpl. rewrite Hr. exact Ht.
    + exact Ht.
  - rewrite Ht, lookup_empty in Hs. discriminate.
  - destruct (clock l <=? t); [|discriminate]. injection Hs as <-.
    destruct (cleanup_fields (advance t l)) as (_ & _ & _ & _ & _ & _ & H7 & _).
    apply map_eq. intros id. rewrite lookup_empty.
    destruct (timers (cleanup (advance t l)) !! id) eqn:E; [|reflexivity].
    apply H7 in E. simpl in E. rewrite Ht, lookup_empty in E. discriminate.
Qed.

Lemma no_timer_stays_run (es : list (Event Input)) (l l' : LoopState) :
  isRunning l = false -> timers l = ∅ ->
  run detect onResult intervalMs l es = Some l' -> timers l' = ∅.
Proof.
  revert l. induction es as [|e es IH]; intros l Hr Ht Hrun; simpl in Hrun.
  - injection Hrun as <-. exact Ht.
  - destruct (step detect onResult intervalMs l e) as [l1|] eqn:Hs; [|discriminate].
    apply (IH l1); [|eapply no_timer_stays; eauto|exact Hrun].
    destruct (stopped_is_final detect onResult intervalMs l l1 e Hr Hs) as (H1 & _).
    exact H1.
Qed.

(** X11: when the owner of a loop calls the cleanup function (between two
    events, as [onDestroy] does), the pending timer is cancelled, and from
    then on no timer is active, no result is delivered (that of a call in
    flight included), the detector is not called and nothing is scheduled. *)
Theorem owner_cleanup_is_final (i : Input) (t0 : Z) (c0 : Client)
    (es es' : list (Event Input)) (t : Z) (l l' : LoopState) :
  run detect onResult intervalMs (create i t0 c0) es = Some l ->
  run detect onResult intervalMs l (Cleanup t :: es') = Some l' ->
  isRunning l' = false /\ timers l' = ∅ /\ client l' = client l
  /\ deliveries l' = deliveries l /\ invocations l' = invocations l
  /\ schedulings l' = schedulings l.
Proof.
  intros Hrun Hrun'.
  assert (HI : Inv intervalMs l).
  { eapply loop_Inv_run; [apply loop_Inv_create | exact Hrun]. }
  simpl in Hrun'. destruct (clock l <=? t); [|discriminate].
  set (l1 := cleanup (advance t l)) in *.
  destruct (cleanup_fields (advance t l)) as (H1 & H2 & H3 & _ & H5 & _ & H7 & H8).
  fold l1 in H1, H2, H3, H5, H7, H8.
  assert (Ht1 : timers l1 = ∅).
  { apply map_eq. intros id. rewrite lookup_empty.
    destruct (timers l1 !! id) as [due|] eqn:E; [|reflexivity]. exfalso.
    pose proof (H7 _ _ E) as E0. simpl in E0.
    destruct (inv_timers _ _ HI _ _ E0) as (Hid & Hne & _).
    subst l1. unfold cleanup in E. simpl in E. rewrite Hid in E.
    destruct (Nat.eqb_spec id 0); [contradiction|]. simpl in E.
    rewrite lookup_delete_eq in E. discriminate. }
  destruct (stopped_run_silent es' l1 l' H1 Hrun') as (G1 & G2 & G3 & G4 & G5).
  pose proof (no_timer_stays_run es' l1 l' H1 Ht1 Hrun') as G0.
  assert (K2 : client l' = client l) by (rewrite G2, H5; reflexivity).
  assert (K3 : deliveries l' = deliveries l)
    by (rewrite G3; unfold deliveries; rewrite H8; reflexivity).
  assert (K4 : invocations l' = invocations l)
    by (rewrite G4; unfold invocations; rewrite H3; reflexivity).
  assert (K5 : schedulings l' = schedulings l)
    by (rewrite G5; unfold schedulings; rewrite H8; reflexivity).
  exact (conj G1 (conj G0 (conj K2 (conj K3 (conj K4 K5))))).
Qed.

Lemma pending_at_most_one (i : Input) (t0 : Z) (c0 : Client)
    (es : list (Event Input)) (l : LoopState) :
  run detect onResult intervalMs (create i t0 c0) es = Some l ->
  (size (timers l) + length (outstanding l) <= 1)%nat
  /\ (forall id due, timers l !! id = Some due -> timeoutId l = Some id /\ id <> 0%nat).
Proof.
  intros Hrun.
  assert (HI : Inv intervalMs l).
  { eapply loop_Inv_run; [apply loop_Inv_create | exact Hrun]. }
  split.
  2:{ intros id due H. destruct (inv_timers _ _ HI _ _ H) as (H1 & H2 & _). auto. }
  pose proof (outstanding_at_most_one intervalMs l HI) as Hout.
  destruct (decide (timers l = ∅)) as [He|Hne].
  - rewrite He, map_size_empty. simpl. exact Hout.
  - destruct (map_choose _ Hne) as (id & due & Hid).
    destruct (inv_timers _ _ HI _ _ Hid) as (Htid & _ & c & rest & s & Hc & Hs & _).
    assert (Hsingle : timers l = {[ id := due ]}).
    { apply map_eq. intros j. destruct (decide (j = id)) as [->|Hj].
      - rewrite lookup_singleton_eq. exact Hid.
      - rewrite lookup_singleton_ne by congruence.
        destruct (timers l !! j) as [d|] eqn:Ej; [|reflexivity].
        destruct (inv_timers _ _ HI _ _ Ej) as (Htj & _). congruence. }
    rewrite Hsingle, map_size_singleton.
    assert (Hno : outstanding l = []).
    { unfold outstanding. rewrite Hc. simpl. unfold is_outstanding at 1. rewrite Hs.
      pose proof (inv_older _ _ HI _ _ Hc) as Hold.
      clear Hc. induction Hold as [|c' rest' Hc' _ IH]; [reflexivity|].
      simpl. rewrite Hc'. exact IH. }
    rewrite Hno. simpl. lia.
Qed.


Lemma answered_settle_head (c : Call Input) (rest : list (Call Input)) (t : Z) :
  omap (Delivery.answered detect)
       ({| invokedAt := invokedAt c; input := input c; settledAt := Some t |} :: rest)
  = match settled (detect (input c)) with
    | Returns r => r :: omap (Delivery.answered detect) rest
    | Throws => omap (Delivery.answered detect) rest
    end.
Proof.
  simpl. unfold Delivery.answered at 1. simpl.
  destruct (settled (detect (input c))); reflexivity.
Qed.

Lemma answered_in_flight (c : Call Input) (rest : list (Call Input)) :
  settledAt c = None ->
  omap (Delivery.answered detect) (c :: rest) = omap (Delivery.answered detect) rest.
Proof.
  intros H. simpl. unfold Delivery.answered at 1. rewrite H. reflexivity.
Qed.

Lemma resume_delivers (l : LoopState) (result : Result) :
  isRunning l = true ->
  deliveries (runDetection_resume onResult intervalMs result l) = result :: deliveries l
  /\ calls (runDetection_resume onResult intervalMs result l) = calls l.
Proof.
  intros Hr. unfold runDetection_resume. rewrite Hr.
  destruct (onResult result (client l)) as [cl stops].
  set (l1 := observe (Delivered (clock l) result) _).
  assert (H1 : deliveries l1 = result :: deliveries l /\ calls l1 = calls l)
    by (split; reflexivity).
  destruct H1 as [Hd1 Hc1].
  assert (H2 : deliveries (if stops then cleanup l1 else l1) = result :: deliveries l
               /\ calls (if stops then cleanup l1 else l1) = calls l).
  { destruct stops; [|auto].
    destruct (cleanup_fields l1) as (_ & _ & H3 & _ & _ & _ & _ & H8).
    split; [|congruence]. unfold deliveries in *. rewrite H8. simpl. exact Hd1. }
  destruct H2 as [Hd2 Hc2].
  unfold setTimeout. simpl. split; [|exact Hc2].
  unfold deliveries in *. simpl. exact Hd2.
Qed.

Lemma deliveries_step (l l' : LoopState) (e : Event Input) :
  Inv intervalMs l -> step detect onResult intervalMs l e = Some l' ->
  deliveries l `suffix_of` omap (Delivery.answered detect) (calls l) ->
  (isRunning l = true -> deliveries l = omap (Delivery.answered detect) (calls l)) ->
  deliveries l' `suffix_of` omap (Delivery.answered detect) (calls l')
  /\ (isRunning l' = true -> deliveries l' = omap (Delivery.answered detect) (calls l')).
Proof.
  intros HI Hs Hsuf Heq. destruct e as [k t | id i t | t]; simpl in Hs.
  - destruct (calls l !! k) as [c|] eqn:Hk; [|discriminate].
    destruct (settledAt c) eqn:Hc; [discriminate|].
    destruct (clock l <=? t); [|discriminate].
    destruct (loop_outstanding_newest intervalMs l k c HI Hk Hc) as (-> & rest & E).
    rewrite E in Hsuf, Heq. rewrite (answered_in_flight c rest Hc) in Hsuf, Heq.
    pose proof (answered_settle_head c rest t) as Hhead.
    set (l1 := settle_call 0 t (advance t l)) in *.
    assert (Hc1 : calls l1
                  = {| invokedAt := invokedAt c; input := input c; settledAt := Some t |}
                    :: rest).
    { subst l1. simpl. rewrite E. reflexivity. }
    assert (Hd1 : deliveries l1 = deliveries l) by reflexivity.
    assert (Hr1 : isRunning l1 = isRunning l) by reflexivity.
    destruct (settled (detect (input c))) as [result|]; injection Hs as <-.
    + destruct (isRunning l) eqn:Hr.
      * destruct (resume_delivers l1 result Hr1) as [Hd Hcs].
        rewrite Hd, Hcs, Hc1, Hhead, Hd1, (Heq eq_refl). auto.
      * unfold runDetection_resume. rewrite Hr1.
        rewrite Hc1, Hhead, Hd1, Hr1.
        split; [|discriminate]. apply suffix_cons_r. exact Hsuf.
    + change (deliveries (observe (Rejected t) l1)) with (deliveries l1).
      change (calls (observe (Rejected t) l1)) with (calls l1).
      change (isRunning (observe (Rejected t) l1)) with (isRunning l1).
      rewrite Hc1, Hhead, Hd1, Hr1. auto.
  - destruct (timers l !! id) as [due|]; [|discriminate].
    destruct ((due <=? t) && (clock l <=? t)); [|discriminate].
    injection Hs as <-. unfold runDetection. simpl.
    destruct (isRunning l) eqn:Hr; simpl.
    + unfold deliveries. simpl. fold (deliveries l). auto.
    + split; [exact Hsuf | rewrite Hr; discriminate].
  - destruct (clock l <=? t); [|discriminate]. injection Hs as <-.
    destruct (cleanup_fields (advance t l)) as (H1 & _ & H3 & _ & _ & _ & _ & H8).
    unfold deliveries. rewrite H1, H3, H8. simpl. fold (deliveries l).
    split; [exact Hsuf|discriminate].
Qed.

(** X12: results reach the callback in call order and once each: the results
    delivered so far are those of the oldest settled calls, in the order of
    the calls, and while the loop is running they are those of all settled
    calls. *)
Theorem deliveries_in_call_order (i : Input) (t0 : Z) (c0 : Client)
    (es : list (Event Input)) (l : LoopState) :
  run detect onResult intervalMs (create i t0 c0) es = Some l ->
  deliveries l `suffix_of` omap (Delivery.answered detect) (calls l)
  /\ (isRunning l = true -> deliveries l = omap (Delivery.answered detect) (calls l)).
Proof.
  assert (Hgen : forall es (l0 l1 : LoopState),
            Inv intervalMs l0 ->
            deliveries l0 `suffix_of` omap (Delivery.answered detect) (calls l0)
            /\ (isRunning l0 = true ->
                deliveries l0 = omap (Delivery.answered detect) (calls l0)) ->
            run detect onResult intervalMs l0 es = Some l1 ->
            deliveries l1 `suffix_of` omap (Delivery.answered detect) (calls l1)
            /\ (isRunning l1 = true ->
                deliveries l1 = omap (Delivery.answered detect) (calls l1))).
  { clear es l. induction es as [|e es IH]; intros l0 l1 HI [H1 H2] Hrun; simpl in Hrun.
    - injection Hrun as <-. auto.
    - destruct (step detect onResult intervalMs l0 e) as [l2|] eqn:Hs; [|discriminate].
      apply (IH l2 l1); [eapply loop_Inv_step; eauto| |exact Hrun].
      eapply deliveries_step; eauto. }
  intros Hrun. apply (Hgen es (create i t0 c0) l); [apply loop_Inv_create| |exact Hrun].
  unfold create, runDetection, deliveries. simpl. split; [reflexivity|reflexivity].
Qed.

Lemma pending_step (l l' : LoopState) (e : Event Input) :
  (forall i, settled (detect i) <> Throws) ->
  Inv intervalMs l -> step detect onResult intervalMs l e = Some l' ->
  (isRunning l = true -> outstanding l <> [] \/ timers l <> ∅) ->
  isRunning l' = true -> outstanding l' <> [] \/ timers l' <> ∅.
Proof.
  intros Hd HI Hs Hp Hr'. destruct e as [k t | id i t | t]; simpl in Hs.
  - destruct (calls l !! k) as [c|] eqn:Hk; [|discriminate].
    destruct (settledAt c) eqn:Hc; [discriminate|].
    destruct (clock l <=? t); [|discriminate].
    destruct (settled (detect (input c))) as [result|] eqn:Hres;
      [|exfalso; exact (Hd _ Hres)].
    injection Hs as <-. right.
    assert (Hrun : isRunning l = true).
    { destruct (isRunning l) eqn:E; [reflexivity|].
      unfold runDetection_resume in Hr'. simpl in Hr'. rewrite E in Hr'.
      simpl in Hr'. congruence. }
    set (l1 := settle_call k t (advance t l)) in *.
    assert (Hrun1 : isRunning l1 = true) by exact Hrun.
    destruct (resume_schedules onResult intervalMs l1 result Hrun1) as [Ht _].
    intros He. rewrite He, lookup_empty in Ht. discriminate.
  - destruct (timers l !! id) as [due|]; [|discriminate].
    destruct ((due <=? t) && (clock l <=? t)); [|discriminate].
    injection Hs as <-. unfold runDetection in *. simpl in *.
    destruct (isRunning l) eqn:Hr; simpl in *; [|congruence].
    left. unfold outstanding. simpl. discriminate.
  - destruct (clock l <=? t); [|discriminate]. injection Hs as <-.
    destruct (cleanup_fields (advance t l)) as (H1 & _). congruence.
Qed.

Lemma running_loop_is_never_idle (i : Input) (t0 : Z) (c0 : Client)
    (es : list (Event Input)) (l : LoopState) :
  (forall i, settled (detect i) <> Throws) ->
  run detect onResult intervalMs (create i t0 c0) es = Some l ->
  isRunning l = true ->
  (size (timers l) + length (outstanding l) = 1)%nat.
Proof.
  intros Hd Hrun Hr.
  assert (Hgen : forall es (l0 l1 : LoopState),
            Inv intervalMs l0 ->
            (isRunning l0 = true -> outstanding l0 <> [] \/ timers l0 <> ∅) ->
            run detect onResult intervalMs l0 es = Some l1 ->
            isRunning l1 = true -> outstanding l1 <> [] \/ timers l1 <> ∅).
  { clear es l Hrun Hr. induction es as [|e es IH]; intros l0 l1 HI H0 Hrun;
      simpl in Hrun.
    - injection Hrun as <-. exact H0.
    - destruct (step detect onResult intervalMs l0 e) as [l2|] eqn:Hs; [|discriminate].
      apply (IH l2 l1); [eapply loop_Inv_step; eauto| |exact Hrun].
      eapply pending_step; eauto. }
  assert (Hsome : outstanding l <> [] \/ timers l <> ∅).
  { apply (Hgen es (create i t0 c0) l); [apply loop_Inv_create| |exact Hrun|exact Hr].
    intros _. left. unfold create, runDetection, outstanding. simpl. discriminate. }
  destruct (pending_at_most_one i t0 c0 es l Hrun) as [Hle _].
  destruct Hsome as [Ho|Ht].
  - destruct (outstanding l); [contradiction|]. simpl in *. lia.
  - assert (size (timers l) <> 0)%nat by (intros E; apply map_size_empty_inv in E; contradiction).
    lia.
Qed.

Lemma resume_client (l : LoopState) (result : Result) :
  isRunning l = true ->
  client (runDetection_resume onResult intervalMs result l)
  = fst (onResult result (client l))
  /\ isRunning (runDetection_resume onResult intervalMs result l)
     = negb (snd (onResult result (client l))).
Proof.
  intros Hr. unfold runDetection_resume. rewrite Hr.
  destruct (onResult result (client l)) as [cl stops].
  set (l1 := observe (Delivered (clock l) result) _).
  destruct stops; simpl.
  - destruct (cleanup_fields l1) as (H1 & _ & _ & _ & H5 & _).
    rewrite H1, H5. auto.
  - auto.
Qed.

(** One event either leaves the callback's state and the deliveries alone
    and does not restart the loop, or delivers one result to a running
    loop. *)
Lemma step_delivery (l l' : LoopState) (e : Event Input) :
  step detect onResult intervalMs l e = Some l' ->
  (client l' = client l /\ deliveries l' = deliveries l
   /\ (isRunning l' = true -> isRunning l = true))
  \/ (exists r, isRunning l = true
                /\ client l' = fst (onResult r (client l))
                /\ deliveries l' = r :: deliveries l
                /\ isRunning l' = negb (snd (onResult r (client l)))).
Proof.
  intros Hs. destruct e as [k t | id i t | t]; simpl in Hs.
  - destruct (calls l !! k) as [c|] eqn:Hk; [|discriminate].
    destruct (settledAt c) eqn:Hc; [discriminate|].
    destruct (clock l <=? t); [|discriminate].
    set (l1 := settle_call k t (advance t l)) in *.
    destruct (settled (detect (input c))) as [result|]; injection Hs as <-.
    + destruct (isRunning l) eqn:Hr.
      * right. exists result.
        destruct (resume_delivers l1 result Hr) as [Hd _].
        destruct (resume_client l1 result Hr) as [Hcl Hrn].
        split; [reflexivity|]. split; [exact Hcl|]. split; [exact Hd|exact Hrn].
      * left. unfold runDetection_resume.
        change (isRunning l1) with (isRunning l). rewrite Hr.
        split; [reflexivity|]. split; [reflexivity|]. intros H.
        change (isRunning l1) with (isRunning l) in H. congruence.
    + left. split; [reflexivity|]. split; [reflexivity|]. intros H. exact H.
  - destruct (timers l !! id) as [due|]; [|discriminate].
    destruct ((due <=? t) && (clock l <=? t)); [|discriminate].
    injection Hs as <-. left. unfold runDetection. simpl.
    destruct (isRunning l) eqn:Hr; simpl;
      (split; [reflexivity|]); (split; [reflexivity|]); intros H; congruence.
  - destruct (clock l <=? t); [|discriminate]. injection Hs as <-. left.
    destruct (cleanup_fields (advance t l)) as (H1 & _ & _ & _ & H5 & _ & _ & H8).
    unfold deliveries. rewrite H1, H5, H8. simpl. split; [reflexivity|].
    split; [reflexivity|discriminate].
Qed.

Lemma callback_fold (i : Input) (t0 : Z) (c0 : Client)
    (es : list (Event Input)) (l : LoopState) :
  run detect onResult intervalMs (create i t0 c0) es = Some l ->
  client l = foldl (fun c r => fst (onResult r c)) c0 (reverse (deliveries l)).
Proof.
  assert (Hgen : forall es (l0 l1 : LoopState),
            client l0 = foldl (fun c r => fst (onResult r c)) c0 (reverse (deliveries l0)) ->
            run detect onResult intervalMs l0 es = Some l1 ->
            client l1 = foldl (fun c r => fst (onResult r c)) c0 (reverse (deliveries l1))).
  { clear es l. induction es as [|e es IH]; intros l0 l1 H0 Hrun; simpl in Hrun.
    - injection Hrun as <-. exact H0.
    - destruct (step detect onResult intervalMs l0 e) as [l2|] eqn:Hs; [|discriminate].
      apply (IH l2 l1); [|exact Hrun].
      destruct (step_delivery l0 l2 e Hs) as [(Hc & Hd & _) | (r & _ & Hc & Hd & _)].
      + rewrite Hc, Hd. exact H0.
      + rewrite Hc, Hd, reverse_cons, foldl_app. simpl. rewrite <- H0. reflexivity. }
  intros Hrun. apply (Hgen es (create i t0 c0) l); [|exact Hrun].
  unfold create, runDetection. reflexivity.
Qed.

Lemma never_rejected_run (i : Input) (t0 : Z) (c0 : Client)
    (es : list (Event Input)) (l : LoopState) :
  (forall i, settled (detect i) <> Throws) ->
  run detect onResult intervalMs (create i t0 c0) es = Some l ->
  forall t, Rejected t ∉ trace l.
Proof.
  intros Hd.
  assert (Hgen : forall es (l0 l1 : LoopState),
            (forall t, Rejected t ∉ trace l0) ->
            run detect onResult intervalMs l0 es = Some l1 ->
            forall t, Rejected t ∉ trace l1).
  { clear es l. induction es as [|e es IH]; intros l0 l1 H0 Hrun; simpl in Hrun.
    - injection Hrun as <-. exact H0.
    - destruct (step detect onResult intervalMs l0 e) as [l2|] eqn:Hs; [|discriminate].
      apply (IH l2 l1); [|exact Hrun].
      eapply never_rejected; eauto. }
  intros Hrun. apply (Hgen es (create i t0 c0) l); [|exact Hrun].
  intros t. unfold create, runDetection. simpl.
  rewrite not_elem_of_cons. split; [discriminate|apply not_elem_of_nil].
Qed.

(** X13: a stopped loop stays silent: whatever events follow (the call in
    flight settling, a timer firing, further cleanup calls), nothing is
    delivered to the callback, the detector is not called, no timer is set
    and the callback's state is not touched. *)
Theorem stopped_loop_stays_silent (es : list (Event Input)) (l l' : LoopState) :
  isRunning l = false -> run detect onResult intervalMs l es = Some l' ->
  isRunning l' = false /\ client l' = client l
  /\ deliveries l' = deliveries l /\ invocations l' = invocations l
  /\ schedulings l' = schedulings l.
Proof. apply stopped_run_silent. Qed.

(** X14: between two events a loop holds at most one pending continuation,
    a detector call in flight or a timer, never both; the timer, if any, is
    the one [timeoutId] names, so that the cleanup function cancels it. *)
Theorem one_call_or_one_timer (i : Input) (t0 : Z) (c0 : Client)
    (es : list (Event Input)) (l : LoopState) :
  run detect onResult intervalMs (create i t0 c0) es = Some l ->
  (size (timers l) + length (outstanding l) <= 1)%nat
  /\ (forall id due, timers l !! id = Some due -> timeoutId l = Some id /\ id <> 0%nat).
Proof. apply pending_at_most_one. Qed.

(** X15: the state the callback works on is the fold of the delivered
    results: every delivery is applied to it once, in order, and nothing
    else of the loop touches it. *)
Theorem callback_state_is_fold (i : Input) (t0 : Z) (c0 : Client)
    (es : list (Event Input)) (l : LoopState) :
  run detect onResult intervalMs (create i t0 c0) es = Some l ->
  client l = foldl (fun c r => fst (onResult r c)) c0 (reverse (deliveries l)).
Proof. apply callback_fold. Qed.

End MoreLoopFacts.

(** X16: a failure of the face library or of the scanner never ends a
    detection loop of the repository: with [detectFace] or [detectDocument]
    as the detector, for every callback that returns normally and whatever
    the events, [runDetection] never rejects, and as long as the loop has
    not been stopped it has its next step pending, the call in flight or the
    timer of the next iteration.  (Callbacks that throw are outside this
    statement.) *)
Theorem detection_loops_survive_failures {Client : Type} :
  (forall (onResult : FaceDetection.FaceDetectionResult -> Client -> Client * bool)
          (intervalMs : Z) (f : Flows.FaceFrame) (t0 : Z) (c0 : Client)
          (es : list (DetectionLoop.Event Flows.FaceFrame))
          (l : DetectionLoop.Loop Flows.FaceFrame FaceDetection.FaceDetectionResult Client),
      DetectionLoop.run Flows.face_detect onResult intervalMs
        (DetectionLoop.create f t0 c0) es = Some l ->
      (forall t, DetectionLoop.Rejected t ∉ DetectionLoop.trace l)
      /\ (DetectionLoop.isRunning l = true ->
          (size (DetectionLoop.timers l) + length (DetectionLoop.outstanding l) = 1)%nat))
  /\ (forall (onResult : DocumentDetection.DocumentDetectionResult -> Client -> Client * bool)
             (intervalMs : Z) (f : Flows.DocumentFrame) (t0 : Z) (c0 : Client)
             (es : list (DetectionLoop.Event Flows.DocumentFrame))
             (l : DetectionLoop.Loop Flows.DocumentFrame
                    DocumentDetection.DocumentDetectionResult Client),
         DetectionLoop.run Flows.document_detect onResult intervalMs
           (DetectionLoop.create f t0 c0) es = Some l ->
         (forall t, DetectionLoop.Rejected t ∉ DetectionLoop.trace l)
         /\ (DetectionLoop.isRunning l = true ->
             (size (DetectionLoop.timers l) + length (DetectionLoop.outstanding l) = 1)%nat)).
Proof.
  assert (Hface : forall f, settled (Flows.face_detect f) <> Throws).
  { intros f. unfold Flows.face_detect.
    destruct (detectFace_never_throws (Flows.modelsLoaded f) (Flows.face_video f)
                (Flows.faceapi f) FaceDetection.centerTolerance_default) as [r Hr].
    rewrite Hr. discriminate. }
  assert (Hdoc : forall f, settled (Flows.document_detect f) <> Throws).
  { intros f. unfold Flows.document_detect.
    destruct (detectDocument_never_throws
                (DocumentDetection.VideoElement (Flows.document_video f)) (Flows.scan f))
      as [r Hr].
    rewrite Hr. discriminate. }
  split; intros onResult intervalMs f t0 c0 es l Hrun; split.
  - eapply never_rejected_run; eauto.
  - eapply running_loop_is_never_idle; eauto.
  - eapply never_rejected_run; eauto.
  - eapply running_loop_is_never_idle; eauto.
Qed.

Lemma stopped_loop_stays_silent_witness :
  exists l l',
    Flows.selfie_run (Flows.selfie_create Flows.good_frame 0)
      [DetectionLoop.Cleanup 100] = Some l
    /\ Flows.selfie_run l [DetectionLoop.Settle 0 600; DetectionLoop.Cleanup 700]
       = Some l'
    /\ DetectionLoop.isRunning l' = false
    /\ DetectionLoop.deliveries l' = []
    /\ DetectionLoop.invocations l' = [0].
Proof.
  eexists _, _. split; [vm_compute; reflexivity|]. split; [vm_compute; reflexivity|].
  match goal with
  | |- DetectionLoop.isRunning ?l' = _ /\ _ =>
      destruct (stopped_loop_stays_silent Flows.face_detect Selfie.onResult 250
                  [DetectionLoop.Settle 0 600; DetectionLoop.Cleanup 700]
                  (DetectionLoop.cleanup
                     (DetectionLoop.advance 100
                        (Flows.selfie_create Flows.good_frame 0))) l')
        as (H1 & _ & H3 & H4 & _); [reflexivity | vm_compute; reflexivity |]
  end.
  split; [exact H1|]. split; [rewrite H3|rewrite H4]; vm_compute; reflexivity.
Defined.

Lemma owner_cleanup_is_final_witness :
  exists l l',
    Flows.selfie_run (Flows.selfie_create Flows.good_frame 0)
      [DetectionLoop.Settle 0 600; DetectionLoop.Timeout 1 Flows.good_frame 850]
    = Some l
    /\ Flows.selfie_run l [DetectionLoop.Cleanup 900; DetectionLoop.Settle 0 1450]
       = Some l'
    /\ DetectionLoop.isRunning l' = false /\ DetectionLoop.timers l' = ∅
    /\ DetectionLoop.deliveries l' = [Flows.good_result]
    /\ DetectionLoop.invocations l' = [850; 0].
Proof.
  eexists _, _. split; [vm_compute; reflexivity|]. split; [vm_compute; reflexivity|].
  match goal with
  | |- DetectionLoop.isRunning ?l' = _ /\ _ =>
      destruct (owner_cleanup_is_final Flows.face_detect Selfie.onResult 250
                  Flows.good_frame 0 Selfie.mounted
                  [DetectionLoop.Settle 0 600;
                   DetectionLoop.Timeout 1 Flows.good_frame 850]
                  [DetectionLoop.Settle 0 1450] 900 _ l'
                  ltac:(vm_compute; reflexivity) ltac:(vm_compute; reflexivity))
        as (H1 & H2 & _ & H4 & H5 & _)
  end.
  split; [exact H1|]. split; [exact H2|].
  split; [rewrite H4|rewrite H5]; vm_compute; reflexivity.
Defined.

Lemma one_call_or_one_timer_witness :
  exists l,
    Flows.selfie_run (Flows.selfie_create Flows.good_frame 0)
      (Flows.iterations [Flows.good_frame; Flows.good_frame] 600 0 1) = Some l
    /\ (size (DetectionLoop.timers l) + length (DetectionLoop.outstanding l) <= 1)%nat
    /\ DetectionLoop.timeoutId l = Some 3%nat.
Proof.
  eexists. split; [vm_compute; reflexivity|].
  match goal with
  | |- (size (DetectionLoop.timers ?l) + _ <= _)%nat /\ _ =>
      destruct (one_call_or_one_timer Flows.face_detect Selfie.onResult 250
                  Flows.good_frame 0 Selfie.mounted
                  (Flows.iterations [Flows.good_frame; Flows.good_frame] 600 0 1) l
                  ltac:(vm_compute; reflexivity))
        as (H1 & H2)
  end.
  split; [exact H1|].
  apply (H2 3%nat 2550). vm_compute. reflexivity.
Defined.

Lemma deliveries_in_call_order_witness :
  exists l,
    Flows.selfie_run (Flows.selfie_create Flows.good_frame 0)
      (Flows.iterations [Flows.failing_frame; Flows.good_frame] 600 0 1) = Some l
    /\ DetectionLoop.deliveries l
       = omap (Delivery.answered Flows.face_detect) (DetectionLoop.calls l)
    /\ DetectionLoop.deliveries l
       = [Flows.good_result; FaceDetection.notDetected; Flows.good_result].
Proof.
  eexists. split; [vm_compute; reflexivity|].
  match goal with
  | |- DetectionLoop.deliveries ?l = _ /\ _ =>
      destruct (deliveries_in_call_order Flows.face_detect Selfie.onResult 250
                  Flows.good_frame 0 Selfie.mounted
                  (Flows.iterations [Flows.failing_frame; Flows.good_frame] 600 0 1) l
                  ltac:(vm_compute; reflexivity))
        as (_ & H2)
  end.
  split; [apply H2; reflexivity|vm_compute; reflexivity].
Defined.

Lemma callback_state_is_fold_witness :
  exists l,
    Flows.selfie_run (Flows.selfie_create Flows.good_frame 0)
      (Flows.iterations [Flows.failing_frame; Flows.good_frame] 600 0 1) = Some l
    /\ DetectionLoop.client l
       = foldl (fun c r => fst (Selfie.onResult r c)) Selfie.mounted
           [Flows.good_result; FaceDetection.notDetected; Flows.good_result].
Proof.
  eexists. split; [vm_compute; reflexivity|].
  match goal with
  | |- DetectionLoop.client ?l = _ =>
      rewrite (callback_state_is_fold Flows.face_detect Selfie.onResult 250
                 Flows.good_frame 0 Selfie.mounted
                 (Flows.iterations [Flows.failing_frame; Flows.good_frame] 600 0 1) l
                 ltac:(vm_compute; reflexivity))
  end.
  vm_compute. reflexivity.
Defined.

Lemma detection_loops_survive_failures_witness :
  exists l,
    Flows.selfie_run (Flows.selfie_create Flows.failing_frame 0)
      (Flows.iterations [Flows.failing_frame] 600 0 1) = Some l
    /\ DetectionLoop.isRunning l = true
    /\ DetectionLoop.deliveries l
       = [FaceDetection.notDetected; FaceDetection.notDetected]
    /\ (size (DetectionLoop.timers l) + length (DetectionLoop.outstanding l) = 1)%nat.
Proof.
  eexists. split; [vm_compute; reflexivity|]. split; [reflexivity|].
  split; [vm_compute; reflexivity|].
  match goal with
  | |- (size (DetectionLoop.timers ?l) + _ = _)%nat =>
      destruct (proj1 (@detection_loops_survive_failures Selfie.Component)
                  Selfie.onResult 250 Flows.failing_frame 0 Selfie.mounted
                  (Flows.iterations [Flows.failing_frame] 600 0 1) l
                  ltac:(vm_compute; reflexivity))
        as (_ & H2)
  end.
  apply H2. reflexivity.
Defined.

(** ** The selfie page *)

Section MoreSelfieFacts.
Import FaceDetection Selfie Flows SelfiePage.

Lemma countdown_range (n : Z) :
  1 <= n <= 19 ->
  1 <= Qceiling ((REQUIRED_STABLE_FRAMES - inject_Z n) / FRAMES_PER_SECOND) <= 5.
Proof.
  intros Hn.
  assert (Hall : forallb (fun k =>
             let c := Qceiling ((REQUIRED_STABLE_FRAMES - inject_Z (Z.of_nat k))
                                / FRAMES_PER_SECOND) in
             (1 <=? c) && (c <=? 5)) (seq 1 19) = true) by (vm_compute; reflexivity).
  rewrite forallb_forall in Hall.
  specialize (Hall (Z.to_nat n)). rewrite Z2Nat.id in Hall by lia.
  assert (Hin : In (Z.to_nat n) (seq 1 19)) by (apply in_seq; lia).
  apply Hall in Hin. apply andb_true_iff in Hin. destruct Hin as [H1 H2].
  apply Z.leb_le in H1. apply Z.leb_le in H2. lia.
Qed.

Lemma page_ok_mounted : page_ok mounted.
Proof. unfold page_ok. simpl. repeat split; try lia. left. repeat split; lia. Qed.

Lemma page_ok_deliver (s : Component) (r : FaceDetectionResult) :
  page_ok s -> page_ok (deliver s r).
Proof.
  intros (Hp & Hf & Hc & [(Hcap & He & Hs & Hl & Hd) | (Hcap & He & Hs & Hz & Hl & Hd)]).
  - unfold deliver, handleFaceDetectionResult. rewrite Hcap.
    cbn [faceReady stableFrames set_counters].
    destruct (faceReady s) eqn:Hr.
    + rewrite required_reached.
      destruct (Z.leb_spec 20 (stableFrames s + 1)) as [Hge|Hlt].
      * unfold handleTakePhoto. cbn. rewrite Hp, Hd, Hl, He. cbn.
        unfold page_ok. cbn. repeat split; try lia.
        right. repeat split; try reflexivity. lia.
      * unfold page_ok. cbn. rewrite Hp, He, Hl, Hd.
        pose proof (countdown_range (stableFrames s + 1) ltac:(lia)).
        repeat split; try lia. left. repeat split; lia.
    + unfold page_ok. cbn. rewrite Hp, He, Hl, Hd.
      repeat split; try lia. left. repeat split; lia.
  - unfold deliver. rewrite handler_ignores_while_capturing by exact Hcap.
    assert (Hu : update s = s).
    { destruct s. unfold update. simpl in *. rewrite <- Hf. reflexivity. }
    rewrite Hu. unfold page_ok. repeat split; auto; try lia.
    right. repeat split; auto.
Qed.

Lemma page_ok_deliver_all (rs : list FaceDetectionResult) (s : Component) :
  page_ok s -> page_ok (deliver_all s rs).
Proof.
  revert s. induction rs as [|r rs IH]; intros s H; [exact H|].
  unfold deliver_all. simpl. apply IH. apply page_ok_deliver. exact H.
Qed.


(** X17: whatever results arrive, the selfie page keeps its counters in range
    (the counter between 0 and 20, the countdown between 0 and 5) and takes
    the photo at most once: until then it has done nothing and keeps the
    handle of the loop; afterwards the counter stands at 20, the countdown at
    0, the handle is dropped, the button toggle is back on, and what it did
    is, in order: set [isCapturing], stop the loop, take the picture, go to
    the next step, disable. *)
Theorem selfie_page_invariants (rs : list FaceDetectionResult) :
  let s := deliver_all mounted rs in
  0 <= stableFrames s <= 20 /\ 0 <= countdown s <= 5 /\ (captures s <= 1)%nat
  /\ (isCapturing s = false ->
      effects s = [] /\ stableFrames s < 20 /\ stopDetectionLoop s = true
      /\ isDisabled s = false)
  /\ (isCapturing s = true ->
      effects s = full_capture /\ stableFrames s = 20 /\ countdown s = 0
      /\ stopDetectionLoop s = false /\ isDisabled s = true).
Proof.
  cbv zeta.
  destruct (page_ok_deliver_all rs mounted page_ok_mounted)
    as (Hp & Hf & Hc & [(Hcap & He & Hs & Hl & Hd) | (Hcap & He & Hs & Hz & Hl & Hd)]).
  - unfold captures. rewrite He, Hcap. simpl.
    repeat split; try lia; try discriminate; auto.
  - unfold captures. rewrite He, Hcap. simpl.
    repeat split; try lia; try discriminate; auto.
Qed.

(** X18: over the life of a selfie page the cleanup function of its loop is
    called exactly once, whatever results arrived before the page is
    destroyed: by [handleTakePhoto] if the photo was taken (and then not
    again by [onDestroy], the handle being null), by [onDestroy]
    otherwise. *)
Theorem selfie_cleanup_called_once (rs : list FaceDetectionResult) :
  cleanup_calls (deliver_all mounted rs) = 1%nat.
Proof.
  destruct (page_ok_deliver_all rs mounted page_ok_mounted)
    as (Hp & Hf & Hc & [(Hcap & He & Hs & Hl & Hd) | (Hcap & He & Hs & Hz & Hl & Hd)]);
    unfold cleanup_calls, onDestroy; rewrite He, Hp, Hl; reflexivity.
Qed.

(** X19: what the status line shows while the user holds still.  On a stream of
    [n] results that meet every criterion, with the models loaded, the page
    shows "Hold still..." for the first four results (and the request to
    position the face before any result), then the digits 4, 3, 2
    and 1 for four results each (the digit is [(24 - n) / 4]), and
    "Hold still..." again from the 21st result on, when the photo is
    taken. *)
Theorem status_while_holding_still (r : FaceDetectionResult) (n : nat) :
  Spec.composite_face r = true ->
  statusMessage true (deliver_all mounted (replicate n r))
  = if (n =? 0)%nat then "Position your face in the circle"%string
    else if (5 <=? n)%nat && (n <=? 20)%nat
         then pretty ((24 - Z.of_nat n) / 4)
         else "Hold still..."%string.
Proof.
  intros H. rewrite (deliver_all_composite _ _ _ H).
  destruct (Nat.leb_spec 21 n) as [Hn|Hn].
  - replace ((5 <=? n)%nat && (n <=? 20)%nat) with false
      by (symmetry; apply andb_false_iff; right; apply Nat.leb_gt; lia).
    replace (n =? 0)%nat with false by (symmetry; apply Nat.eqb_neq; lia).
    replace n with (21 + (n - 21))%nat by lia.
    rewrite replicate_add. unfold deliver_all. rewrite foldl_app.
    fold (deliver_all mounted (replicate 21 all_true)).
    fold (deliver_all (deliver_all mounted (replicate 21 all_true))
                      (replicate (n - 21) all_true)).
    rewrite deliver_all_settled; [| vm_compute; reflexivity ..].
    vm_compute. reflexivity.
  - assert (Hall : forallb (fun k =>
               bool_decide (statusMessage true (deliver_all mounted (replicate k all_true))
                            = if (k =? 0)%nat then "Position your face in the circle"%string
                              else if (5 <=? k)%nat && (k <=? 20)%nat
                                   then pretty ((24 - Z.of_nat k) / 4)
                                   else "Hold still..."%string))
               (seq 0 21) = true) by (vm_compute; reflexivity).
    rewrite forallb_forall in Hall.
    eapply bool_decide_eq_true_1. apply Hall. apply in_seq. lia.
Qed.

Lemma selfie_onResult_stops (s : Component) (r : FaceDetectionResult) :
  page_ok s -> isCapturing s = false ->
  snd (Selfie.onResult r s) = isCapturing (deliver s r).
Proof.
  intros Hok Hcap. pose proof (page_ok_deliver s r Hok) as Hok'.
  unfold Selfie.onResult. cbn [snd].
  destruct Hok as (_ & _ & _ & [(_ & He & _) | (Hc' & _)]); [|congruence].
  rewrite He. cbn [length drop].
  destruct Hok' as (_ & _ & _ & [(Hc1 & He1 & _) | (Hc1 & He1 & _)]);
    rewrite He1, Hc1; vm_compute; reflexivity.
Qed.

(** X20: the selfie flow as a whole, loop and page together.  Whatever the
    frames and the events, the page's state is what the delivered results
    make of the mounted page, the photo is taken at most once, and once it
    is taken the loop is stopped: nothing more is delivered to the page. *)
Theorem selfie_flow_takes_one_photo (f : FaceFrame) (t : Z)
    (es : list (DetectionLoop.Event FaceFrame))
    (l : DetectionLoop.Loop FaceFrame FaceDetectionResult Component) :
  selfie_run (selfie_create f t) es = Some l ->
  DetectionLoop.client l
  = deliver_all mounted (reverse (DetectionLoop.deliveries l))
  /\ (captures (DetectionLoop.client l) <= 1)%nat
  /\ (isCapturing (DetectionLoop.client l) = true ->
      DetectionLoop.isRunning l = false).
Proof.
  intros Hrun.
  pose proof (callback_fold face_detect Selfie.onResult 250 f t mounted es l Hrun)
    as Hfold.
  change (DetectionLoop.client l
          = deliver_all mounted (reverse (DetectionLoop.deliveries l))) in Hfold.
  split; [exact Hfold|]. split.
  { rewrite Hfold.
    destruct (page_ok_deliver_all (reverse (DetectionLoop.deliveries l)) mounted
                page_ok_mounted)
      as (_ & _ & _ & [(_ & He & _) | (_ & He & _)]);
      unfold captures; rewrite He; simpl; lia. }
  assert (Hgen : forall es (l0 l1 : DetectionLoop.Loop FaceFrame FaceDetectionResult Component),
            page_ok (DetectionLoop.client l0) ->
            (isCapturing (DetectionLoop.client l0) = true ->
             DetectionLoop.isRunning l0 = false) ->
            selfie_run l0 es = Some l1 ->
            isCapturing (DetectionLoop.client l1) = true ->
            DetectionLoop.isRunning l1 = false).
  { clear. induction es as [|e es IH]; intros l0 l1 Hok H0 Hrun; simpl in Hrun.
    - injection Hrun as <-. exact H0.
    - unfold selfie_run in Hrun. simpl in Hrun.
      destruct (DetectionLoop.step face_detect Selfie.onResult 250 l0 e) as [l2|] eqn:Hs;
        [|discriminate].
      destruct (step_delivery face_detect Selfie.onResult 250 l0 l2 e Hs)
        as [(Hc & _ & Hr) | (r & Hr0 & Hc & _ & Hr)].
      + apply (IH l2 l1); [rewrite Hc; exact Hok | | exact Hrun].
        rewrite Hc. intros Hcap. specialize (H0 Hcap).
        destruct (DetectionLoop.isRunning l2) eqn:E; [|reflexivity].
        specialize (Hr eq_refl). congruence.
      + assert (Hnc : isCapturing (DetectionLoop.client l0) = false).
        { destruct (isCapturing (DetectionLoop.client l0)) eqn:E; [|reflexivity].
          specialize (H0 eq_refl). congruence. }
        apply (IH l2 l1); [| | exact Hrun].
        * rewrite Hc. apply page_ok_deliver. exact Hok.
        * rewrite Hc, Hr. cbn [fst Selfie.onResult].
          rewrite (selfie_onResult_stops _ r Hok Hnc). intros ->. reflexivity. }
  apply (Hgen es (selfie_create f t) l); [apply page_ok_mounted | discriminate | exact Hrun].
Qed.

(** X21: the counter of the selfie page after a result: 20 once the photo
    is taken, and until then the number of results, among those before the
    last one, at the end of which every criterion was met without
    interruption.  The last result itself is not counted: the handler reads
    [faceReady] as the previous result left it. *)
Theorem selfie_counter_law (rs : list FaceDetectionResult) (r : FaceDetectionResult) :
  let s := deliver_all mounted (rs ++ [r]) in
  stableFrames s
  = if isCapturing s then 20 else Spec.longest_suffix Spec.composite_face rs.
Proof.
  cbv zeta. destruct (isCapturing (deliver_all mounted (rs ++ [r]))) eqn:E.
  - destruct (page_ok_deliver_all (rs ++ [r]) mounted page_ok_mounted)
      as (_ & _ & _ & [(Hc & _) | (_ & _ & Hs & _)]); [congruence|exact Hs].
  - exact (proj1 (stableFrames_lags rs r E)).
Qed.

End MoreSelfieFacts.

Lemma status_while_holding_still_witness :
  Spec.composite_face Flows.good_result = true
  /\ SelfiePage.statusMessage true
       (Selfie.deliver_all Selfie.mounted (replicate 7 Flows.good_result))
     = "4"%string.
Proof.
  split; [reflexivity|].
  rewrite (status_while_holding_still Flows.good_result 7); vm_compute; reflexivity.
Defined.

Lemma selfie_flow_takes_one_photo_witness :
  exists l,
    Flows.selfie_run (Flows.selfie_create Flows.good_frame 0)
      (Flows.iterations (replicate 20 Flows.good_frame) 600 0 1) = Some l
    /\ Selfie.isCapturing (DetectionLoop.client l) = true
    /\ length (DetectionLoop.deliveries l) = 21%nat
    /\ (Selfie.captures (DetectionLoop.client l) <= 1)%nat
    /\ DetectionLoop.isRunning l = false.
Proof.
  eexists. split; [vm_compute; reflexivity|]. split; [vm_compute; reflexivity|].
  split; [vm_compute; reflexivity|].
  match goal with
  | |- (Selfie.captures (DetectionLoop.client ?l) <= _)%nat /\ _ =>
      destruct (selfie_flow_takes_one_photo Flows.good_frame 0
                  (Flows.iterations (replicate 20 Flows.good_frame) 600 0 1) l
                  ltac:(vm_compute; reflexivity))
        as (_ & H2 & H3)
  end.
  split; [exact H2|]. apply H3. vm_compute. reflexivity.
Defined.

(** ** Loading the models *)

Section FaceModelsFacts.
Import FaceModels.

Lemma models_Inv_initial : Inv initial.
Proof.
  unfold Inv, initial, refusals. simpl. repeat split; try discriminate; auto.
  intros c H. apply elem_of_nil in H. contradiction.
Qed.

Lemma models_Inv_step (s s' : State) (e : Event) :
  Inv s -> step s e = Some s' -> Inv s'.
Proof.
  destruct s as [ld lg dl pl an dn].
  unfold Inv, refusals. simpl. intros (H1 & H2 & H3 & H4) Hs.
  destruct e as [caller | k ok | k]; simpl in Hs.
  - injection Hs as <-. unfold loadFaceDetectionModels. simpl.
    destruct ld; [|destruct lg]; simpl.
    + repeat split; intros; try tauto.
    + repeat split; intros; try tauto. exact (H3 _ ltac:(eassumption)).
    + rewrite (H2 eq_refl) in *. simpl in *.
      repeat split; auto; try discriminate. lia.
  - unfold promise_all_settled in Hs. simpl in Hs.
    destruct (dl !! k) as [caller|] eqn:Hk; [|discriminate].
    injection Hs as <-. simpl.
    destruct lg.
    2:{ rewrite (H2 eq_refl) in Hk. discriminate. }
    destruct (H1 eq_refl) as [-> Hlen].
    destruct dl as [|c0 [|c1 rest]]; try discriminate.
    destruct k as [|k]; [|discriminate]. simpl in *.
    repeat split; try discriminate; auto.
    + intros c Hc. apply elem_of_cons in Hc. destruct Hc as [[= -> <-]|Hc]; [reflexivity|].
      specialize (H3 c Hc). discriminate.
    + destruct ok; simpl; lia.
  - unfold checkInterval in Hs. simpl in Hs.
    destruct (pl !! k) as [caller|] eqn:Hk; [|discriminate].
    destruct (ld || negb lg) eqn:Hc; injection Hs as <-; simpl;
      [|exact (conj H1 (conj H2 (conj H3 H4)))].
    split; [exact H1|]. split; [exact H2|]. split.
    + intros c Hin. apply elem_of_cons in Hin.
      destruct Hin as [[= -> Hl]|Hin]; [symmetry; exact Hl|]. exact (H3 c Hin).
    + destruct ld; simpl in *; lia.
Qed.

Lemma models_Inv_run (es : list Event) (s s' : State) :
  Inv s -> run s es = Some s' -> Inv s'.
Proof.
  revert s. induction es as [|e es IH]; intros s HI Hr; simpl in Hr.
  - injection Hr as <-. exact HI.
  - destruct (step s e) as [s1|] eqn:Hs; [|discriminate].
    eapply IH; [|exact Hr]. eapply models_Inv_step; eauto.
Qed.

(** X22: however the calls to [loadFaceDetectionModels], the settling of
    their [Promise.all] and the interval ticks interleave, at most one call
    awaits a [Promise.all] at any time, and one does exactly when
    [modelsLoading] is set; the two flags are never set together; and a
    [Promise.all] is started again only after one was rejected (their number
    is at most one more than the number of [false] answers). *)
Theorem models_one_call_awaits (es : list Event) (s : State) :
  run initial es = Some s ->
  (length (awaiting s) <= 1)%nat
  /\ (modelsLoading s = true <-> length (awaiting s) = 1%nat)
  /\ (modelsLoaded s && modelsLoading s = false)
  /\ (downloads s <= refusals s + 1)%nat.
Proof.
  intros Hrun.
  destruct (models_Inv_run es initial s models_Inv_initial Hrun) as (H1 & H2 & H3 & H4).
  destruct (modelsLoading s) eqn:Hg.
  - destruct (H1 eq_refl) as [Hl Hlen]. rewrite Hl, Hlen in *. simpl in *.
    repeat split; auto; lia.
  - rewrite (H2 eq_refl) in *. simpl in *. rewrite andb_false_r.
    repeat split; auto; try discriminate; try lia.
    destruct (modelsLoaded s); simpl in *; lia.
Qed.

Lemma models_loaded_step (s s' : State) (e : Event) :
  Inv s -> modelsLoaded s = true -> step s e = Some s' ->
  modelsLoaded s' = true /\ downloads s' = downloads s
  /\ (forall caller, e = Call caller -> answers s' = (caller, true) :: answers s).
Proof.
  intros (H1 & H2 & _) Hl Hs. destruct e as [caller | k ok | k]; simpl in Hs.
  - injection Hs as <-. unfold loadFaceDetectionModels. rewrite Hl. simpl.
    repeat split; auto. intros c [= <-]. reflexivity.
  - exfalso. unfold promise_all_settled in Hs.
    destruct (modelsLoading s) eqn:Hg.
    + destruct (H1 eq_refl) as [Hl' _]. congruence.
    + rewrite (H2 eq_refl) in Hs. discriminate.
  - unfold checkInterval in Hs.
    destruct (polling s !! k) as [caller|]; [|discriminate].
    rewrite Hl in Hs. simpl in Hs. injection Hs as <-. simpl.
    repeat split; auto. discriminate.
Qed.

(** X23: a [true] from [loadFaceDetectionModels] can be relied on: whoever was
    answered [true] finds [areModelsLoaded()] true, and once the models are
    loaded they stay loaded, nothing is downloaded again, and every further
    call is answered [true] at once. *)
Theorem models_loaded_for_good (es es' : list Event) (s s' : State) :
  run initial es = Some s -> run s es' = Some s' ->
  (forall caller, (caller, true) ∈ answers s -> areModelsLoaded s = true)
  /\ (areModelsLoaded s = true ->
      areModelsLoaded s' = true /\ downloads s' = downloads s
      /\ forall caller, answers (loadFaceDetectionModels caller s')
                        = (caller, true) :: answers s').
Proof.
  intros Hrun Hrun'.
  pose proof (models_Inv_run es initial s models_Inv_initial Hrun) as HI.
  split; [destruct HI as (_ & _ & H3 & _); exact H3|].
  unfold areModelsLoaded. intros Hl.
  assert (Hgen : forall es0 s0 s1, Inv s0 -> modelsLoaded s0 = true ->
            run s0 es0 = Some s1 ->
            modelsLoaded s1 = true /\ downloads s1 = downloads s0).
  { induction es0 as [|e es0 IH]; intros s0 s1 HI0 Hl0 Hr; simpl in Hr.
    - injection Hr as <-. auto.
    - destruct (step s0 e) as [s2|] eqn:Hs; [|discriminate].
      destruct (models_loaded_step s0 s2 e HI0 Hl0 Hs) as (G1 & G2 & _).
      destruct (IH s2 s1 (models_Inv_step s0 s2 e HI0 Hs) G1 Hr) as [K1 K2].
      split; [exact K1|congruence]. }
  destruct (Hgen es' s s' HI Hl Hrun') as [K1 K2].
  split; [exact K1|]. split; [exact K2|].
  intros caller. unfold loadFaceDetectionModels. rewrite K1. reflexivity.
Qed.

End FaceModelsFacts.

Lemma models_one_call_awaits_witness :
  exists s,
    FaceModels.run FaceModels.initial
      [FaceModels.Call 1; FaceModels.Call 2; FaceModels.PromiseAll 0 false;
       FaceModels.Call 3] = Some s
    /\ FaceModels.downloads s = 2%nat /\ FaceModels.refusals s = 1%nat
    /\ FaceModels.polling s = [2%nat]
    /\ (FaceModels.modelsLoading s = true <-> length (FaceModels.awaiting s) = 1%nat)
    /\ (FaceModels.downloads s <= FaceModels.refusals s + 1)%nat.
Proof.
  eexists. split; [vm_compute; reflexivity|].
  split; [reflexivity|]. split; [reflexivity|]. split; [reflexivity|].
  match goal with
  | |- (FaceModels.modelsLoading ?s = _ <-> _) /\ _ =>
      destruct (models_one_call_awaits
                  [FaceModels.Call 1; FaceModels.Call 2; FaceModels.PromiseAll 0 false;
                   FaceModels.Call 3] s ltac:(vm_compute; reflexivity))
        as (_ & H2 & _ & H4)
  end.
  split; [exact H2|exact H4].
Defined.

Lemma models_loaded_for_good_witness :
  exists s s',
    FaceModels.run FaceModels.initial Samples.two_callers = Some s
    /\ FaceModels.run s [FaceModels.Call 3] = Some s'
    /\ FaceModels.answers s = [(2%nat, true); (1%nat, true)]
    /\ FaceModels.areModelsLoaded s' = true
    /\ FaceModels.downloads s' = 1%nat
    /\ FaceModels.answers (FaceModels.loadFaceDetectionModels 4 s')
       = (4%nat, true) :: FaceModels.answers s'.
Proof.
  eexists _, _. split; [vm_compute; reflexivity|].
  split; [vm_compute; reflexivity|]. split; [reflexivity|].
  match goal with
  | |- FaceModels.areModelsLoaded ?s' = _ /\ _ =>
      destruct (models_loaded_for_good Samples.two_callers
                  [FaceModels.Call 3] _ s'
                  ltac:(vm_compute; reflexivity) ltac:(vm_compute; reflexivity))
        as (_ & H2)
  end.
  destruct (H2 eq_refl) as (H3 & H4 & H5).
  split; [exact H3|]. split; [rewrite H4; reflexivity|apply H5].
Defined.

(** ** The documents store *)

Section DocumentsFacts.
Import Documents.

Lemma String_eqb_eq (a b : string) : String.eqb a b = true <-> a = b.
Proof. apply String.eqb_eq. Qed.

Lemma find_key_Some (options : list string) (t k : string) :
  find_key options t = Some k -> k = t /\ In t options.
Proof.
  unfold find_key. intros H. apply find_some in H. destruct H as [Hin He].
  apply String.eqb_eq in He. subst. auto.
Qed.

(** After [clearDocs], no document of the given type is left. *)
Lemma clearDocs_removes_type (options : list string) (docs : list IDocument) (t : string)
    (d : IDocument) :
  In d (clearDocs options docs t) -> type d <> t.
Proof.
  unfold clearDocs. destruct (found (find_key options t)) eqn:Hf; intros Hin Ht;
    apply filter_In in Hin; destruct Hin as [_ Hk].
  - rewrite Ht, Hf in Hk. discriminate.
  - rewrite Ht, String.eqb_refl in Hk. discriminate.
Qed.

Lemma clearDocs_sublist (options : list string) (docs : list IDocument) (t : string)
    (d : IDocument) :
  In d (clearDocs options docs t) -> In d docs.
Proof.
  unfold clearDocs. destruct (found (find_key options t)); intros Hin;
    apply filter_In in Hin; tauto.
Qed.

Lemma filter_NoDup_map {A B : Type} (f : A -> B) (p : A -> bool) (l : list A) :
  NoDup (f <$> l) -> NoDup (f <$> List.filter p l).
Proof.
  induction l as [|a l IH]; simpl; [auto|].
  intros H. apply NoDup_cons in H. destruct H as [Hn Hd].
  destruct (p a); simpl; [|auto].
  apply NoDup_cons. split; [|auto].
  intros Hin. apply Hn. apply list_elem_of_fmap in Hin.
  destruct Hin as (x & Hx & Hin). apply list_elem_of_fmap. exists x. split; [exact Hx|].
  apply list_elem_of_In. apply list_elem_of_In in Hin. apply filter_In in Hin. tauto.
Qed.

Lemma addDocument_NoDup (options : list string) (docs : list IDocument)
    (b : string) (d : IDocument) :
  NoDup (type <$> docs) -> NoDup (type <$> addDocument options docs (type d) b d).
Proof.
  intros H. unfold addDocument. cbv zeta. rewrite fmap_app. simpl.
  apply NoDup_app. split; [|split].
  - unfold clearDocs. destruct (found (find_key options (type d)));
      apply filter_NoDup_map; exact H.
  - intros x Hx Hin. apply list_elem_of_singleton in Hin. subst x.
    apply list_elem_of_fmap in Hx. destruct Hx as (d' & Hd' & Hin').
    apply list_elem_of_In in Hin'.
    apply (clearDocs_removes_type options docs (type d) d' Hin'). congruence.
  - apply NoDup_singleton.
Qed.

Lemma visit_cases (options : list string) (docs : list IDocument)
    (shot : option string * option string * string) :
  visit options docs shot = docs
  \/ exists t d, type d = t /\ visit options docs shot = addDocument options docs t (snd shot) d.
Proof.
  destruct shot as [[[t|] k] b]; unfold visit, handleTakePhoto; simpl; [|auto].
  destruct (CheckDocument.truthy t); simpl; [|auto].
  right. eexists _, _. split; [|reflexivity]. reflexivity.
Qed.

(** X24: a store filled by taking photos never holds two documents of the same
    type: each photo replaces the earlier document of its type. *)
Theorem photographed_one_per_type (options : list string)
    (shots : list (option string * option string * string)) :
  NoDup (type <$> photographed options shots).
Proof.
  unfold photographed.
  assert (Hgen : forall docs, NoDup (type <$> docs) ->
            NoDup (type <$> foldl (visit options) docs shots)).
  { induction shots as [|shot shots IH]; intros docs H; simpl; [exact H|].
    apply IH. destruct (visit_cases options docs shot) as [->|(t & d & <- & ->)];
      [exact H|]. apply addDocument_NoDup. exact H. }
  apply Hgen. constructor.
Qed.

Lemma filter_filter_same {A : Type} (p : A -> bool) (l : list A) :
  List.filter p (List.filter p l) = List.filter p l.
Proof.
  induction l as [|a l IH]; simpl; [reflexivity|].
  destruct (p a) eqn:E; simpl; [rewrite E, IH; reflexivity|exact IH].
Qed.

(** X25: retaking replaces: adding a document of a type and then another of the
    same type leaves the store as if only the second had been added. *)
Theorem addDocument_retake (options : list string) (docs : list IDocument)
    (b1 b2 : string) (d : IDocument) :
  addDocument options (addDocument options docs (type d) b1 d) (type d) b2 d
  = addDocument options docs (type d) b2 d.
Proof.
  unfold addDocument. cbv zeta. f_equal.
  unfold clearDocs. cbv zeta.
  destruct (found (find_key options (type d))) eqn:Hf;
    rewrite List.filter_app, filter_filter_same; simpl.
  - rewrite Hf. simpl. apply app_nil_r.
  - rewrite String.eqb_refl. simpl. apply app_nil_r.
Qed.

Lemma from_options_le (options : list string) (docs : list IDocument) (t : string) :
  (length (List.filter (from_options options) (clearDocs options docs t))
   <= length (List.filter (from_options options) docs))%nat.
Proof.
  unfold clearDocs. destruct (found (find_key options t)).
  - induction docs as [|d docs IH]; simpl; [lia|].
    destruct (from_options options d) eqn:E; unfold from_options in E; rewrite E; simpl.
    + lia.
    + fold (from_options options d). unfold from_options at 1. rewrite E. exact IH.
  - induction docs as [|d docs IH]; simpl; [lia|].
    destruct (negb (t =? type d)%string); simpl;
      destruct (from_options options d); simpl; lia.
Qed.

Lemma addDocument_options (options : list string) (docs : list IDocument)
    (b : string) (d : IDocument) :
  (length (List.filter (from_options options) docs) <= 1)%nat ->
  (length (List.filter (from_options options) (addDocument options docs (type d) b d))
   <= 1)%nat.
Proof.
  intros H. unfold addDocument. cbv zeta. rewrite List.filter_app, length_app.
  simpl. unfold from_options at 2. simpl.
  destruct (found (find_key options (type d))) eqn:Hf; simpl.
  - assert (Hz : List.filter (from_options options) (clearDocs options docs (type d)) = []).
    { unfold clearDocs. rewrite Hf. clear H.
      induction docs as [|d' docs IH]; simpl; [reflexivity|].
      destruct (found (find_key options (type d'))) eqn:E; simpl; [exact IH|].
      unfold from_options at 1. rewrite E. exact IH. }
    rewrite Hz. simpl. lia.
  - pose proof (from_options_le options docs (type d)). lia.
Qed.

(** X26: a store filled by taking photos holds at most one document of the
    configured options: taking the photo of one of them removes the others. *)
Theorem photographed_one_option (options : list string)
    (shots : list (option string * option string * string)) :
  (length (List.filter (from_options options) (photographed options shots)) <= 1)%nat.
Proof.
  unfold photographed.
  assert (Hgen : forall docs,
            (length (List.filter (from_options options) docs) <= 1)%nat ->
            (length (List.filter (from_options options)
                       (foldl (visit options) docs shots)) <= 1)%nat).
  { induction shots as [|shot shots IH]; intros docs H; simpl; [exact H|].
    apply IH. destruct (visit_cases options docs shot) as [->|(t & d & <- & ->)];
      [exact H|]. apply addDocument_options. exact H. }
  apply Hgen. simpl. lia.
Qed.

(** X27: a second click does nothing: [handleTakePhoto] turns the toggle on, so
    that calling it again on the same page changes neither the store nor the
    navigation, whatever the camera returns then. *)
Theorem handleTakePhoto_once (options : list string) (b1 b2 : string) (p : Page) :
  handleTakePhoto options b2 (handleTakePhoto options b1 p)
  = handleTakePhoto options b1 p.
Proof.
  destruct p as [[cam dis st r] t k docs nav].
  destruct cam, dis; try reflexivity.
  destruct t as [t|]; [destruct (CheckDocument.truthy t) eqn:E|];
    unfold handleTakePhoto; simpl; rewrite ?E; reflexivity.
Qed.

End DocumentsFacts.

(** ** [resolveStringTemplate] *)

Section TemplateFacts.
Import Template.

Lemma replace_cons2 (get : jsstring -> jsstring) (u v : N) (rest : jsstring) :
  replace get (u :: v :: rest)
  = if (u =? dollar)%N && (v =? open_brace)%N
    then capture get [] rest
    else u :: replace get (v :: rest).
Proof. reflexivity. Qed.

Lemma replace_no_open (get : jsstring -> jsstring) (str : jsstring) :
  opens str = false -> replace get str = str.
Proof.
  induction str as [|u rest IH]; [reflexivity|].
  destruct rest as [|v rest']; [reflexivity|].
  intros H. change (((u =? dollar)%N && (v =? open_brace)%N) || opens (v :: rest') = false) in H.
  apply orb_false_iff in H. destruct H as [H1 H2].
  rewrite replace_cons2, H1. f_equal. apply IH. exact H2.
Qed.

Lemma capture_cons (get : jsstring -> jsstring) (group : jsstring) (u : N)
    (rest : jsstring) :
  capture get group (u :: rest)
  = if (u =? close_brace)%N then get group ++ replace get rest
    else if line_terminator u
         then dollar :: open_brace :: group ++ u :: replace get rest
         else capture get (group ++ [u]) rest.
Proof. reflexivity. Qed.

Lemma scan_no_close (get : jsstring -> jsstring) (n : nat) (str : jsstring) :
  (length str <= n)%nat -> close_brace ∉ str ->
  replace get str = str
  /\ forall group, capture get group str = dollar :: open_brace :: group ++ str.
Proof.
  revert str. induction n as [|n IH]; intros str Hlen Hn.
  - destruct str; [|simpl in Hlen; lia].
    split; [reflexivity|]. intros group. simpl. rewrite app_nil_r. reflexivity.
  - destruct str as [|u rest].
    { split; [reflexivity|]. intros group. simpl. rewrite app_nil_r. reflexivity. }
    simpl in Hlen. apply not_elem_of_cons in Hn. destruct Hn as [Hu Hn].
    destruct (IH rest ltac:(lia) Hn) as [IH1 IH2]. split.
    + destruct rest as [|v rest']; [reflexivity|].
      rewrite replace_cons2.
      destruct ((u =? dollar)%N && (v =? open_brace)%N) eqn:E.
      * apply andb_true_iff in E. destruct E as [E1 E2].
        apply N.eqb_eq in E1. apply N.eqb_eq in E2. subst u v.
        apply not_elem_of_cons in Hn. destruct Hn as [_ Hn'].
        simpl in Hlen.
        destruct (IH rest' ltac:(lia) Hn') as [_ K2]. rewrite K2. reflexivity.
      * rewrite IH1. reflexivity.
    + intros group. rewrite capture_cons.
      assert (Hc : (u =? close_brace)%N = false) by (apply N.eqb_neq; congruence).
      rewrite Hc. destruct (line_terminator u).
      * rewrite IH1. reflexivity.
      * rewrite IH2, <- app_assoc. reflexivity.
Qed.

(** X28: a string in which "${" does not occur, or "}" does not occur, is
    returned as it is, whatever the object. *)
Theorem resolveStringTemplate_plain (str : jsstring) (obj : option StringKV) :
  opens str = false \/ close_brace ∉ str ->
  resolveStringTemplate str obj = str.
Proof.
  intros H. unfold resolveStringTemplate.
  destruct obj as [o|]; [|reflexivity].
  destruct (isEmptyObject o); [reflexivity|].
  destruct H as [H|H].
  - apply replace_no_open. exact H.
  - apply (scan_no_close (property o) (length str) str); [lia|exact H].
Qed.

Lemma capture_group (get : jsstring -> jsstring) (group key post : jsstring) :
  close_brace ∉ key -> Forall (fun u => line_terminator u = false) key ->
  capture get group (key ++ close_brace :: post)
  = get (group ++ key) ++ replace get post.
Proof.
  revert group. induction key as [|u key IH]; intros group Hc Hl.
  - simpl. rewrite app_nil_r. reflexivity.
  - apply not_elem_of_cons in Hc. destruct Hc as [Hu Hc].
    apply Forall_cons in Hl. destruct Hl as [Hlu Hl].
    change ((u :: key) ++ close_brace :: post) with (u :: (key ++ close_brace :: post)).
    rewrite capture_cons.
    assert (E : (u =? close_brace)%N = false) by (apply N.eqb_neq; congruence).
    rewrite E, Hlu, (IH _ Hc Hl), <- app_assoc. reflexivity.
Qed.

Lemma replace_prefix (get : jsstring -> jsstring) (pre rest : jsstring) :
  opens pre = false ->
  replace get (pre ++ dollar :: open_brace :: rest) = pre ++ capture get [] rest.
Proof.
  induction pre as [|u pre IH]; intros H; [reflexivity|].
  destruct pre as [|v pre'].
  - simpl app. rewrite replace_cons2.
    destruct ((u =? dollar)%N && (dollar =? open_brace)%N) eqn:E.
    + apply andb_true_iff in E. destruct E as [_ E]. discriminate.
    + f_equal. 
  - change (((u =? dollar)%N && (v =? open_brace)%N) || opens (v :: pre') = false) in H.
    apply orb_false_iff in H. destruct H as [H1 H2].
    change ((u :: v :: pre') ++ dollar :: open_brace :: rest)
      with (u :: v :: (pre' ++ dollar :: open_brace :: rest)).
    rewrite replace_cons2, H1.
    change ((u :: v :: pre') ++ capture get [] rest)
      with (u :: ((v :: pre') ++ capture get [] rest)).
    f_equal. apply IH. exact H2.
Qed.

(** X29: how a placeholder is resolved.  In a string made of a text without
    "${", then "${", a key without "}" or line terminator, "}", and a
    remainder, the text is kept, the placeholder becomes the property of
    that key, and the scan goes on behind it: what was put in is not
    scanned again. *)
Theorem resolveStringTemplate_placeholder (obj : StringKV) (pre key post : jsstring) :
  isEmptyObject obj = false -> opens pre = false ->
  close_brace ∉ key -> Forall (fun u => line_terminator u = false) key ->
  resolveStringTemplate (pre ++ dollar :: open_brace :: key ++ close_brace :: post)
    (Some obj)
  = pre ++ property obj key ++ resolveStringTemplate post (Some obj).
Proof.
  intros He Hp Hc Hl. unfold resolveStringTemplate. rewrite He.
  rewrite (replace_prefix _ pre _ Hp), (capture_group _ [] key post Hc Hl).
  reflexivity.
Qed.

(** X30: a placeholder does not span lines: when a line terminator comes
    before the closing brace, "${" and what follows up to the end of the line
    stay as written, and the scan goes on with the next line. *)
Theorem resolveStringTemplate_line_break (obj : StringKV) (pre key rest : jsstring)
    (nl : N) :
  isEmptyObject obj = false -> opens pre = false ->
  close_brace ∉ key -> Forall (fun u => line_terminator u = false) key ->
  line_terminator nl = true ->
  resolveStringTemplate (pre ++ dollar :: open_brace :: key ++ nl :: rest) (Some obj)
  = pre ++ dollar :: open_brace :: key ++ nl :: resolveStringTemplate rest (Some obj).
Proof.
  intros He Hp Hc Hl Hnl. unfold resolveStringTemplate. rewrite He.
  rewrite (replace_prefix _ pre _ Hp). f_equal.
  assert (Hgen : forall group,
            capture (property obj) group (key ++ nl :: rest)
            = dollar :: open_brace :: (group ++ key) ++ nl :: replace (property obj) rest).
  { induction key as [|u key IH]; intros group.
    - simpl app. rewrite capture_cons, app_nil_r.
      assert (E : (nl =? close_brace)%N = false).
      { destruct (N.eqb_spec nl close_brace) as [->|]; [discriminate|reflexivity]. }
      rewrite E, Hnl. reflexivity.
    - apply not_elem_of_cons in Hc. destruct Hc as [Hu Hc].
      apply Forall_cons in Hl. destruct Hl as [Hlu Hl].
      change ((u :: key) ++ nl :: rest) with (u :: (key ++ nl :: rest)).
      rewrite capture_cons.
      assert (E : (u =? close_brace)%N = false) by (apply N.eqb_neq; congruence).
      rewrite E, Hlu, (IH Hc Hl). rewrite <- (app_assoc group [u] key). reflexivity. }
  rewrite Hgen. reflexivity.
Qed.

End TemplateFacts.

Lemma resolveStringTemplate_plain_witness :
  Template.resolveStringTemplate (Template.units "Price: $5 {net}")
    (Some Samples.greeting)
  = Template.units "Price: $5 {net}".
Proof.
  apply (resolveStringTemplate_plain (Template.units "Price: $5 {net}")
           (Some Samples.greeting)).
  left. vm_compute. reflexivity.
Defined.

Lemma resolveStringTemplate_placeholder_witness :
  Template.resolveStringTemplate (Template.units "Hello ${name}, ${you}!")
    (Some Samples.greeting)
  = Template.units "Hello World, undefined!".
Proof.
  change (Template.units "Hello ${name}, ${you}!")
    with (Template.units "Hello "
          ++ Template.dollar :: Template.open_brace
             :: Template.units "name"
             ++ Template.close_brace :: Template.units ", ${you}!").
  rewrite (resolveStringTemplate_placeholder Samples.greeting
             (Template.units "Hello ") (Template.units "name")
             (Template.units ", ${you}!")).
  - vm_compute. reflexivity.
  - reflexivity.
  - reflexivity.
  - vm_compute. intros H. repeat (apply elem_of_cons in H; destruct H as [H|H];
      [discriminate|]). apply elem_of_nil in H. exact H.
  - vm_compute. repeat constructor.
Defined.

Lemma resolveStringTemplate_line_break_witness :
  Template.resolveStringTemplate
    (Template.units "Dear ${na" ++ 10%N :: Template.units "me} and ${name}")
    (Some Samples.greeting)
  = Template.units "Dear ${na" ++ 10%N :: Template.units "me} and World".
Proof.
  change (Template.units "Dear ${na" ++ 10%N :: Template.units "me} and ${name}")
    with (Template.units "Dear "
          ++ Template.dollar :: Template.open_brace
             :: Template.units "na" ++ 10%N :: Template.units "me} and ${name}").
  rewrite (resolveStringTemplate_line_break Samples.greeting
             (Template.units "Dear ") (Template.units "na")
             (Template.units "me} and ${name}") 10%N).
  - vm_compute. reflexivity.
  - reflexivity.
  - reflexivity.
  - vm_compute. intros H. repeat (apply elem_of_cons in H; destruct H as [H|H];
      [discriminate|]). apply elem_of_nil in H. exact H.
  - vm_compute. repeat constructor.
  - reflexivity.
Defined.
